(** * TwoLayerNet: a shallow embedding of [cattern/neural_net.py]

    The development follows the Python module: numpy arrays carry their
    shape together with their contents, numpy operations check shapes and
    raise, and the three methods [loss], [predict] and [train] of
    [TwoLayerNet] are translated statement by statement.

    Scalars are kept abstract (class [Scalar]) so that the same definitions
    run on IEEE-754 binary64 numbers (the arithmetic numpy really uses,
    instance [binary64]) and on the real numbers (exact arithmetic, instance
    [R_scalar]).  What depends on shapes, indices and control flow only is
    proved for every arithmetic; the equations of the loss and of its
    gradients are proved for every arithmetic with the operations in the
    order of the code, and over the real numbers in their usual form; the
    epoch test of [train], which is plain Python arithmetic on an int and a
    float, is computed in binary64. *)

From Stdlib Require Import ZArith List Bool Arith Lia.
From Stdlib Require Import Reals Lra.
From Stdlib Require Import Floats.SpecFloat.
Import ListNotations.

Set Implicit Arguments.

(* ================================================================= *)
(** ** Python exceptions as results *)

Inductive exn : Type :=
| ValueError          (* numpy: operand shapes do not agree *)
| IndexError          (* numpy: index out of bounds / indices do not fit *)
| ZeroDivisionError.  (* Python: division or modulo by zero *)

Inductive result (T : Type) : Type :=
| Ok (x : T)
| Raise (e : exn).

Arguments Ok {T} x.
Arguments Raise {T} e.

Definition bind {T U : Type} (m : result T) (k : T -> result U) : result U :=
  match m with
  | Ok x => k x
  | Raise e => Raise e
  end.

Notation "x <- m ;; k" := (bind m (fun x => k))
  (at level 61, m at next level, right associativity).

(* ================================================================= *)
(** ** Scalars

    Everything numpy does to a single float64.  [of_int] is the conversion
    of a Python int that numpy performs when an int meets a float array
    (the [0] of [np.maximum(0, _)], the [1] of [-= 1], [/N], [/2],
    [np.ones]). *)

Class Scalar (F : Type) : Type := {
  of_int : Z -> F;
  sadd : F -> F -> F;
  ssub : F -> F -> F;
  smul : F -> F -> F;
  sdiv : F -> F -> F;
  sneg : F -> F;
  sexp : F -> F;
  slog : F -> F;
  sltb : F -> F -> bool;
  sleb : F -> F -> bool;
  sisnan : F -> bool
}.

(* ================================================================= *)
(** ** numpy arrays: a shape and the entries

    A one-dimensional array is its length and its entries, a two-dimensional
    one its two dimensions and its entries.  Only the entries inside the
    shape are meaningful; every operation below that numpy bounds-checks
    checks the bounds explicitly and raises. *)

Record vec (T : Type) : Type := mkvec {
  vlen : nat;
  at1 : nat -> T
}.

Record mat (T : Type) : Type := mkmat {
  mrows : nat;
  mcols : nat;
  at2 : nat -> nat -> T
}.

(** Arrays that agree on their shape and on every entry inside it. *)
Definition vec_eq {T} (u v : vec T) : Prop :=
  vlen u = vlen v /\ forall i, i < vlen u -> at1 u i = at1 v i.

Definition mat_eq {T} (A B : mat T) : Prop :=
  mrows A = mrows B /\ mcols A = mcols B /\
  forall i j, i < mrows A -> j < mcols A -> at2 A i j = at2 B i j.

(** Broadcasting of one dimension against another: equal, or one of them 1. *)
Definition bcast_dim (a b : nat) : option nat :=
  if a =? b then Some a
  else if a =? 1 then Some b
  else if b =? 1 then Some a
  else None.

(** The index read in a dimension of size [n] when it is broadcast. *)
Definition pick (n i : nat) : nat := if n =? 1 then 0 else i.

(** A possibly negative index into an axis of size [n]: numpy accepts
    [-n <= j < n] and counts negative ones from the end. *)
Definition in_bounds (n : nat) (j : Z) : bool :=
  ((- Z.of_nat n <=? j) && (j <? Z.of_nat n))%Z.

Definition wrap (n : nat) (j : Z) : nat :=
  Z.to_nat (if (j <? 0)%Z then j + Z.of_nat n else j)%Z.

(** [a[np.arange(N), y]] on an array with [C] columns: the two index arrays
    are broadcast against each other, every column index is bounds-checked.
    The result lists the (row, column) pairs that are addressed. *)
Definition fancy_index (N C : nat) (y : vec Z) : result (vec (nat * nat)) :=
  match bcast_dim N (vlen y) with
  | None => Raise IndexError
  | Some L =>
      if forallb (fun k => in_bounds C (at1 y (pick (vlen y) k))) (seq 0 L)
      then Ok (mkvec L (fun k => (pick N k, wrap C (at1 y (pick (vlen y) k)))))
      else Raise IndexError
  end.

(** Is entry (i, j) one of the addressed pairs? *)
Definition hit (idx : vec (nat * nat)) (i j : nat) : bool :=
  existsb (fun k => (fst (at1 idx k) =? i) && (snd (at1 idx k) =? j))
          (seq 0 (vlen idx)).

Definition transpose {T} (A : mat T) : mat T :=
  mkmat (mcols A) (mrows A) (fun i j => at2 A j i).

(** [M.reshape(-1)]: the entries in row-major order. *)
Definition reshape_flat {T} (A : mat T) : vec T :=
  mkvec (mrows A * mcols A)
        (fun k => at2 A (k / mcols A) (k mod mcols A)).

(** The rows of [A] at the row numbers [idx], one row per index: the value
    of [A[idx]] when it has one. *)
Definition selected_rows {T} (A : mat T) (idx : vec nat) : mat T :=
  mkmat (vlen idx) (mcols A) (fun k j => at2 A (at1 idx k) j).

(** [A[idx]] with an array of non-negative row numbers: every index is
    checked against the number of rows of [A], and a row number that is out
    of range raises IndexError. *)
Definition take_rows {T} (A : mat T) (idx : vec nat) : result (mat T) :=
  if forallb (fun k => at1 idx k <? mrows A) (seq 0 (vlen idx))
  then Ok (selected_rows A idx)
  else Raise IndexError.

(** [y[idx]]: every index is checked against the length of [y]. *)
Definition take {T} (y : vec T) (idx : vec nat) : result (vec T) :=
  if forallb (fun k => at1 idx k <? vlen y) (seq 0 (vlen idx))
  then Ok (mkvec (vlen idx) (fun k => at1 y (at1 idx k)))
  else Raise IndexError.

Section Numpy.
Context {F : Type} {SF : Scalar F}.

Definition szero : F := of_int 0.
Definition sone : F := of_int 1.

(** Sum of [f 0 .. f (n-1)], accumulated from the left starting at 0. *)
Fixpoint sum_n (n : nat) (f : nat -> F) : F :=
  match n with
  | O => szero
  | S k => sadd (sum_n k f) (f k)
  end.

(** [np.sum] of a whole array. *)
Definition np_sum1 (v : vec F) : F := sum_n (vlen v) (at1 v).

Definition np_sum2 (A : mat F) : F :=
  sum_n (mrows A) (fun i => sum_n (mcols A) (fun j => at2 A i j)).

Definition map1 (f : F -> F) (v : vec F) : vec F :=
  mkvec (vlen v) (fun i => f (at1 v i)).

Definition map2 (f : F -> F) (A : mat F) : mat F :=
  mkmat (mrows A) (mcols A) (fun i j => f (at2 A i j)).

(** [np.matmul] of two 2-D arrays: the inner dimensions must agree. *)
Definition matmul (A B : mat F) : result (mat F) :=
  if mcols A =? mrows B
  then Ok (mkmat (mrows A) (mcols B)
             (fun i j => sum_n (mcols A) (fun k => smul (at2 A i k) (at2 B k j))))
  else Raise ValueError.

(** [A + b] with [b] one-dimensional: [b] is broadcast along the rows. *)
Definition add_row (A : mat F) (b : vec F) : result (mat F) :=
  match bcast_dim (mcols A) (vlen b) with
  | Some c =>
      Ok (mkmat (mrows A) c
            (fun i j => sadd (at2 A i (pick (mcols A) j)) (at1 b (pick (vlen b) j))))
  | None => Raise ValueError
  end.

(** [np.maximum(x, y)] on scalars: a NaN operand wins. *)
Definition np_maximum (x y : F) : F :=
  if sisnan x then x
  else if sisnan y then y
  else if sltb x y then y else x.

Definition relu (A : mat F) : mat F := map2 (np_maximum szero) A.

Definition np_exp (A : mat F) : mat F := map2 sexp A.

(** [np.ones((1, n))]. *)
Definition ones_row (n : nat) : mat F := mkmat 1 n (fun _ _ => sone).

(** [A / n] and [c * A] with a scalar. *)
Definition div_scalar (A : mat F) (n : F) : mat F := map2 (fun x => sdiv x n) A.
Definition scale (c : F) (A : mat F) : mat F := map2 (smul c) A.
Definition scale1 (c : F) (v : vec F) : vec F := map1 (smul c) v.

(** [A ** 2]. *)
Definition square (A : mat F) : mat F := map2 (fun x => smul x x) A.

(** [np.array([row/row.sum() for row in A])], for an array with at least
    one row (with none, the comprehension is empty and the result is a
    one-dimensional empty array: see [softmax_stage]). *)
Definition normalize_rows (A : mat F) : mat F :=
  mkmat (mrows A) (mcols A)
        (fun i j => sdiv (at2 A i j) (sum_n (mcols A) (fun c => at2 A i c))).

(** [A[idx] -= c] with (row, column) pairs: the addressed entries are read,
    decremented and written back; an entry addressed twice is written
    twice with the same value. *)
Definition isub_at (A : mat F) (idx : vec (nat * nat)) (c : F) : mat F :=
  mkmat (mrows A) (mcols A)
        (fun i j => if hit idx i j then ssub (at2 A i j) c else at2 A i j).

(** [A[mask <= 0] = 0] with a mask array of the same shape. *)
Definition zero_where_nonpos (A mask : mat F) : result (mat F) :=
  if (mrows mask =? mrows A) && (mcols mask =? mcols A)
  then Ok (mkmat (mrows A) (mcols A)
             (fun i j => if sleb (at2 mask i j) szero then szero else at2 A i j))
  else Raise IndexError.

(** In-place [A op= B]: [B] must broadcast to the shape of [A], which
    never changes. *)
Definition fits (n target : nat) : bool := (n =? target) || (n =? 1).

Definition inplace2 (op : F -> F -> F) (A B : mat F) : result (mat F) :=
  if fits (mrows B) (mrows A) && fits (mcols B) (mcols A)
  then Ok (mkmat (mrows A) (mcols A)
             (fun i j => op (at2 A i j) (at2 B (pick (mrows B) i) (pick (mcols B) j))))
  else Raise ValueError.

Definition inplace1 (op : F -> F -> F) (u v : vec F) : result (vec F) :=
  if fits (vlen v) (vlen u)
  then Ok (mkvec (vlen u) (fun i => op (at1 u i) (at1 v (pick (vlen v) i))))
  else Raise ValueError.

(** [np.argmax] of row [i]: the first position of the largest entry, the
    first NaN if there is one.  [n] further columns are scanned from
    column [j], [best] being the best position so far. *)
Definition better (x best : F) : bool :=
  sltb best x || (sisnan x && negb (sisnan best)).

Fixpoint argmax_from (row : nat -> F) (best j n : nat) : nat :=
  match n with
  | O => best
  | S n' => argmax_from row (if better (row j) (row best) then j else best) (S j) n'
  end.

(** [np.argmax(A, axis=1)]: refused when there is no column. *)
Definition argmax_rows (A : mat F) : result (vec nat) :=
  if mcols A =? 0 then Raise ValueError
  else Ok (mkvec (mrows A) (fun i => argmax_from (at2 A i) 0 1 (mcols A - 1))).

(** [(pred == y).mean()]: the fraction of positions at which the two
    integer arrays agree. *)
Definition count_eq (p : vec nat) (y : vec Z) (L : nat) : nat :=
  length (filter (fun k => (Z.of_nat (at1 p (pick (vlen p) k)) =? at1 y (pick (vlen y) k))%Z)
                 (seq 0 L)).

Definition accuracy (p : vec nat) (y : vec Z) : result F :=
  match bcast_dim (vlen p) (vlen y) with
  | Some L => Ok (sdiv (of_int (Z.of_nat (count_eq p y L))) (of_int (Z.of_nat L)))
  | None => Raise ValueError
  end.

End Numpy.

(* ================================================================= *)
(** ** Array buffers and views

    Inside [loss] the array bound to [softmax] is sliced ([softmax[:,:]])
    and the slice is updated in place.  A basic slice is a view: a new name
    for the same buffer.  The buffers therefore live in a heap and the
    names hold references. *)

Section Store.
Context {F : Type} {SF : Scalar F}.

Record heap : Type := mkheap {
  cells : nat -> mat F;
  fresh : nat
}.

Definition empty_heap : heap :=
  mkheap (fun _ => mkmat 0 0 (fun _ _ => szero)) 0.

(** A new array gets a buffer of its own. *)
Definition alloc (h : heap) (A : mat F) : nat * heap :=
  (fresh h, mkheap (fun r => if r =? fresh h then A else cells h r) (S (fresh h))).

Definition load (h : heap) (r : nat) : mat F := cells h r.

Definition store (h : heap) (r : nat) (A : mat F) : heap :=
  mkheap (fun r' => if r' =? r then A else cells h r') (fresh h).

(** [a[:,:]]: the whole array as a view, that is the same buffer. *)
Definition view_all (r : nat) : nat := r.

End Store.

(* ================================================================= *)
(** ** TwoLayerNet *)

(** [self.params]; [grads] is a dictionary with the same four keys. *)
Record param_dict (F : Type) : Type := mkparams {
  W1 : mat F;
  b1 : vec F;
  W2 : mat F;
  b2 : vec F
}.

Inductive loss_result (F : Type) : Type :=
| Scores (scores : mat F)
| LossGrads (loss : F) (grads : param_dict F).

Arguments Scores {F} scores.
Arguments LossGrads {F} loss grads.

Section TwoLayerNet.
Context {F : Type} {SF : Scalar F}.

(** [__init__], lines 37-41: the weights are [std] times standard normal
    draws ([randn1], [randn2] stand for the two calls of
    [np.random.randn]), the biases are zero. *)
Definition init (input_size hidden_size output_size : nat) (std : F)
           (randn1 randn2 : nat -> nat -> F) : param_dict F :=
  mkparams (scale std (mkmat input_size hidden_size randn1))
           (mkvec hidden_size (fun _ => szero))
           (scale std (mkmat hidden_size output_size randn2))
           (mkvec output_size (fun _ => szero)).

(** Lines 80-81, the forward pass: the hidden activations and the scores. *)
Definition forward (params : param_dict F) (X : mat F) : result (mat F * mat F) :=
  xw <- matmul X (W1 params) ;;
  z <- add_row xw (b1 params) ;;
  let a1 := relu z in
  aw <- matmul a1 (W2 params) ;;
  scores <- add_row aw (b2 params) ;;
  Ok (a1, scores).

(** Lines 98-100 and 140-141: what the names [softmax], [dscores] and
    [losses] are bound to, and the heap, once line 141 has run. *)
Record frame : Type := mkframe {
  softmax : nat;
  dscores : nat;
  losses : vec F;
  mem : heap (F := F)
}.

Definition softmax_stage (h0 : heap) (scores : mat F) (y : vec Z) : result frame :=
  let N := mrows scores in
  (* softmax = np.exp(scores) *)
  let (softmax0, h1) := alloc h0 (np_exp scores) in
  (* softmax = np.array([row/row.sum() for row in softmax]) *)
  let (softmax, h2) := alloc h1 (normalize_rows (load h1 softmax0)) in
  (* losses = -np.log(softmax[np.arange(N), y]); with no row at all the
     array built above is one-dimensional and cannot take two indices *)
  if N =? 0 then Raise IndexError
  else
    idx <- fancy_index N (mcols (load h2 softmax)) y ;;
    let losses :=
      mkvec (vlen idx)
            (fun k => sneg (slog (at2 (load h2 softmax)
                                      (fst (at1 idx k)) (snd (at1 idx k))))) in
    (* dscores = softmax[:,:] *)
    let dscores := view_all softmax in
    (* dscores[np.arange(N), y] -= 1   (the same index arrays as above) *)
    let h3 := store h2 dscores (isub_at (load h2 dscores) idx sone) in
    Ok (mkframe softmax dscores losses h3).

Definition loss (params : param_dict F) (X : mat F) (y : option (vec Z)) (reg : F)
  : result (loss_result F) :=
  let N := mrows X in
  fw <- forward params X ;;
  let a1 := fst fw in
  let scores := snd fw in
  match y with
  | None => Ok (Scores scores)
  | Some y =>
      fr <- softmax_stage empty_heap scores y ;;
      (* loss = np.sum(losses)/N + reg * (np.sum(W1**2) + np.sum(W2**2))/2 *)
      let loss :=
        sadd (sdiv (np_sum1 (losses fr)) (of_int (Z.of_nat N)))
             (sdiv (smul reg (sadd (np_sum2 (square (W1 params)))
                                   (np_sum2 (square (W2 params)))))
                   (of_int 2)) in
      let dscores := load (mem fr) (dscores fr) in
      (* dW2 = np.matmul(a1.T, dscores)/N *)
      m2 <- matmul (transpose a1) dscores ;;
      let dW2 := div_scalar m2 (of_int (Z.of_nat N)) in
      (* db2 = (np.matmul(np.ones((1,N)), dscores)/N).reshape(-1) *)
      s2 <- matmul (ones_row N) dscores ;;
      let db2 := reshape_flat (div_scalar s2 (of_int (Z.of_nat N))) in
      (* da1 = np.matmul(dscores, W2.T); da1[a1 <= 0] = 0 *)
      da1 <- matmul dscores (transpose (W2 params)) ;;
      da1 <- zero_where_nonpos da1 a1 ;;
      (* dW1 = np.matmul(X.T, da1)/N *)
      m1 <- matmul (transpose X) da1 ;;
      let dW1 := div_scalar m1 (of_int (Z.of_nat N)) in
      (* db1 = (np.matmul(tmp, da1)/N).reshape(-1) *)
      s1 <- matmul (ones_row N) da1 ;;
      let db1 := reshape_flat (div_scalar s1 (of_int (Z.of_nat N))) in
      (* dW1 += reg * W1; dW2 += reg * W2 *)
      dW1 <- inplace2 sadd dW1 (scale reg (W1 params)) ;;
      dW2 <- inplace2 sadd dW2 (scale reg (W2 params)) ;;
      Ok (LossGrads loss (mkparams dW1 db1 dW2 db2))
  end.

(** Lines 275-277. *)
Definition predict (params : param_dict F) (X : mat F) : result (vec nat) :=
  xw <- matmul X (W1 params) ;;
  z <- add_row xw (b1 params) ;;
  let a1 := relu z in
  aw <- matmul a1 (W2 params) ;;
  scores <- add_row aw (b2 params) ;;
  argmax_rows scores.

End TwoLayerNet.

(* ================================================================= *)
(** ** Python numbers in the epoch test

    [num_train / batch_size] is Python 3 true division of two ints: the
    correctly rounded binary64 quotient (operands below 2^53 convert
    exactly).  [max(_, 1)] keeps the float unless the int 1 is strictly
    greater, and [it % _] on a float converts [it] (exactly, below 2^53)
    and takes C's [fmod], whose result is exact. *)

Inductive pynum : Type :=
| PyInt (n : Z)
| PyFloat (x : spec_float).

Definition b64_of_int (z : Z) : spec_float := binary_normalize 53 1024 z 0 false.

Definition true_div (a b : Z) : result spec_float :=
  if (b =? 0)%Z then Raise ZeroDivisionError
  else Ok (SFdiv 53 1024 (b64_of_int a) (b64_of_int b)).

(** [max(q, 1)]: the first argument is kept unless [1 > q]. *)
Definition py_max_1 (q : spec_float) : pynum :=
  if SFltb q (b64_of_int 1) then PyInt 1 else PyFloat q.

(** Line 188. *)
Definition iterations_per_epoch (num_train : nat) (batch_size : Z) : result pynum :=
  q <- true_div (Z.of_nat num_train) batch_size ;;
  Ok (py_max_1 q).

(** [it % w] for a non-negative int [it] and a float [w] (CPython's
    [float_rem]): [fmod(it, w)], moved by [w] when the signs differ, and a
    zero with the sign of [w] when it vanishes. *)
Definition float_rem (it : nat) (w : spec_float) : result spec_float :=
  match w with
  | S754_zero _ => Raise ZeroDivisionError
  | S754_nan => Ok S754_nan
  | S754_infinity s =>
      if it =? 0 then Ok (S754_zero s)
      else if s then Ok (S754_infinity true)
      else Ok (b64_of_int (Z.of_nat it))
  | S754_finite s m e =>
      let '(num, ex) :=
        if (0 <=? e)%Z
        then ((Z.of_nat it) mod (Z.pos m * 2 ^ e), 0)%Z
        else ((Z.of_nat it * 2 ^ (- e)) mod (Z.pos m), e)%Z in
      if (num =? 0)%Z then Ok (S754_zero s)
      else
        let r := binary_normalize 53 1024 num ex false in
        if s then Ok (SFadd 53 1024 r w) else Ok r
  end.

(** [it % n == 0]. *)
Definition mod_is_zero (it : nat) (n : pynum) : result bool :=
  match n with
  | PyInt k =>
      if (k =? 0)%Z then Raise ZeroDivisionError
      else Ok ((Z.of_nat it mod k =? 0)%Z)
  | PyFloat w =>
      r <- float_rem it w ;;
      Ok (SFeqb r (b64_of_int 0))
  end.

(* ================================================================= *)
(** ** The training loop *)

(** [np.random.choice(num_train, batch_size)]: [batch_size] draws below
    [num_train].  The generator is the function [rng]: draw [k] of
    iteration [it] is [rng it k], reduced below [num_train]. *)
Definition random_choice (rng : nat -> nat -> nat) (it num_train : nat) (batch_size : Z)
  : result (vec nat) :=
  if (batch_size <? 0)%Z then Raise ValueError
  else if (num_train =? 0) && negb (batch_size =? 0)%Z then Raise ValueError
  else Ok (mkvec (Z.to_nat batch_size) (fun k => rng it k mod num_train)).

Section Train.
Context {F : Type} {SF : Scalar F}.

(** The network ([self.params]), the local [learning_rate], the three
    histories and what [verbose] printed. *)
Record train_state : Type := mkstate {
  params : param_dict F;
  learning_rate : F;
  loss_history : list F;
  train_acc_history : list F;
  val_acc_history : list F;
  printed : list (nat * nat * F)
}.

Variables (X : mat F) (y : vec Z) (X_val : mat F) (y_val : vec Z).
Variables (learning_rate_decay reg : F).
Variables (num_iters : nat) (batch_size : Z) (verbose : bool).
Variable rng : nat -> nat -> nat.

(** One turn of the loop, lines 196-243; [epoch] is the value of
    [iterations_per_epoch]. *)
Definition train_step (epoch : pynum) (it : nat) (s : train_state) : result train_state :=
  let num_train := mrows X in
  idx <- random_choice rng it num_train batch_size ;;
  X_batch <- take_rows X idx ;;
  y_batch <- take y idx ;;
  r <- loss (params s) X_batch (Some y_batch) reg ;;
  match r with
  | Scores _ => Raise ValueError   (* a lone array does not unpack into two names *)
  | LossGrads l grads =>
      let lr := learning_rate s in
      w1 <- inplace2 ssub (W1 (params s)) (scale lr (W1 grads)) ;;
      w2 <- inplace2 ssub (W2 (params s)) (scale lr (W2 grads)) ;;
      c1 <- inplace1 ssub (b1 (params s)) (scale1 lr (b1 grads)) ;;
      c2 <- inplace1 ssub (b2 (params s)) (scale1 lr (b2 grads)) ;;
      let params' := mkparams w1 c1 w2 c2 in
      let printed' :=
        if verbose && (it mod 100 =? 0)
        then printed s ++ [(it, num_iters, l)] else printed s in
      boundary <- mod_is_zero it epoch ;;
      if boundary : bool then
        p_batch <- predict params' X_batch ;;
        train_acc <- accuracy p_batch y_batch ;;
        p_val <- predict params' X_val ;;
        val_acc <- accuracy p_val y_val ;;
        Ok (mkstate params' (smul lr learning_rate_decay)
                    (loss_history s ++ [l])
                    (train_acc_history s ++ [train_acc])
                    (val_acc_history s ++ [val_acc])
                    printed')
      else
        Ok (mkstate params' lr (loss_history s ++ [l])
                    (train_acc_history s) (val_acc_history s) printed')
  end.

(** The state after the first [n] turns, [it = 0 .. n-1]. *)
Fixpoint train_iters (epoch : pynum) (n : nat) (s0 : train_state) : result train_state :=
  match n with
  | O => Ok s0
  | S k => s <- train_iters epoch k s0 ;; train_step epoch k s
  end.

(** [train]: the final state carries the updated network and the three
    histories that the method returns. *)
Definition train (net : param_dict F) (learning_rate0 : F) : result train_state :=
  epoch <- iterations_per_epoch (mrows X) batch_size ;;
  train_iters epoch num_iters (mkstate net learning_rate0 [] [] [] []).

End Train.

(* ================================================================= *)
(** ** The two arithmetics *)

(** Exact arithmetic on the real numbers. *)
Definition Rltb (x y : R) : bool := if Rlt_dec x y then true else false.
Definition Rleb (x y : R) : bool := if Rle_dec x y then true else false.

#[export] Instance R_scalar : Scalar R := {|
  of_int := IZR;
  sadd := Rplus;
  ssub := Rminus;
  smul := Rmult;
  sdiv := Rdiv;
  sneg := Ropp;
  sexp := exp;
  slog := ln;
  sltb := Rltb;
  sleb := Rleb;
  sisnan := fun _ => false
|}.

(** IEEE-754 binary64, the arithmetic of numpy's float64.  [exp] and [log]
    come from the platform's mathematical library and are parameters. *)
Definition b64_isnan (x : spec_float) : bool :=
  match x with S754_nan => true | _ => false end.

Definition binary64 (libm_exp libm_log : spec_float -> spec_float) : Scalar spec_float := {|
  of_int := b64_of_int;
  sadd := SFadd 53 1024;
  ssub := SFsub 53 1024;
  smul := SFmul 53 1024;
  sdiv := SFdiv 53 1024;
  sneg := SFopp;
  sexp := libm_exp;
  slog := libm_log;
  sltb := SFltb;
  sleb := SFleb;
  sisnan := b64_isnan
|}.

(* ================================================================= *)
(** * Specification side

    The quantities that the statements below speak about, written entry by
    entry, in the words of the specification. *)

(** Shapes fixed at construction: W1 is D x H, b1 has length H, W2 is
    H x C, b2 has length C. *)
Definition net_shape {F} (p : param_dict F) (D H C : nat) : Prop :=
  mrows (W1 p) = D /\ mcols (W1 p) = H /\ vlen (b1 p) = H /\
  mrows (W2 p) = H /\ mcols (W2 p) = C /\ vlen (b2 p) = C.

Definition same_shape {F} (p q : param_dict F) : Prop :=
  mrows (W1 q) = mrows (W1 p) /\ mcols (W1 q) = mcols (W1 p) /\
  vlen (b1 q) = vlen (b1 p) /\
  mrows (W2 q) = mrows (W2 p) /\ mcols (W2 q) = mcols (W2 p) /\
  vlen (b2 q) = vlen (b2 p).

(** A batch: X is N x D, with one label per row. *)
Definition batch_shape {F} (X : mat F) (y : vec Z) (N D : nat) : Prop :=
  mrows X = N /\ mcols X = D /\ vlen y = N.

(** Labels that are classes, [0 <= y[i] < C]. *)
Definition labels_in (y : vec Z) (C : nat) : Prop :=
  forall i, i < vlen y -> (0 <= at1 y i < Z.of_nat C)%Z.

(** Labels that numpy accepts as indices, [-C <= y[i] < C]. *)
Definition labels_indexable (y : vec Z) (C : nat) : Prop :=
  forall i, i < vlen y -> (- Z.of_nat C <= at1 y i < Z.of_nat C)%Z.

Definition true_class (y : vec Z) (i : nat) : nat := Z.to_nat (at1 y i).

Section Entries.
Context {F : Type} {SF : Scalar F}.
Variables (p : param_dict F) (X : mat F).

(** a1 = max(0, X.W1 + b1) *)
Definition hidden (i h : nat) : F :=
  np_maximum szero
    (sadd (sum_n (mcols X) (fun d => smul (at2 X i d) (at2 (W1 p) d h)))
          (at1 (b1 p) h)).

(** scores = a1.W2 + b2 *)
Definition score (i c : nat) : F :=
  sadd (sum_n (mrows (W2 p)) (fun h => smul (hidden i h) (at2 (W2 p) h c)))
       (at1 (b2 p) c).

(** Row-wise softmax of the raw scores: exponentiate, divide by the sum
    of the row.  Nothing is subtracted from the scores first. *)
Definition probability (i c : nat) : F :=
  sdiv (sexp (score i c))
       (sum_n (mcols (W2 p)) (fun c' => sexp (score i c'))).

(** The class of each row is [cls]. *)
Variable cls : nat -> nat.

(** dScores: the probabilities, with 1 subtracted in the column of the
    row's class. *)
Definition dScores (i c : nat) : F :=
  if c =? cls i then ssub (probability i c) sone else probability i c.

(** dA1 = dScores.W2^T, zeroed where a1 <= 0 *)
Definition dA1 (i h : nat) : F :=
  if sleb (hidden i h) szero then szero
  else sum_n (mcols (W2 p)) (fun c => smul (dScores i c) (at2 (W2 p) h c)).

(** Mean over the rows of -log of the probability of the row's class. *)
Definition data_loss : F :=
  sdiv (sum_n (mrows X) (fun i => sneg (slog (probability i (cls i)))))
       (of_int (Z.of_nat (mrows X))).

(** Sum of the squares of all the entries of a matrix. *)
Definition sum_squares (A : mat F) : F :=
  sum_n (mrows A) (fun i => sum_n (mcols A) (fun j => smul (at2 A i j) (at2 A i j))).

End Entries.

(** The class that [a[np.arange(N), y]] addresses in row [i]. *)
Definition indexed_class (C : nat) (y : vec Z) (i : nat) : nat := wrap C (at1 y i).

(** Sums of real numbers. *)
Definition Rsum (n : nat) (f : nat -> R) : R := sum_n (SF := R_scalar) n f.

(** The backpropagation equations, over the reals, for the gradient
    dictionary [g] of a batch of [N] rows. *)
Definition backprop_equations
  (p : param_dict R) (X : mat R) (y : vec Z) (reg : R) (g : param_dict R) : Prop :=
  let N := mrows X in
  let dS := dScores p X (true_class y) in
  let dA := dA1 p X (true_class y) in
  mat_eq (W2 g)
    (mkmat (mrows (W2 p)) (mcols (W2 p))
       (fun h c => Rsum N (fun i => hidden p X i h * dS i c) / INR N
                   + reg * at2 (W2 p) h c)%R) /\
  vec_eq (b2 g)
    (mkvec (mcols (W2 p)) (fun c => Rsum N (fun i => dS i c) / INR N)%R) /\
  mat_eq (W1 g)
    (mkmat (mrows (W1 p)) (mcols (W1 p))
       (fun d h => Rsum N (fun i => at2 X i d * dA i h) / INR N
                   + reg * at2 (W1 p) d h)%R) /\
  vec_eq (b1 g)
    (mkvec (mcols (W1 p)) (fun h => Rsum N (fun i => dA i h) / INR N)%R).

(** The same equations in the arithmetic of the code and in the order of
    its operations: each sum runs over the rows in order and is divided by
    N, the regularization term is added last, and the column sums are
    taken as the product of a row of ones with the array (lines 145 and
    152-153), hence the factor 1. *)
Definition backprop_equations_as_computed {F} {SF : Scalar F}
  (p : param_dict F) (X : mat F) (y : vec Z) (reg : F) (g : param_dict F) : Prop :=
  let N := mrows X in
  let n := of_int (Z.of_nat N) in
  let dS := dScores p X (true_class y) in
  let dA := dA1 p X (true_class y) in
  mat_eq (W2 g)
    (mkmat (mrows (W2 p)) (mcols (W2 p))
       (fun h c => sadd (sdiv (sum_n N (fun i => smul (hidden p X i h) (dS i c))) n)
                        (smul reg (at2 (W2 p) h c)))) /\
  vec_eq (b2 g)
    (mkvec (mcols (W2 p))
       (fun c => sdiv (sum_n N (fun i => smul sone (dS i c))) n)) /\
  mat_eq (W1 g)
    (mkmat (mrows (W1 p)) (mcols (W1 p))
       (fun d h => sadd (sdiv (sum_n N (fun i => smul (at2 X i d) (dA i h))) n)
                        (smul reg (at2 (W1 p) d h)))) /\
  vec_eq (b1 g)
    (mkvec (mcols (W1 p))
       (fun h => sdiv (sum_n N (fun i => smul sone (dA i h))) n)).

(** Two networks with the same shapes and the same entries. *)
Definition params_eq {F} (p q : param_dict F) : Prop :=
  mat_eq (W1 p) (W1 q) /\ vec_eq (b1 p) (b1 q) /\
  mat_eq (W2 p) (W2 q) /\ vec_eq (b2 p) (b2 q).

(** Some entry of W1 or of W2 is not zero (it is below or above zero). *)
Definition nonzero_entry {F} {SF : Scalar F} (x : F) : bool :=
  sltb x szero || sltb szero x.

Definition weights_nonzero {F} {SF : Scalar F} (p : param_dict F) : Prop :=
  (exists i j, i < mrows (W1 p) /\ j < mcols (W1 p) /\
               nonzero_entry (at2 (W1 p) i j) = true) \/
  (exists i j, i < mrows (W2 p) /\ j < mcols (W2 p) /\
               nonzero_entry (at2 (W2 p) i j) = true).

(** "The loss strictly increases with the regularization strength", for
    the arithmetic [SF]: whenever [loss] returns for two strengths
    [reg1 < reg2] on the same batch and weights, the first value is
    strictly below the second. *)
Definition strictly_increasing_in_reg {F} (SF : Scalar F) : Prop :=
  forall (p : param_dict F) (X : mat F) (y : vec Z) (reg1 reg2 : F)
         (N D H C : nat) (l1 l2 : F) (g1 g2 : param_dict F),
    net_shape p D H C -> batch_shape X y N D -> 0 < N -> labels_in y C ->
    weights_nonzero p -> sltb reg1 reg2 = true ->
    loss p X (Some y) reg1 = Ok (LossGrads l1 g1) ->
    loss p X (Some y) reg2 = Ok (LossGrads l2 g2) ->
    sltb l1 l2 = true.

(** "The loss is the mean of -log of the softmax probability of the true
    class plus (reg / 2) times the sum of the squares of the weights", read
    in the arithmetic [SF]. *)
Definition loss_value_as_claimed {F} (SF : Scalar F) : Prop :=
  forall (p : param_dict F) (X : mat F) (y : vec Z) (reg : F)
         (N D H C : nat) (l : F) (g : param_dict F),
    net_shape p D H C -> batch_shape X y N D -> 0 < N -> labels_in y C ->
    loss p X (Some y) reg = Ok (LossGrads l g) ->
    l = sadd (data_loss p X (true_class y))
             (smul (sdiv reg (of_int 2))
                   (sadd (sum_squares (W1 p)) (sum_squares (W2 p)))).

(** The epoch length in the words of the specification:
    max(1, floor(training-set size / batch size)). *)
Definition epoch_length (num_train batch_size : nat) : nat :=
  Nat.max 1 (num_train / batch_size).

(** The iterations at which the specification puts an epoch boundary. *)
Definition boundary_spec (num_train batch_size it : nat) : bool :=
  it mod epoch_length num_train batch_size =? 0.

(** What line 188 would compute with floor division ([//], or [/] on the
    ints of Python 2). *)
Definition floor_epoch (num_train : nat) (batch_size : Z) : pynum :=
  PyInt (Z.max (Z.of_nat num_train / batch_size) 1).

(** The iterations at which [train] measures accuracy and decays the rate. *)
Definition boundary_code (num_train : nat) (batch_size : Z) (it : nat) : result bool :=
  epoch <- iterations_per_epoch num_train batch_size ;;
  mod_is_zero it epoch.

(** How many of the iterations [0 .. n-1] are boundaries for [train]. *)
Fixpoint decays (epoch : pynum) (n : nat) : nat :=
  match n with
  | O => 0
  | S k => decays epoch k + (match mod_is_zero k epoch with Ok true => 1 | _ => 0 end)
  end.

(** [rate] multiplied [k] times by [decay], one multiplication at a time. *)
Fixpoint decayed {F} {SF : Scalar F} (rate decay : F) (k : nat) : F :=
  match k with
  | O => rate
  | S k' => smul (decayed rate decay k') decay
  end.

(* ================================================================= *)
(** * Concrete inputs *)

(** A network with D = 1, H = 2, C = 2 and a batch of two rows. *)
Definition net0 : param_dict R :=
  mkparams (mkmat 1 2 (fun _ h => if h =? 0 then 1%R else (-1)%R))
           (mkvec 2 (fun _ => 0%R))
           (mkmat 2 2 (fun h c => if h =? c then 1%R else 0%R))
           (mkvec 2 (fun _ => 0%R)).

Definition X0 : mat R := mkmat 2 1 (fun i _ => if i =? 0 then 1%R else (-1)%R).
Definition y0 : vec Z := mkvec 2 (fun i => Z.of_nat i).

(** Scores of that batch, to run the softmax stage on its own. *)
Definition scores0 : mat R := mkmat 2 2 (fun i c => INR (i + c)).

(** The same batch with negative labels, -1 and -2. *)
Definition y_negative : vec Z := mkvec 2 (fun i => (- 1 - Z.of_nat i)%Z).

(** A batch with two features, and labels of which the second is C. *)
Definition X_wide : mat R := mkmat 2 2 (fun _ _ => 1%R).
Definition y_big : vec Z := mkvec 2 (fun i => (2 * Z.of_nat i)%Z).

(** Training sets of [n] rows, labels 0 1 0 1 ..., and a generator. *)
Definition X_rows (n : nat) : mat R := mkmat n 1 (fun i _ => INR i).
Definition y_rows (n : nat) : vec Z := mkvec n (fun i => Z.of_nat (i mod 2)).
Definition X5 : mat R := X_rows 5.
Definition y5 : vec Z := y_rows 5.
Definition rng0 (it k : nat) : nat := it + k.

(** A binary64 network with D = 2, H = 2, C = 3 and a batch of two rows. *)
Definition net64 : param_dict spec_float :=
  mkparams (mkmat 2 2 (fun d h => b64_of_int (if d =? h then 1 else -1)))
           (mkvec 2 (fun _ => b64_of_int 0))
           (mkmat 2 3 (fun h c => b64_of_int (if h =? c then 1 else 0)))
           (mkvec 3 (fun _ => b64_of_int 0)).

Definition X64 : mat spec_float :=
  mkmat 2 2 (fun i d => b64_of_int (if i =? d then 2 else 0)).

(** A binary64 network whose only non-zero weight is 2^-600, and a batch of
    one row. *)
Definition small_weight : spec_float := S754_finite false 4503599627370496 (-652).

Definition tiny_net : param_dict spec_float :=
  mkparams (mkmat 1 1 (fun _ _ => small_weight))
           (mkvec 1 (fun _ => b64_of_int 0))
           (mkmat 1 1 (fun _ _ => b64_of_int 0))
           (mkvec 1 (fun _ => b64_of_int 0)).

Definition tiny_X : mat spec_float := mkmat 1 1 (fun _ _ => b64_of_int 0).
Definition tiny_y : vec Z := mkvec 1 (fun _ => 0%Z).

(** A binary64 network whose two weights are 2^511, so that the sum of
    their squares is 2^1023. *)
Definition big_weight : spec_float := S754_finite false 4503599627370496 459.

Definition huge_net : param_dict spec_float :=
  mkparams (mkmat 1 1 (fun _ _ => big_weight))
           (mkvec 1 (fun _ => b64_of_int 0))
           (mkmat 1 1 (fun _ _ => big_weight))
           (mkvec 1 (fun _ => b64_of_int 0)).

(** A binary64 network with D = 1, H = 1, C = 2 and a one-row batch whose
    second score is 1000. *)
Definition net_over : param_dict spec_float :=
  mkparams (mkmat 1 1 (fun _ _ => b64_of_int 1))
           (mkvec 1 (fun _ => b64_of_int 0))
           (mkmat 1 2 (fun _ c => b64_of_int (Z.of_nat c)))
           (mkvec 2 (fun _ => b64_of_int 0)).

Definition X_over : mat spec_float := mkmat 1 1 (fun _ _ => b64_of_int 1000).
Definition y_over : vec Z := mkvec 1 (fun _ => 1%Z).

(* ================================================================= *)
(** * Further notions and inputs *)

(** The state of [train] without what [verbose] printed. *)
Definition forget_printed {F} (s : train_state (F := F)) : train_state :=
  mkstate (params s) (learning_rate s) (loss_history s)
          (train_acc_history s) (val_acc_history s) [].

(** All the weights and the hidden biases of a network are zero (the output
    biases are free). *)
Definition weights_zero (p : param_dict R) : Prop :=
  (forall d h, d < mrows (W1 p) -> h < mcols (W1 p) -> at2 (W1 p) d h = 0%R) /\
  (forall h, h < vlen (b1 p) -> at1 (b1 p) h = 0%R) /\
  (forall h c, h < mrows (W2 p) -> c < mcols (W2 p) -> at2 (W2 p) h c = 0%R).

(** A binary64 value that is an infinity or a NaN. *)
Definition inf_or_nan (x : spec_float) : bool :=
  match x with S754_infinity _ | S754_nan => true | _ => false end.

(** A batch without rows, a lone label, and three labels for two rows. *)
Definition X_none : mat R := X_rows 0.
Definition y_one : vec Z := mkvec 1 (fun _ => 1%Z).
Definition y_three : vec Z := y_rows 3.

(** Row numbers 0 1 0, to select rows of a batch, and the lone row number
    7, which a batch of two rows does not have. *)
Definition idx0 : vec nat := mkvec 3 (fun k => k mod 2).
Definition idx_out : vec nat := mkvec 1 (fun _ => 7).

(** The network [net0] with no output class at all, and with a single one. *)
Definition net_no_class : param_dict R :=
  mkparams (W1 net0) (b1 net0) (mkmat 2 0 (fun _ _ => 0%R)) (mkvec 0 (fun _ => 0%R)).

Definition net_one_class : param_dict R :=
  mkparams (W1 net0) (b1 net0) (mkmat 2 1 (fun _ _ => 1%R)) (mkvec 1 (fun _ => 0%R)).

Definition y_zeros (n : nat) : vec Z := mkvec n (fun _ => 0%Z).

(** What the constructor builds for D = 1, H = 2, C = 2 with std = 0. *)
Definition net_std0 : param_dict R :=
  init 1 2 2 0%R (fun _ _ => 1%R) (fun _ _ => 1%R).

(** binary64: labels for [X64], an empty validation set, a score whose
    exponential is out of range, and an [exp] that then returns +inf. *)
Definition y64 : vec Z := mkvec 2 (fun i => Z.of_nat i).
Definition X64_none : mat spec_float := mkmat 0 2 (fun _ _ => b64_of_int 0).
Definition y_none : vec Z := mkvec 0 (fun _ => 0%Z).
Definition scores_huge : mat spec_float := mkmat 1 2 (fun _ c => b64_of_int (1000 * Z.of_nat c)).
Definition exp_overflow (x : spec_float) : spec_float :=
  if SFltb (b64_of_int 709) x then S754_infinity false else b64_of_int 1.

(** The binary64 arithmetic with [exp_overflow] for [exp]. *)
Definition binary64_overflowing : Scalar spec_float :=
  binary64 exp_overflow (fun x => x).

(* ================================================================= *)
(** * Proofs *)

Unset Implicit Arguments.

(** ** Results, lists and indices *)

Lemma bind_inv {T U : Type} (m : result T) (k : T -> result U) (r : U) :
  bind m k = Ok r -> exists x, m = Ok x /\ k x = Ok r.
Proof. destruct m as [x|e]; cbn; intros E; [eauto | discriminate]. Qed.

Tactic Notation "bind_as" hyp(H) ident(x) ident(E) :=
  apply bind_inv in H; destruct H as (x & E & H).

Lemma forallb_seq (f : nat -> bool) (n : nat) :
  (forall k, k < n -> f k = true) -> forallb f (seq 0 n) = true.
Proof.
  intros Hf. apply forallb_forall. intros k Hk.
  apply in_seq in Hk. apply Hf. lia.
Qed.

Lemma forallb_seq_false (f : nat -> bool) (n k : nat) :
  k < n -> f k = false -> forallb f (seq 0 n) = false.
Proof.
  intros Hk Hf. destruct (forallb f (seq 0 n)) eqn:E; [|reflexivity].
  rewrite forallb_forall in E. rewrite <- Hf. symmetry. apply E. apply in_seq. lia.
Qed.

Lemma pick_lt (n i : nat) : i < n -> pick n i = i.
Proof. unfold pick. destruct (Nat.eqb_spec n 1); lia. Qed.

Lemma bcast_dim_same (n : nat) : bcast_dim n n = Some n.
Proof. unfold bcast_dim. now rewrite Nat.eqb_refl. Qed.

Lemma in_bounds_iff (n : nat) (j : Z) :
  in_bounds n j = true <-> (- Z.of_nat n <= j < Z.of_nat n)%Z.
Proof.
  unfold in_bounds. rewrite andb_true_iff, Z.leb_le, Z.ltb_lt. reflexivity.
Qed.

Lemma wrap_lt (n : nat) (j : Z) : in_bounds n j = true -> wrap n j < n.
Proof.
  rewrite in_bounds_iff. unfold wrap. intros Hb.
  destruct (Z.ltb_spec j 0); lia.
Qed.

Lemma wrap_class (n : nat) (j : Z) : (0 <= j)%Z -> wrap n j = Z.to_nat j.
Proof.
  unfold wrap. intros Hj. destruct (Z.ltb_spec j 0); [lia | reflexivity].
Qed.

Lemma labels_in_indexable (y : vec Z) (C : nat) :
  labels_in y C -> labels_indexable y C.
Proof. intros Hy i Hi. specialize (Hy i Hi). lia. Qed.

Lemma indexed_class_true_class (y : vec Z) (C : nat) (i : nat) :
  labels_in y C -> i < vlen y -> indexed_class C y i = true_class y i.
Proof.
  intros Hy Hi. unfold indexed_class, true_class. apply wrap_class.
  specialize (Hy i Hi). lia.
Qed.

Lemma fancy_index_ok (N C : nat) (y : vec Z) :
  vlen y = N -> labels_indexable y C ->
  fancy_index N C y
  = Ok (mkvec N (fun k => (pick N k, wrap C (at1 y (pick (vlen y) k))))).
Proof.
  intros Hy Hl. unfold fancy_index. rewrite Hy, bcast_dim_same.
  rewrite forallb_seq; [reflexivity|].
  intros k Hk. rewrite pick_lt by exact Hk.
  apply in_bounds_iff. apply Hl. lia.
Qed.

(** The pairs addressed by [a[np.arange(N), y]] hit row [i] exactly in the
    column of its class. *)
Lemma hit_class (N C : nat) (y : vec Z) (i j : nat) :
  vlen y = N -> i < N ->
  hit (mkvec N (fun k => (pick N k, wrap C (at1 y (pick (vlen y) k))))) i j
  = (j =? indexed_class C y i).
Proof.
  intros Hy Hi. unfold hit, indexed_class. simpl. rewrite Hy.
  destruct (Nat.eqb_spec j (wrap C (at1 y i))) as [->|Hne].
  - apply existsb_exists. exists i. split; [apply in_seq; lia|].
    rewrite (pick_lt _ _ Hi). simpl. now rewrite !Nat.eqb_refl.
  - destruct (existsb _ _) eqn:E; [|reflexivity].
    apply existsb_exists in E. destruct E as [k [Hk Hb]].
    apply in_seq in Hk. rewrite pick_lt in Hb by lia. simpl in Hb.
    apply andb_true_iff in Hb. destruct Hb as [H1 H2].
    apply Nat.eqb_eq in H1, H2. subst. congruence.
Qed.

Lemma take_ok {T : Type} (y : vec T) (idx : vec nat) :
  (forall k, at1 idx k < vlen y) ->
  take y idx = Ok (mkvec (vlen idx) (fun k => at1 y (at1 idx k))).
Proof.
  intros Hk. unfold take. rewrite forallb_seq; [reflexivity|].
  intros k _. apply Nat.ltb_lt. apply Hk.
Qed.

Lemma take_rows_ok {T : Type} (A : mat T) (idx : vec nat) :
  (forall k, k < vlen idx -> at1 idx k < mrows A) ->
  take_rows A idx = Ok (selected_rows A idx).
Proof.
  intros Hk. unfold take_rows. rewrite forallb_seq; [reflexivity|].
  intros k Hlt. apply Nat.ltb_lt. apply Hk. exact Hlt.
Qed.

Lemma take_rows_inv {T : Type} (A B : mat T) (idx : vec nat) :
  take_rows A idx = Ok B ->
  B = selected_rows A idx /\ forall k, k < vlen idx -> at1 idx k < mrows A.
Proof.
  unfold take_rows. destruct (forallb _ _) eqn:E; [|discriminate].
  intros E'. injection E' as <-. split; [reflexivity|].
  intros k Hk. rewrite forallb_forall in E.
  apply Nat.ltb_lt. apply E. apply in_seq. lia.
Qed.

Lemma take_rows_raise {T : Type} (A : mat T) (idx : vec nat) (k : nat) :
  k < vlen idx -> mrows A <= at1 idx k -> take_rows A idx = Raise IndexError.
Proof.
  intros Hk Hout. unfold take_rows.
  rewrite (forallb_seq_false _ (vlen idx) k Hk); [reflexivity|].
  apply Nat.ltb_ge. exact Hout.
Qed.

Lemma random_choice_ok (rng : nat -> nat -> nat) (it num_train : nat) (batch_size : Z) :
  0 < num_train -> (0 < batch_size)%Z ->
  exists idx, random_choice rng it num_train batch_size = Ok idx /\
              vlen idx = Z.to_nat batch_size /\
              forall k, at1 idx k < num_train.
Proof.
  intros Hn Hb. unfold random_choice.
  destruct (Z.ltb_spec batch_size 0); [lia|].
  destruct (Nat.eqb_spec num_train 0); [lia|]. cbn.
  eexists. split; [reflexivity|]. cbn. split; [reflexivity|].
  intros k. apply Nat.mod_upper_bound. lia.
Qed.

(** ** The epoch test *)

Lemma SFltb_zero_one (s : bool) : SFltb (S754_zero s) (b64_of_int 1) = true.
Proof. reflexivity. Qed.

Lemma SFltb_irrefl (x : spec_float) : SFltb x x = false.
Proof.
  unfold SFltb, SFcompare.
  destruct x as [s|s| |s m e]; try (destruct s; reflexivity); try reflexivity.
  rewrite Z.compare_refl, Pos.compare_cont_refl. destruct s; reflexivity.
Qed.

(** The test never raises on the value computed at line 188. *)
Lemma py_max_1_mod_ok (q : spec_float) (it : nat) :
  exists b, mod_is_zero it (py_max_1 q) = Ok b.
Proof.
  unfold py_max_1. destruct (SFltb q (b64_of_int 1)) eqn:E.
  - cbn. eauto.
  - unfold mod_is_zero, float_rem. destruct q as [s|s| |s m e].
    + rewrite SFltb_zero_one in E. discriminate.
    + destruct (it =? 0); [|destruct s]; cbn; eauto.
    + cbn. eauto.
    + destruct (if (0 <=? e)%Z then _ else _) as [num ex].
      destruct (num =? 0)%Z; [|destruct s]; cbn; eauto.
Qed.

Lemma iterations_per_epoch_ok (num_train : nat) (batch_size : Z) :
  batch_size <> 0%Z ->
  exists epoch, iterations_per_epoch num_train batch_size = Ok epoch /\
                forall it, exists b, mod_is_zero it epoch = Ok b.
Proof.
  intros Hb. unfold iterations_per_epoch, true_div.
  destruct (Z.eqb_spec batch_size 0); [contradiction|]. cbn.
  eexists. split; [reflexivity|]. intros it. apply py_max_1_mod_ok.
Qed.

(** With floor division at line 188 the epoch length would be the
    specification's, and so would the test. *)
Lemma floor_epoch_length (num_train batch_size : nat) :
  0 < batch_size ->
  floor_epoch num_train (Z.of_nat batch_size)
  = PyInt (Z.of_nat (epoch_length num_train batch_size)).
Proof.
  intros Hb. unfold floor_epoch, epoch_length. rewrite <- Nat2Z.inj_div. f_equal. lia.
Qed.

Lemma mod_is_zero_int (E it : nat) :
  0 < E -> mod_is_zero it (PyInt (Z.of_nat E)) = Ok (it mod E =? 0).
Proof.
  intros HE. unfold mod_is_zero.
  destruct (Z.eqb_spec (Z.of_nat E) 0); [lia|].
  rewrite <- Nat2Z.inj_mod. f_equal.
  destruct (Nat.eqb_spec (it mod E) 0) as [->|Hne]; [reflexivity|].
  apply Z.eqb_neq. lia.
Qed.

Lemma floor_epoch_agrees (num_train batch_size it : nat) :
  0 < batch_size ->
  mod_is_zero it (floor_epoch num_train (Z.of_nat batch_size))
  = Ok (boundary_spec num_train batch_size it).
Proof.
  intros Hb. rewrite floor_epoch_length by exact Hb.
  apply mod_is_zero_int. unfold epoch_length. lia.
Qed.

Lemma decays_step (epoch : pynum) (k : nat) (b : bool) :
  mod_is_zero k epoch = Ok b ->
  decays epoch (S k) = decays epoch k + (if b then 1 else 0).
Proof. intros E. cbn. rewrite E. destruct b; reflexivity. Qed.

(** With an integer epoch length [E] the boundaries among the iterations
    [0 .. n-1] are the multiples of [E]: there are ceil(n / E) of them. *)
Lemma decays_int (E n : nat) :
  0 < E -> decays (PyInt (Z.of_nat E)) n = (n + E - 1) / E.
Proof.
  intros HE. induction n as [|n IH].
  - cbn [decays]. symmetry. apply Nat.div_small. lia.
  - cbn [decays]. rewrite IH, (mod_is_zero_int E n HE).
    pose proof (Nat.div_mod_eq n E) as Hn.
    pose proof (Nat.mod_upper_bound n E) as Hr.
    destruct (Nat.eqb_spec (n mod E) 0) as [H0|H0].
    + rewrite <- (Nat.div_unique (n + E - 1) E (n / E) (E - 1)) by lia.
      rewrite <- (Nat.div_unique (S n + E - 1) E (S (n / E)) 0) by lia.
      lia.
    + rewrite <- (Nat.div_unique (n + E - 1) E (S (n / E)) (n mod E - 1)) by lia.
      rewrite <- (Nat.div_unique (S n + E - 1) E (S (n / E)) (n mod E)) by lia.
      lia.
Qed.

(** So after [k] whole epochs of [E] iterations the rate would have been
    decayed [k] times. *)
Lemma decays_whole_epochs (E k : nat) :
  0 < E -> decays (PyInt (Z.of_nat E)) (k * E) = k.
Proof.
  intros HE. rewrite decays_int by exact HE.
  symmetry. apply (Nat.div_unique (k * E + E - 1) E k (E - 1)); nia.
Qed.

(** ** numpy operations on well-shaped operands, in any arithmetic *)

Section AnyArithmetic.
Context {F : Type} {SF : Scalar F}.

Lemma sum_n_ext (n : nat) (f g : nat -> F) :
  (forall k, k < n -> f k = g k) -> sum_n n f = sum_n n g.
Proof.
  induction n as [|n IH]; intros Hfg; simpl; [reflexivity|].
  rewrite IH by (intros; apply Hfg; lia). rewrite Hfg by lia. reflexivity.
Qed.

Lemma matmul_ok (A B : mat F) :
  mcols A = mrows B ->
  matmul A B = Ok (mkmat (mrows A) (mcols B)
    (fun i j => sum_n (mcols A) (fun k => smul (at2 A i k) (at2 B k j)))).
Proof. intros E. unfold matmul. rewrite E, Nat.eqb_refl. reflexivity. Qed.

Lemma matmul_raise (A B : mat F) :
  mcols A <> mrows B -> matmul A B = Raise ValueError.
Proof.
  intros E. unfold matmul.
  destruct (Nat.eqb_spec (mcols A) (mrows B)); [contradiction | reflexivity].
Qed.

Lemma add_row_ok (A : mat F) (b : vec F) :
  mcols A = vlen b ->
  add_row A b = Ok (mkmat (mrows A) (mcols A)
    (fun i j => sadd (at2 A i (pick (mcols A) j)) (at1 b (pick (vlen b) j)))).
Proof. intros E. unfold add_row. rewrite <- E, bcast_dim_same. reflexivity. Qed.

Lemma inplace2_ok (op : F -> F -> F) (A B : mat F) :
  mrows B = mrows A -> mcols B = mcols A ->
  inplace2 op A B = Ok (mkmat (mrows A) (mcols A)
    (fun i j => op (at2 A i j) (at2 B (pick (mrows B) i) (pick (mcols B) j)))).
Proof.
  intros Er Ec. unfold inplace2, fits. rewrite Er, Ec, !Nat.eqb_refl. reflexivity.
Qed.

Lemma inplace1_ok (op : F -> F -> F) (u v : vec F) :
  vlen v = vlen u ->
  inplace1 op u v = Ok (mkvec (vlen u)
    (fun i => op (at1 u i) (at1 v (pick (vlen v) i)))).
Proof.
  intros E. unfold inplace1, fits. rewrite E, Nat.eqb_refl. reflexivity.
Qed.

(** An in-place update never changes the shape of its target. *)
Lemma inplace2_shape (op : F -> F -> F) (A B M : mat F) :
  inplace2 op A B = Ok M -> mrows M = mrows A /\ mcols M = mcols A.
Proof.
  unfold inplace2. destruct (_ && _); intros E; [|discriminate].
  injection E as <-. split; reflexivity.
Qed.

Lemma inplace1_shape (op : F -> F -> F) (u v w : vec F) :
  inplace1 op u v = Ok w -> vlen w = vlen u.
Proof.
  unfold inplace1. destruct (fits _ _); intros E; [|discriminate].
  injection E as <-. reflexivity.
Qed.

Lemma zero_where_nonpos_ok (A mask : mat F) :
  mrows mask = mrows A -> mcols mask = mcols A ->
  zero_where_nonpos A mask = Ok (mkmat (mrows A) (mcols A)
    (fun i j => if sleb (at2 mask i j) szero then szero else at2 A i j)).
Proof.
  intros Er Ec. unfold zero_where_nonpos. rewrite Er, Ec, !Nat.eqb_refl. reflexivity.
Qed.

Lemma argmax_from_lt (row : nat -> F) (n best j : nat) :
  best < j -> argmax_from row best j n < j + n.
Proof.
  revert best j. induction n as [|n IH]; intros best j Hb; cbn.
  - lia.
  - replace (j + S n) with (S j + n) by lia. apply IH.
    destruct (better _ _); lia.
Qed.

Lemma argmax_from_ext (row row' : nat -> F) (C n best j : nat) :
  (forall c, c < C -> row c = row' c) ->
  best < j -> j + n <= C ->
  argmax_from row best j n = argmax_from row' best j n.
Proof.
  intros Hrow. revert best j. induction n as [|n IH]; intros best j Hb Hle; cbn.
  - reflexivity.
  - rewrite <- !Hrow by lia.
    apply IH; [destruct (better _ _); lia | lia].
Qed.

Lemma accuracy_ok (p : vec nat) (y : vec Z) :
  vlen p = vlen y -> exists a : F, accuracy p y = Ok a.
Proof. intros E. unfold accuracy. rewrite E, bcast_dim_same. eauto. Qed.

(** ** Shapes of a network *)

Lemma same_shape_net (p q : param_dict F) (D H C : nat) :
  same_shape p q -> net_shape p D H C -> net_shape q D H C.
Proof.
  unfold same_shape, net_shape.
  intros (A1 & A2 & A3 & A4 & A5 & A6) (B1 & B2 & B3 & B4 & B5 & B6).
  repeat split; congruence.
Qed.

Lemma same_shape_refl (p : param_dict F) : same_shape p p.
Proof. unfold same_shape. repeat split; reflexivity. Qed.

Lemma same_shape_trans (p q r : param_dict F) :
  same_shape p q -> same_shape q r -> same_shape p r.
Proof.
  unfold same_shape.
  intros (A1 & A2 & A3 & A4 & A5 & A6) (B1 & B2 & B3 & B4 & B5 & B6).
  repeat split; congruence.
Qed.

Lemma params_eq_shape (p p' : param_dict F) (D H C : nat) :
  params_eq p p' -> net_shape p D H C -> net_shape p' D H C.
Proof.
  intros ((A1 & A2 & _) & (B1 & _) & (C1 & C2 & _) & (D1 & _))
         (N1 & N2 & N3 & N4 & N5 & N6).
  unfold net_shape. repeat split; congruence.
Qed.

(** The constructor builds a network of the shapes it is given. *)
Lemma init_shape (D H C : nat) (std : F) (randn1 randn2 : nat -> nat -> F) :
  net_shape (init D H C std randn1 randn2) D H C.
Proof. unfold net_shape. cbn. repeat split; reflexivity. Qed.

(** ** The forward pass *)

Lemma forward_run (p : param_dict F) (X : mat F) (D H C : nat) :
  net_shape p D H C -> mcols X = D ->
  exists a1 scores,
    forward p X = Ok (a1, scores) /\
    mrows a1 = mrows X /\ mcols a1 = H /\
    mrows scores = mrows X /\ mcols scores = C /\
    (forall i h, h < H -> at2 a1 i h = hidden p X i h) /\
    (forall i c, c < C -> at2 scores i c = score p X i c).
Proof.
  intros (HW1r & HW1c & Hb1 & HW2r & HW2c & Hb2) HX.
  unfold forward.
  rewrite matmul_ok by congruence. cbn [bind].
  rewrite add_row_ok by (cbn; congruence). cbn [bind].
  rewrite matmul_ok by (cbn; congruence). cbn [bind].
  rewrite add_row_ok by (cbn; congruence). cbn [bind].
  eexists. eexists. split; [reflexivity|].
  cbn. repeat split; try congruence.
  - intros i h Hh. unfold hidden. rewrite !pick_lt by lia. reflexivity.
  - intros i c Hc. unfold score. rewrite !pick_lt by lia.
    rewrite HW1c, HW2r. f_equal. apply sum_n_ext. intros h Hh. f_equal.
    unfold hidden. rewrite !pick_lt by lia. reflexivity.
Qed.

Lemma probability_entry (p : param_dict F) (X scores : mat F) (C : nat) (i c : nat) :
  mcols scores = C -> mcols (W2 p) = C ->
  (forall i c, c < C -> at2 scores i c = score p X i c) ->
  c < C ->
  at2 (normalize_rows (np_exp scores)) i c = probability p X i c.
Proof.
  intros Hc HW Hs Hlt. unfold probability. cbn. rewrite Hc, HW.
  rewrite Hs by assumption. f_equal. apply sum_n_ext.
  intros k Hk. now rewrite Hs.
Qed.

Lemma dScores_class (p : param_dict F) (X : mat F) (cls cls' : nat -> nat) (i c : nat) :
  cls i = cls' i -> dScores p X cls i c = dScores p X cls' i c.
Proof. intros E. unfold dScores. now rewrite E. Qed.

Lemma dA1_class (p : param_dict F) (X : mat F) (cls cls' : nat -> nat) (i h : nat) :
  cls i = cls' i -> dA1 p X cls i h = dA1 p X cls' i h.
Proof.
  intros E. unfold dA1. destruct (sleb _ _); [reflexivity|].
  apply sum_n_ext. intros c _. now rewrite (dScores_class p X cls cls' i c E).
Qed.

(** ** The softmax stage and [loss] *)

(** Lines 98-100 and 140-141 on labels that numpy accepts as indices. *)
Lemma softmax_stage_run (h0 : heap) (scores : mat F) (y : vec Z) (N C : nat) :
  mrows scores = N -> mcols scores = C -> 0 < N ->
  vlen y = N -> labels_indexable y C ->
  let P := normalize_rows (np_exp scores) in
  exists fr,
    softmax_stage h0 scores y = Ok fr /\
    softmax fr = dscores fr /\
    mrows (load (mem fr) (dscores fr)) = N /\
    mcols (load (mem fr) (dscores fr)) = C /\
    (forall i c, i < N ->
       at2 (load (mem fr) (dscores fr)) i c
       = if c =? indexed_class C y i then ssub (at2 P i c) sone else at2 P i c) /\
    vlen (losses fr) = N /\
    (forall i, i < N ->
       at1 (losses fr) i = sneg (slog (at2 P i (indexed_class C y i)))).
Proof.
  intros Hr Hc HN Hy Hl P.
  unfold softmax_stage. cbn [alloc load cells fresh].
  rewrite !Nat.eqb_refl. rewrite Hr.
  destruct (Nat.eqb_spec N 0) as [->|_]; [lia|].
  cbn [normalize_rows np_exp map2 mcols mrows].
  rewrite Hc, (fancy_index_ok _ _ _ Hy Hl). cbn [bind].
  eexists. split; [reflexivity|].
  cbn [softmax dscores mem losses load store cells view_all vlen at1 fst snd].
  rewrite !Nat.eqb_refl. cbn [isub_at mrows mcols at2].
  repeat split; try assumption.
  - intros i c Hi. rewrite hit_class by assumption.
    subst P. cbn. rewrite Hc. reflexivity.
  - intros i Hi. rewrite !pick_lt by lia. subst P. cbn. rewrite Hc. reflexivity.
Qed.

(** What [loss] returns on a well-formed batch whose labels numpy accepts
    as indices: the value and the four gradients, entry by entry, with the
    operations in the order in which the code performs them. *)
Lemma loss_run (p : param_dict F) (X : mat F) (y : vec Z) (reg : F) (N D H C : nat) :
  net_shape p D H C -> batch_shape X y N D -> 0 < N -> labels_indexable y C ->
  let cls := indexed_class C y in
  let n := of_int (Z.of_nat N) in
  exists l g,
    loss p X (Some y) reg = Ok (LossGrads l g) /\
    l = sadd (data_loss p X cls)
             (sdiv (smul reg (sadd (sum_squares (W1 p)) (sum_squares (W2 p))))
                   (of_int 2)) /\
    net_shape g D H C /\
    (forall d h, d < D -> h < H ->
       at2 (W1 g) d h
       = sadd (sdiv (sum_n N (fun i => smul (at2 X i d) (dA1 p X cls i h))) n)
              (smul reg (at2 (W1 p) d h))) /\
    (forall h, h < H ->
       at1 (b1 g) h = sdiv (sum_n N (fun i => smul sone (dA1 p X cls i h))) n) /\
    (forall h c, h < H -> c < C ->
       at2 (W2 g) h c
       = sadd (sdiv (sum_n N (fun i => smul (hidden p X i h) (dScores p X cls i c))) n)
              (smul reg (at2 (W2 p) h c))) /\
    (forall c, c < C ->
       at1 (b2 g) c = sdiv (sum_n N (fun i => smul sone (dScores p X cls i c))) n).
Proof.
  intros Hnet (HXr & HXc & Hy) HN Hl cls n.
  destruct (forward_run p X D H C Hnet HXc)
    as (a1 & scores & Hfw & Ha1r & Ha1c & Hsr & Hsc & Ha1 & Hs).
  destruct Hnet as (HW1r & HW1c & Hb1 & HW2r & HW2c & Hb2).
  assert (Hsr' : mrows scores = N) by congruence.
  destruct (softmax_stage_run empty_heap scores y N C Hsr' Hsc HN Hy Hl)
    as (fr & Hst & _ & Hdr & Hdc & Hd & Hlen & Hlos).
  unfold loss. rewrite Hfw. cbn [bind fst snd]. rewrite Hst. cbn [bind].
  set (ds := load (mem fr) (dscores fr)) in *.
  rewrite (matmul_ok (transpose a1) ds) by (cbn; congruence). cbn [bind].
  rewrite (matmul_ok (ones_row (mrows X)) ds) by (cbn; congruence). cbn [bind].
  rewrite (matmul_ok ds (transpose (W2 p))) by (cbn; congruence). cbn [bind].
  rewrite zero_where_nonpos_ok by (cbn; congruence). cbn [bind].
  rewrite matmul_ok by (cbn; congruence). cbn [bind].
  rewrite matmul_ok by (cbn; congruence). cbn [bind].
  rewrite inplace2_ok by (cbn; congruence). cbn [bind].
  rewrite inplace2_ok by (cbn; congruence). cbn [bind].
  eexists. eexists. split; [reflexivity|].
  assert (Hds : forall i c, i < N -> c < C -> at2 ds i c = dScores p X cls i c).
  { intros i c Hi Hc. rewrite Hd by assumption. unfold dScores. fold cls.
    now rewrite (probability_entry p X scores C i c Hsc HW2c Hs Hc). }
  assert (Hda : forall i h, i < N -> h < H ->
            (if sleb (at2 a1 i h) szero then szero
             else sum_n (mcols ds) (fun k => smul (at2 ds i k) (at2 (W2 p) h k)))
            = dA1 p X cls i h).
  { intros i h Hi Hh. unfold dA1. rewrite Ha1 by assumption.
    destruct (sleb _ _); [reflexivity|].
    rewrite Hdc, HW2c. apply sum_n_ext. intros k Hk. now rewrite Hds. }
  split; [|split; [|repeat split]].
  - unfold data_loss, np_sum1. rewrite Hlen, HXr. f_equal. f_equal.
    apply sum_n_ext. intros i Hi. rewrite Hlos by assumption.
    fold cls. f_equal. f_equal. apply probability_entry with (C := C); auto.
    apply wrap_lt, in_bounds_iff, Hl. lia.
  - unfold net_shape; cbn; repeat split; lia.
  - intros d h Hd' Hh. cbn. rewrite !pick_lt by lia. rewrite HXr. fold n.
    f_equal. f_equal. apply sum_n_ext. intros i Hi. f_equal. now apply Hda.
  - intros h Hh. cbn. rewrite HW2r, HXr. fold n.
    rewrite Nat.mod_small by lia.
    f_equal. apply sum_n_ext. intros i Hi. f_equal. now apply Hda.
  - intros h c Hh Hc. cbn. rewrite !pick_lt by lia. rewrite Ha1r, HXr. fold n.
    f_equal. f_equal. apply sum_n_ext. intros i Hi. rewrite Ha1, Hds by assumption.
    reflexivity.
  - intros c Hc. cbn. rewrite Hdc, HXr. fold n.
    rewrite Nat.mod_small by lia.
    f_equal. apply sum_n_ext. intros i Hi. now rewrite Hds.
Qed.

Lemma loss_none (p : param_dict F) (X : mat F) (reg : F) (r : loss_result F) :
  loss p X None reg = Ok r -> exists a1 s, forward p X = Ok (a1, s) /\ r = Scores s.
Proof.
  unfold loss. intros E. bind_as E fw Efw. destruct fw as [a1 s]. cbn in E.
  injection E as <-. eauto.
Qed.

Lemma loss_some (p : param_dict F) (X : mat F) (y : vec Z) (reg : F) (r : loss_result F) :
  loss p X (Some y) reg = Ok r -> exists l g, r = LossGrads l g.
Proof.
  unfold loss. intros E.
  bind_as E fw Efw. bind_as E fr Efr. bind_as E m2 Em2. bind_as E s2 Es2.
  bind_as E da Eda. bind_as E da' Eda'. bind_as E m1 Em1. bind_as E s1 Es1.
  bind_as E dW1 EdW1. bind_as E dW2 EdW2.
  injection E as <-. eauto.
Qed.

Lemma data_loss_true_class (p : param_dict F) (X : mat F) (y : vec Z) (N C : nat) :
  mrows X = N -> vlen y = N -> labels_in y C ->
  data_loss p X (indexed_class C y) = data_loss p X (true_class y).
Proof.
  intros HXr Hyl Hy. unfold data_loss. f_equal. apply sum_n_ext. intros i Hi.
  rewrite indexed_class_true_class by (try exact Hy; lia). reflexivity.
Qed.

(** [loss] on a batch with labels in [0, C): the value and the gradients,
    entry by entry, in terms of the true classes. *)
Lemma loss_as_computed (p : param_dict F) (X : mat F) (y : vec Z) (reg : F) (N D H C : nat) :
  net_shape p D H C -> batch_shape X y N D -> 0 < N -> labels_in y C ->
  exists l g,
    loss p X (Some y) reg = Ok (LossGrads l g) /\
    l = sadd (data_loss p X (true_class y))
             (sdiv (smul reg (sadd (sum_squares (W1 p)) (sum_squares (W2 p))))
                   (of_int 2)) /\
    backprop_equations_as_computed p X y reg g.
Proof.
  intros Hnet HX HN Hy.
  assert (Hcls : forall i, i < N -> indexed_class C y i = true_class y i).
  { intros i Hi. apply indexed_class_true_class; [exact Hy|].
    destruct HX as (_ & _ & ->). exact Hi. }
  destruct (loss_run p X y reg N D H C Hnet HX HN (labels_in_indexable y C Hy))
    as (l & g & Hloss & Hl & Hg & HW1 & Hb1 & HW2 & Hb2).
  exists l, g. split; [exact Hloss|].
  destruct Hnet as (HW1r & HW1c & Hb1l & HW2r & HW2c & Hb2l).
  destruct Hg as (GW1r & GW1c & Gb1l & GW2r & GW2c & Gb2l).
  destruct HX as (HXr & HXc & Hyl).
  split.
  - rewrite Hl, (data_loss_true_class p X y N C HXr Hyl Hy). reflexivity.
  - unfold backprop_equations_as_computed, mat_eq, vec_eq.
    cbn [mrows mcols vlen at2 at1]. rewrite HXr.
    repeat split; try congruence.
    + intros h c Hh Hc. rewrite HW2 by congruence.
      f_equal. f_equal. apply sum_n_ext. intros i Hi.
      f_equal. apply dScores_class. now apply Hcls.
    + intros c Hc. rewrite Hb2 by congruence.
      f_equal. apply sum_n_ext. intros i Hi.
      f_equal. apply dScores_class. now apply Hcls.
    + intros d h Hd Hh. rewrite HW1 by congruence.
      f_equal. f_equal. apply sum_n_ext. intros i Hi.
      f_equal. apply dA1_class. now apply Hcls.
    + intros h Hh. rewrite Hb1 by congruence.
      f_equal. apply sum_n_ext. intros i Hi.
      f_equal. apply dA1_class. now apply Hcls.
Qed.


(** C5.  [loss] validates nothing itself.  A feature
    dimension that differs from W1's makes the first matrix product raise
    numpy's ValueError.  On a well-shaped batch a label at or above C, or
    below -C, raises IndexError at the softmax lookup, after the forward
    pass has succeeded.  Labels from -C to C-1, the negative ones included,
    are accepted and the call returns a loss and gradients; the loss is the
    one of the classes that the labels index, a negative label [y] standing
    for class [y + C]. *)
Theorem loss_shape_errors
  (p : param_dict F) (X : mat F) (y : vec Z) (reg : F) (N D H C : nat) :
  net_shape p D H C ->
  (mcols X <> D -> forall y', loss p X y' reg = Raise ValueError) /\
  (batch_shape X y N D -> 0 < N ->
   (exists i, i < N /\ ~ (- Z.of_nat C <= at1 y i < Z.of_nat C)%Z) ->
   loss p X (Some y) reg = Raise IndexError /\
   exists s, loss p X None reg = Ok (Scores s)) /\
  (batch_shape X y N D -> 0 < N -> labels_indexable y C ->
   exists l g,
     loss p X (Some y) reg = Ok (LossGrads l g) /\
     l = sadd (data_loss p X (fun i => wrap C (at1 y i)))
              (sdiv (smul reg (sadd (sum_squares (W1 p)) (sum_squares (W2 p))))
                    (of_int 2))).
Proof.
  intros Hnet. split; [|split].
  - intros HX y'. destruct Hnet as (HW1r & _).
    unfold loss, forward. rewrite matmul_raise by congruence. reflexivity.
  - intros (HXr & HXc & Hyl) HN (i & Hi & Hbad).
    destruct (forward_run p X D H C Hnet HXc) as (a1 & s & Hfw & _ & _ & Hsr & Hsc & _).
    split.
    + unfold loss. rewrite Hfw. cbn [bind fst snd].
      unfold softmax_stage. cbn [alloc load cells fresh].
      rewrite !Nat.eqb_refl.
      destruct (Nat.eqb_spec (mrows s) 0) as [E|_]; [lia|].
      unfold fancy_index. rewrite Hyl, Hsr, HXr, bcast_dim_same.
      rewrite (forallb_seq_false _ N i Hi); [reflexivity|].
      rewrite pick_lt by exact Hi. cbn [normalize_rows np_exp map2 mcols].
      rewrite Hsc. destruct (in_bounds C (at1 y i)) eqn:E; [|reflexivity].
      apply in_bounds_iff in E. contradiction.
    + exists s. unfold loss. rewrite Hfw. reflexivity.
  - intros HX HN Hy.
    destruct (loss_run p X y reg N D H C Hnet HX HN Hy) as (l & g & E & V & _).
    exists l, g. split; [exact E | exact V].
Qed.

(** ** [predict] *)

Lemma argmax_rows_ok (A : mat F) :
  0 < mcols A ->
  argmax_rows A
  = Ok (mkvec (mrows A) (fun i => argmax_from (at2 A i) 0 1 (mcols A - 1))).
Proof.
  intros Hc. unfold argmax_rows.
  destruct (Nat.eqb_spec (mcols A) 0) as [E|_]; [lia | reflexivity].
Qed.

Lemma predict_forward (p : param_dict F) (X : mat F) :
  predict p X = (fw <- forward p X ;; argmax_rows (snd fw)).
Proof.
  unfold predict, forward.
  destruct (matmul X (W1 p)) as [xw|]; cbn; [|reflexivity].
  destruct (add_row xw (b1 p)) as [z|]; cbn; [|reflexivity].
  destruct (matmul (relu z) (W2 p)) as [aw|]; cbn; [|reflexivity].
  destruct (add_row aw (b2 p)) as [s|]; cbn; reflexivity.
Qed.

(** The labels that [predict] returns, row by row. *)
Lemma predict_value (p : param_dict F) (X : mat F) (D H C : nat) :
  net_shape p D H C -> mcols X = D -> 0 < C ->
  exists y_pred,
    predict p X = Ok y_pred /\ vlen y_pred = mrows X /\
    forall i, at1 y_pred i = argmax_from (score p X i) 0 1 (C - 1).
Proof.
  intros Hnet HXc HC.
  destruct (forward_run p X D H C Hnet HXc)
    as (a1 & s & Hfw & _ & _ & Hsr & Hsc & _ & Hs).
  rewrite predict_forward, Hfw. cbn [bind snd].
  rewrite argmax_rows_ok by lia.
  eexists. split; [reflexivity|]. cbn. split; [exact Hsr|].
  intros i. rewrite Hsc. apply argmax_from_ext with (C := C); [|lia|lia].
  intros c Hc. now apply Hs.
Qed.

Section Extensional.
Variables (p p' : param_dict F) (X X' : mat F) (D H C : nat).
Hypothesis Hnet : net_shape p D H C.
Hypothesis Hp : params_eq p p'.
Hypothesis HXc : mcols X = D.
Hypothesis HX : mat_eq X X'.

Lemma hidden_ext (i h : nat) :
  i < mrows X -> h < H -> hidden p X i h = hidden p' X' i h.
Proof.
  intros Hi Hh. unfold hidden.
  destruct Hnet as (N1 & N2 & N3 & N4 & N5 & N6).
  destruct Hp as ((A1 & A2 & A3) & (B1 & B2) & _).
  destruct HX as (X1 & X2 & X3).
  rewrite <- X2. f_equal. f_equal.
  - apply sum_n_ext. intros d Hd. rewrite X3, A3 by lia. reflexivity.
  - apply B2. lia.
Qed.

Lemma score_ext (i c : nat) :
  i < mrows X -> c < C -> score p X i c = score p' X' i c.
Proof.
  intros Hi Hc. unfold score.
  destruct Hnet as (N1 & N2 & N3 & N4 & N5 & N6).
  destruct Hp as (_ & _ & (A1 & A2 & A3) & (B1 & B2)).
  rewrite <- A1. f_equal.
  - apply sum_n_ext. intros h Hh. rewrite hidden_ext, A3 by lia. reflexivity.
  - apply B2. lia.
Qed.

End Extensional.

(** C8.  On an input of N rows that fits the parameters, [predict] returns
    N labels, each of them below C, the number of columns of W2; and the
    labels are determined by the entries of X and of the parameters: equal
    inputs give equal predictions. *)
Theorem predict_labels_in_range
  (p : param_dict F) (X : mat F) (N D H C : nat) :
  net_shape p D H C -> mrows X = N -> mcols X = D -> 0 < C ->
  exists y_pred,
    predict p X = Ok y_pred /\
    vlen y_pred = N /\
    (forall i, i < N -> at1 y_pred i < C) /\
    (forall p' X', params_eq p p' -> mat_eq X X' ->
       exists y_pred', predict p' X' = Ok y_pred' /\ vec_eq y_pred y_pred').
Proof.
  intros Hnet HXr HXc HC.
  destruct (predict_value p X D H C Hnet HXc HC) as (v & Hv & Hlen & Hval).
  exists v. split; [exact Hv|]. split; [congruence|]. split.
  - intros i _. rewrite Hval.
    pose proof (argmax_from_lt (score p X i) (C - 1) 0 1). lia.
  - intros p' X' Hp HX.
    assert (Hnet' : net_shape p' D H C) by (eapply params_eq_shape; eauto).
    assert (HXc' : mcols X' = D) by (destruct HX as (_ & E & _); congruence).
    destruct (predict_value p' X' D H C Hnet' HXc' HC) as (v' & Hv' & Hlen' & Hval').
    exists v'. split; [exact Hv'|]. split.
    + destruct HX as (E & _). congruence.
    + intros i Hi. rewrite Hval, Hval'.
      apply argmax_from_ext with (C := C); [|lia|lia].
      intros c Hc. apply (score_ext p p' X X' D H C); auto. congruence.
Qed.

(** ** The training loop *)

Section Loop.
Variables (X : mat F) (y : vec Z) (X_val : mat F) (y_val : vec Z).
Variables (learning_rate_decay reg : F).
Variables (num_iters : nat) (batch_size : Z) (verbose : bool).
Variable rng : nat -> nat -> nat.

(** What one turn of the loop does to the state, whatever the data: the
    shapes stay, one loss is recorded, and exactly when the epoch test
    succeeds the rate is multiplied by the decay and one accuracy is added
    to each history. *)
Lemma train_step_effect (epoch : pynum) (it : nat) (s s' : train_state) :
  train_step X y X_val y_val learning_rate_decay reg num_iters batch_size verbose rng
             epoch it s = Ok s' ->
  same_shape (params s) (params s') /\
  length (loss_history s') = S (length (loss_history s)) /\
  exists boundary,
    mod_is_zero it epoch = Ok boundary /\
    learning_rate s'
    = (if boundary then smul (learning_rate s) learning_rate_decay
       else learning_rate s) /\
    length (train_acc_history s')
    = length (train_acc_history s) + (if boundary then 1 else 0) /\
    length (val_acc_history s')
    = length (val_acc_history s) + (if boundary then 1 else 0).
Proof.
  unfold train_step. intros E.
  bind_as E idx Eidx. bind_as E X_batch EX. bind_as E y_batch Ey. bind_as E r Er.
  destruct r as [sc | l grads]; [discriminate|].
  bind_as E w1 Ew1. bind_as E w2 Ew2. bind_as E c1 Ec1. bind_as E c2 Ec2.
  bind_as E boundary Eb.
  apply inplace2_shape in Ew1, Ew2. apply inplace1_shape in Ec1, Ec2.
  assert (Hsh : same_shape (params s) (mkparams w1 c1 w2 c2)).
  { unfold same_shape. cbn. intuition congruence. }
  destruct boundary.
  - bind_as E pb Epb. bind_as E ta Eta. bind_as E pv Epv. bind_as E va Eva.
    injection E as <-. cbn.
    split; [exact Hsh|]. split; [rewrite length_app; cbn; lia|].
    exists true. rewrite !length_app. cbn. auto.
  - injection E as <-. cbn.
    split; [exact Hsh|]. split; [rewrite length_app; cbn; lia|].
    exists false. cbn. auto.
Qed.

(** The state after [n] turns. *)
Lemma train_iters_effect (epoch : pynum) (n : nat) (s0 s : train_state) :
  train_iters X y X_val y_val learning_rate_decay reg num_iters batch_size verbose rng
              epoch n s0 = Ok s ->
  same_shape (params s0) (params s) /\
  length (loss_history s) = length (loss_history s0) + n /\
  learning_rate s = decayed (learning_rate s0) learning_rate_decay (decays epoch n) /\
  length (train_acc_history s) = length (train_acc_history s0) + decays epoch n /\
  length (val_acc_history s) = length (val_acc_history s0) + decays epoch n.
Proof.
  revert s. induction n as [|n IH]; intros s E.
  - cbn in E. injection E as <-. cbn.
    split; [apply same_shape_refl|]. repeat split; lia.
  - cbn [train_iters] in E. bind_as E s1 E1.
    destruct (IH s1 E1) as (Hsh & Hl & Hr & Ht & Hv).
    apply train_step_effect in E.
    destruct E as (Hsh' & Hl' & b & Hb & Hr' & Ht' & Hv').
    rewrite (decays_step epoch n b Hb).
    split; [eapply same_shape_trans; eauto|].
    split; [lia|]. split; [|lia].
    rewrite Hr', Hr. destruct b; cbn.
    + rewrite Nat.add_1_r. reflexivity.
    + rewrite Nat.add_0_r. reflexivity.
Qed.

(** Run with an integer epoch length [E], as floor division would give,
    the loop has decayed the rate [k] times after [k] whole epochs. *)
Lemma train_iters_whole_epochs (E k : nat) (s0 s : train_state) :
  0 < E ->
  train_iters X y X_val y_val learning_rate_decay reg num_iters batch_size verbose rng
              (PyInt (Z.of_nat E)) (k * E) s0 = Ok s ->
  learning_rate s = decayed (learning_rate s0) learning_rate_decay k.
Proof.
  intros HE Hs. apply train_iters_effect in Hs.
  destruct Hs as (_ & _ & Hr & _). rewrite Hr, decays_whole_epochs by exact HE.
  reflexivity.
Qed.

Variables (Nt Nv D H C : nat).
Hypothesis HC : 0 < C.
Hypothesis HX : batch_shape X y Nt D.
Hypothesis HNt : 0 < Nt.
Hypothesis Hy : labels_in y C.
Hypothesis Hb : (0 < batch_size)%Z.
Hypothesis Hval : batch_shape X_val y_val Nv D.

(** On well-formed data a turn of the loop never raises. *)
Lemma train_step_ok (epoch : pynum) (it : nat) (s : train_state) :
  (exists b, mod_is_zero it epoch = Ok b) ->
  net_shape (params s) D H C ->
  exists s',
    train_step X y X_val y_val learning_rate_decay reg num_iters batch_size verbose rng
               epoch it s = Ok s'.
Proof.
  intros (bd & Hbd) Hnet.
  destruct HX as (HXr & HXc & Hyl). destruct Hval as (HVr & HVc & HVl).
  unfold train_step. rewrite HXr.
  destruct (random_choice_ok rng it Nt batch_size HNt Hb) as (idx & -> & Hlen & Hidx).
  cbn [bind].
  rewrite take_rows_ok by (intros k _; rewrite HXr; apply Hidx). cbn [bind].
  rewrite take_ok by (intros k; rewrite Hyl; apply Hidx). cbn [bind].
  set (y_batch := mkvec (vlen idx) (fun k => at1 y (at1 idx k))).
  assert (HB : 0 < vlen idx) by lia.
  assert (Hbs : batch_shape (selected_rows X idx) y_batch (vlen idx) D).
  { unfold batch_shape. cbn. auto. }
  assert (Hyb : labels_indexable y_batch C).
  { apply labels_in_indexable. intros k Hk. cbn. apply Hy. rewrite Hyl. apply Hidx. }
  destruct (loss_run (params s) (selected_rows X idx) y_batch reg (vlen idx) D H C
              Hnet Hbs HB Hyb)
    as (l & g & -> & _ & Hg & _).
  cbn [bind].
  destruct Hnet as (N1 & N2 & N3 & N4 & N5 & N6).
  destruct Hg as (G1 & G2 & G3 & G4 & G5 & G6).
  rewrite !inplace2_ok by (cbn; congruence). cbn [bind].
  rewrite !inplace1_ok by (cbn; congruence). cbn [bind].
  rewrite Hbd. cbn [bind].
  destruct bd; [|eauto].
  match goal with |- context [predict ?q _] => set (p' := q) end.
  assert (Hnet' : net_shape p' D H C).
  { unfold net_shape. subst p'. cbn. auto 10. }
  destruct (predict_value p' (selected_rows X idx) D H C Hnet') as (pb & -> & Hpb & _);
    [cbn; exact HXc | exact HC |]. cbn [bind].
  destruct (accuracy_ok pb y_batch) as (ta & ->); [cbn; exact Hpb|]. cbn [bind].
  destruct (predict_value p' X_val D H C Hnet' HVc HC) as (pv & -> & Hpv & _). cbn [bind].
  destruct (accuracy_ok pv y_val) as (va & ->); [congruence|]. cbn [bind].
  eauto.
Qed.

Lemma train_iters_ok (epoch : pynum) (n : nat) (s0 : train_state) :
  (forall it, exists b, mod_is_zero it epoch = Ok b) ->
  net_shape (params s0) D H C ->
  exists s,
    train_iters X y X_val y_val learning_rate_decay reg num_iters batch_size verbose rng
                epoch n s0 = Ok s /\
    net_shape (params s) D H C.
Proof.
  intros Hep Hnet. induction n as [|n (s & Hs & Hsh)].
  - exists s0. split; [reflexivity | exact Hnet].
  - cbn [train_iters]. rewrite Hs. cbn [bind].
    destruct (train_step_ok epoch n s (Hep n) Hsh) as (s' & Hs').
    exists s'. split; [exact Hs'|].
    apply train_step_effect in Hs'. destruct Hs' as (Hsame & _).
    eapply same_shape_net; eauto.
Qed.

(** [train] on well-formed data: it returns, with one loss per iteration,
    one accuracy pair per iteration that passes the epoch test, and the
    rate decayed once for each of these. *)
Lemma train_outcome (net : param_dict F) (learning_rate0 : F) :
  net_shape net D H C ->
  exists epoch s,
    iterations_per_epoch (mrows X) batch_size = Ok epoch /\
    train X y X_val y_val learning_rate_decay reg num_iters batch_size
          verbose rng net learning_rate0 = Ok s /\
    net_shape (params s) D H C /\
    length (loss_history s) = num_iters /\
    learning_rate s = decayed learning_rate0 learning_rate_decay (decays epoch num_iters) /\
    length (train_acc_history s) = decays epoch num_iters /\
    length (val_acc_history s) = decays epoch num_iters.
Proof.
  intros Hnet.
  destruct (iterations_per_epoch_ok (mrows X) batch_size) as (epoch & Hep & Hmod); [lia|].
  destruct (train_iters_ok epoch num_iters (mkstate net learning_rate0 [] [] [] []) Hmod Hnet)
    as (s & Hs & Hsh).
  exists epoch, s. split; [exact Hep|].
  unfold train. rewrite Hep. cbn [bind]. split; [exact Hs|]. split; [exact Hsh|].
  apply train_iters_effect in Hs. cbn in Hs. tauto.
Qed.

End Loop.

(** C9.  On well-formed training data [train] runs to the end, and after
    each of its iterations W1, b1, W2 and b2 still have the shapes D x H, H,
    H x C and C of the network it started from. *)
Theorem train_keeps_shapes
  (X : mat F) (y : vec Z) (X_val : mat F) (y_val : vec Z)
  (learning_rate0 learning_rate_decay reg : F)
  (num_iters : nat) (batch_size : Z) (verbose : bool)
  (rng : nat -> nat -> nat) (net : param_dict F) (Nt Nv D H C : nat) :
  net_shape net D H C -> 0 < C ->
  batch_shape X y Nt D -> 0 < Nt -> labels_in y C -> (0 < batch_size)%Z ->
  batch_shape X_val y_val Nv D ->
  exists epoch,
    iterations_per_epoch (mrows X) batch_size = Ok epoch /\
    (forall k, k <= num_iters ->
       exists s,
         train_iters X y X_val y_val learning_rate_decay reg num_iters batch_size
                     verbose rng epoch k (mkstate net learning_rate0 [] [] [] []) = Ok s /\
         net_shape (params s) D H C /\ same_shape net (params s)) /\
    (exists s,
        train X y X_val y_val learning_rate_decay reg num_iters batch_size
              verbose rng net learning_rate0 = Ok s /\
        net_shape (params s) D H C /\ same_shape net (params s)).
Proof.
  intros Hnet HC HX HNt Hy Hb Hval.
  destruct (iterations_per_epoch_ok (mrows X) batch_size) as (epoch & Hep & Hmod); [lia|].
  exists epoch. split; [exact Hep|].
  assert (Hall : forall k, exists s,
             train_iters X y X_val y_val learning_rate_decay reg num_iters batch_size
                         verbose rng epoch k (mkstate net learning_rate0 [] [] [] []) = Ok s /\
             net_shape (params s) D H C /\ same_shape net (params s)).
  { intros k.
    destruct (train_iters_ok X y X_val y_val learning_rate_decay reg num_iters batch_size
                verbose rng Nt Nv D H C HC HX HNt Hy Hb Hval epoch k
                (mkstate net learning_rate0 [] [] [] []) Hmod Hnet) as (s & Hs & Hsh).
    exists s. split; [exact Hs|]. split; [exact Hsh|].
    apply train_iters_effect in Hs. apply Hs. }
  split.
  - intros k _. apply Hall.
  - unfold train. rewrite Hep. cbn [bind]. apply Hall.
Qed.

End AnyArithmetic.

(* ================================================================= *)
(** * Exact arithmetic *)

Section Exact.
Local Open Scope R_scope.

Lemma Rsum_ext (n : nat) (f g : nat -> R) :
  (forall k, (k < n)%nat -> f k = g k) -> Rsum n f = Rsum n g.
Proof. apply sum_n_ext. Qed.

(** [Rsum n f] is f 0 + ... + f (n-1). *)
Lemma Rsum_0 (f : nat -> R) : Rsum 0 f = 0.
Proof. reflexivity. Qed.

Lemma Rsum_S (n : nat) (f : nat -> R) : Rsum (S n) f = Rsum n f + f n.
Proof. reflexivity. Qed.

Lemma Rsum_nonneg (n : nat) (f : nat -> R) :
  (forall k, (k < n)%nat -> 0 <= f k) -> 0 <= Rsum n f.
Proof.
  induction n as [|n IH]; intros Hf.
  - unfold Rsum. simpl. unfold szero. simpl. lra.
  - rewrite Rsum_S. specialize (Hf n (Nat.lt_succ_diag_r n)) as Hn.
    assert (0 <= Rsum n f) by (apply IH; intros; apply Hf; lia). lra.
Qed.

Lemma Rsum_pos (n : nat) (f : nat -> R) (k : nat) :
  (forall j, (j < n)%nat -> 0 <= f j) -> (k < n)%nat -> 0 < f k -> 0 < Rsum n f.
Proof.
  induction n as [|n IH]; intros Hf Hk Hpos; [lia|].
  rewrite Rsum_S.
  assert (Hn : 0 <= f n) by (apply Hf; lia).
  assert (H0 : 0 <= Rsum n f) by (apply Rsum_nonneg; intros; apply Hf; lia).
  destruct (Nat.eq_dec k n) as [->|Hne]; [lra|].
  assert (0 < Rsum n f) by (apply IH; [intros; apply Hf; lia | lia | exact Hpos]).
  lra.
Qed.

Lemma sum_squares_nonneg (A : mat R) : 0 <= sum_squares A.
Proof.
  unfold sum_squares. apply (Rsum_nonneg (mrows A)). intros i _.
  apply (Rsum_nonneg (mcols A)). intros j _. simpl. nra.
Qed.

Lemma sum_squares_pos (A : mat R) (i j : nat) :
  (i < mrows A)%nat -> (j < mcols A)%nat -> at2 A i j <> 0 -> 0 < sum_squares A.
Proof.
  intros Hi Hj Hne. unfold sum_squares.
  apply (Rsum_pos (mrows A) _ i); [|exact Hi|].
  - intros i' _. apply (Rsum_nonneg (mcols A)). intros j' _. simpl. nra.
  - apply (Rsum_pos (mcols A) _ j); [|exact Hj|].
    + intros j' _. simpl. nra.
    + simpl. nra.
Qed.

Lemma nonzero_entry_R (x : R) : nonzero_entry x = true <-> x <> 0.
Proof.
  unfold nonzero_entry, szero. simpl. unfold Rltb.
  destruct (Rlt_dec x 0), (Rlt_dec 0 x); simpl; split; intros; try lra; congruence.
Qed.

(** In exact arithmetic numpy's [maximum] is the larger of the two, and the
    gate [a1 <= 0] is the order of the reals. *)
Lemma np_maximum_Rmax (x y : R) : np_maximum x y = Rmax x y.
Proof.
  unfold np_maximum. simpl. unfold Rltb, Rmax.
  destruct (Rlt_dec x y), (Rle_dec x y); lra.
Qed.

Lemma hidden_Rmax (p : param_dict R) (X : mat R) (i h : nat) :
  hidden p X i h
  = Rmax 0 (Rsum (mcols X) (fun d => at2 X i d * at2 (W1 p) d h) + at1 (b1 p) h).
Proof. unfold hidden. apply np_maximum_Rmax. Qed.

Lemma dScores_minus (p : param_dict R) (X : mat R) (cls : nat -> nat) (i c : nat) :
  dScores p X cls i c = probability p X i c - (if c =? cls i then 1 else 0).
Proof. unfold dScores. destruct (c =? cls i); simpl; lra. Qed.

Lemma dA1_gate (p : param_dict R) (X : mat R) (cls : nat -> nat) (i h : nat) :
  (hidden p X i h <= 0 -> dA1 p X cls i h = 0) /\
  (0 < hidden p X i h ->
   dA1 p X cls i h = Rsum (mcols (W2 p)) (fun c => dScores p X cls i c * at2 (W2 p) h c)).
Proof.
  unfold dA1. change (sleb (hidden p X i h) szero) with (Rleb (hidden p X i h) 0).
  unfold Rleb. destruct (Rle_dec (hidden p X i h) 0) as [Hle|Hgt].
  - split; intros; [reflexivity | lra].
  - split; intros; [lra | reflexivity].
Qed.

(** C7, in exact arithmetic.  On a batch with labels in [0, C)
    and weights W1, W2 that are not all zero, the value of [loss] over the
    real numbers is strictly increasing in the regularization strength. *)
Theorem loss_strictly_increasing_in_reg_exact
  (p : param_dict R) (X : mat R) (y : vec Z) (reg1 reg2 : R) (N D H C : nat) :
  net_shape p D H C -> batch_shape X y N D -> (0 < N)%nat -> labels_in y C ->
  weights_nonzero p -> reg1 < reg2 ->
  exists l1 g1 l2 g2,
    loss p X (Some y) reg1 = Ok (LossGrads l1 g1) /\
    loss p X (Some y) reg2 = Ok (LossGrads l2 g2) /\
    l1 < l2.
Proof.
  intros Hnet HX HN Hy Hnz Hlt.
  pose proof (labels_in_indexable y C Hy) as Hyi.
  destruct (loss_run p X y reg1 N D H C Hnet HX HN Hyi) as (l1 & g1 & E1 & V1 & _).
  destruct (loss_run p X y reg2 N D H C Hnet HX HN Hyi) as (l2 & g2 & E2 & V2 & _).
  exists l1, g1, l2, g2. split; [exact E1|]. split; [exact E2|].
  rewrite V1, V2. simpl.
  assert (0 < sum_squares (W1 p) + sum_squares (W2 p)).
  { pose proof (sum_squares_nonneg (W1 p)). pose proof (sum_squares_nonneg (W2 p)).
    destruct Hnz as [(i & j & Hi & Hj & Hne) | (i & j & Hi & Hj & Hne)];
      apply nonzero_entry_R in Hne.
    - pose proof (sum_squares_pos (W1 p) i j Hi Hj Hne). lra.
    - pose proof (sum_squares_pos (W2 p) i j Hi Hj Hne). lra. }
  nra.
Qed.

(** C10.  After lines 98-141 the names [dscores] and [softmax] hold the
    same buffer.  [losses] was read from the forward-pass probabilities;
    after the subtraction the buffer, read through [softmax], holds the
    probability less 1 in the column of each row's true class, which is not
    the forward-pass probability any more, and the probability elsewhere. *)
Theorem dscores_aliases_softmax
  (h0 : heap) (scores : mat R) (y : vec Z) (N C : nat) :
  mrows scores = N -> mcols scores = C -> (0 < N)%nat ->
  vlen y = N -> labels_in y C ->
  let forward_softmax := normalize_rows (np_exp scores) in
  exists fr,
    softmax_stage h0 scores y = Ok fr /\
    dscores fr = softmax fr /\
    (forall i, (i < N)%nat ->
       at1 (losses fr) i = - ln (at2 forward_softmax i (true_class y i))) /\
    (forall i, (i < N)%nat ->
       at2 (load (mem fr) (softmax fr)) i (true_class y i)
       = at2 forward_softmax i (true_class y i) - 1 /\
       at2 (load (mem fr) (softmax fr)) i (true_class y i)
       <> at2 forward_softmax i (true_class y i)) /\
    (forall i c, (i < N)%nat -> c <> true_class y i ->
       at2 (load (mem fr) (softmax fr)) i c = at2 forward_softmax i c).
Proof.
  intros Hr Hc HN Hyl Hy P.
  destruct (softmax_stage_run h0 scores y N C Hr Hc HN Hyl (labels_in_indexable y C Hy))
    as (fr & Hst & Halias & _ & _ & Hd & _ & Hlos).
  exists fr. split; [exact Hst|]. split; [symmetry; exact Halias|].
  assert (Hcls : forall i, (i < N)%nat -> indexed_class C y i = true_class y i).
  { intros i Hi. apply indexed_class_true_class; [exact Hy | lia]. }
  rewrite Halias. split; [|split].
  - intros i Hi. rewrite Hlos by exact Hi. rewrite Hcls by exact Hi. reflexivity.
  - intros i Hi. rewrite Hd by exact Hi. rewrite Hcls by exact Hi.
    rewrite Nat.eqb_refl. fold P. simpl. split; [reflexivity | lra].
  - intros i c Hi Hne. rewrite Hd by exact Hi. rewrite Hcls by exact Hi.
    destruct (Nat.eqb_spec c (true_class y i)); [contradiction | reflexivity].
Qed.

End Exact.

(* ================================================================= *)
(** * The gradients and the value of [loss], as computed and exactly *)



(* ================================================================= *)
(** * binary64 arithmetic: the penalty can be rounded away *)

(** The square of 2^-600 underflows to zero, so the sum of the squares of
    the weights of [tiny_net] is zero although W1 is not. *)
Lemma tiny_net_sum_squares (libm_exp libm_log : spec_float -> spec_float) :
  sadd (Scalar := binary64 libm_exp libm_log)
       (sum_squares (SF := binary64 libm_exp libm_log) (W1 tiny_net))
       (sum_squares (SF := binary64 libm_exp libm_log) (W2 tiny_net))
  = S754_zero false.
Proof. reflexivity. Qed.

(** 2^-600 is a binary64 number, and it is above zero. *)
Lemma small_weight_valid :
  valid_binary 53 1024 small_weight = true /\
  SFltb (b64_of_int 0) small_weight = true.
Proof. split; reflexivity. Qed.

Lemma tiny_net_nonzero (libm_exp libm_log : spec_float -> spec_float) :
  weights_nonzero (SF := binary64 libm_exp libm_log) tiny_net.
Proof. left. exists 0, 0. repeat split; apply Nat.lt_0_1. Qed.

(** C7, counterexample.  Whatever the library's [exp] and [log], in
    binary64 the loss of [tiny_net] on the one-row batch is the same for
    reg = 1 and reg = 2. *)
Lemma loss_not_strictly_increasing_binary64 :
  ~ exists libm_exp libm_log, strictly_increasing_in_reg (binary64 libm_exp libm_log).
Proof.
  intros (e & l & Hclaim).
  pose (SF := binary64 e l).
  assert (Hnet : net_shape tiny_net 1 1 1) by (repeat split).
  assert (HX : batch_shape tiny_X tiny_y 1 1) by (repeat split).
  assert (Hy : labels_in tiny_y 1) by (intros i _; cbn; lia).
  pose proof (labels_in_indexable tiny_y 1 Hy) as Hyi.
  destruct (loss_run (SF := SF) tiny_net tiny_X tiny_y (b64_of_int 1) 1 1 1 1
              Hnet HX Nat.lt_0_1 Hyi) as (l1 & g1 & E1 & V1 & _).
  destruct (loss_run (SF := SF) tiny_net tiny_X tiny_y (b64_of_int 2) 1 1 1 1
              Hnet HX Nat.lt_0_1 Hyi) as (l2 & g2 & E2 & V2 & _).
  assert (Hlt : SFltb l1 l2 = true).
  { apply (Hclaim tiny_net tiny_X tiny_y (b64_of_int 1) (b64_of_int 2) 1 1 1 1 l1 l2 g1 g2);
      try assumption; try exact Nat.lt_0_1.
    - apply tiny_net_nonzero.
    - reflexivity. }
  assert (Hsame : l1 = l2).
  { rewrite V1, V2. subst SF. rewrite !tiny_net_sum_squares. reflexivity. }
  rewrite Hsame, SFltb_irrefl in Hlt. discriminate.
Qed.

(* ================================================================= *)
(** * binary64 arithmetic: the penalty can overflow, the softmax too *)

(** 2^511 is a binary64 number. *)
Lemma big_weight_valid : valid_binary 53 1024 big_weight = true.
Proof. reflexivity. Qed.

Lemma y_over_labels : labels_in y_over 2.
Proof. intros i _. cbn. lia. Qed.

Lemma tiny_y_labels : labels_in tiny_y 1.
Proof. intros i _. cbn. lia. Qed.

(** The equations of C1 hold in binary64 also where the softmax overflows:
    with exp(0) = 1 and exp(1000) = +inf the probabilities of the row of
    [X_over] are 0 and NaN, and so are the entries of the gradient of b2. *)
Lemma loss_gradient_overflow_binary64 (libm_exp libm_log : spec_float -> spec_float) :
  libm_exp (b64_of_int 0) = b64_of_int 1 ->
  libm_exp (b64_of_int 1000) = S754_infinity false ->
  exists l g,
    loss (SF := binary64 libm_exp libm_log) net_over X_over (Some y_over) (b64_of_int 0)
    = Ok (LossGrads l g) /\
    at1 (b2 g) 0 = S754_zero false /\ at1 (b2 g) 1 = S754_nan.
Proof.
  intros H0 H1000.
  assert (Hnet : net_shape net_over 1 1 2) by (repeat split).
  assert (HX : batch_shape X_over y_over 1 1) by (repeat split).
  destruct (loss_as_computed (SF := binary64 libm_exp libm_log)
              net_over X_over y_over (b64_of_int 0) 1 1 1 2
              Hnet HX Nat.lt_0_1 y_over_labels)
    as (l & g & E & _ & _ & (Lb2 & Hb2) & _).
  exists l, g. split; [exact E|].
  cbn [vlen at1] in Lb2, Hb2. change (mcols (W2 net_over)) with 2 in Lb2.
  split.
  - rewrite (Hb2 0) by (rewrite Lb2; lia).
    change (mrows X_over) with 1. cbn [sum_n].
    unfold dScores, probability. change (true_class y_over 0) with 1.
    change (mcols (W2 net_over)) with 2. cbn [Nat.eqb sum_n].
    change (score (SF := binary64 libm_exp libm_log) net_over X_over 0 0)
      with (b64_of_int 0).
    change (score (SF := binary64 libm_exp libm_log) net_over X_over 0 1)
      with (b64_of_int 1000).
    cbn [sexp binary64]. rewrite H0, H1000. reflexivity.
  - rewrite (Hb2 1) by (rewrite Lb2; lia).
    change (mrows X_over) with 1. cbn [sum_n].
    unfold dScores, probability. change (true_class y_over 0) with 1.
    change (mcols (W2 net_over)) with 2. cbn [Nat.eqb sum_n].
    change (score (SF := binary64 libm_exp libm_log) net_over X_over 0 0)
      with (b64_of_int 0).
    change (score (SF := binary64 libm_exp libm_log) net_over X_over 0 1)
      with (b64_of_int 1000).
    cbn [sexp binary64]. rewrite H0, H1000. reflexivity.
Qed.

(** The sum of the squares of the weights of [huge_net] is 2^1023: twice
    that overflows, half of 2 times it does not. *)
Lemma huge_net_penalties (libm_exp libm_log : spec_float -> spec_float) :
  let SF := binary64 libm_exp libm_log in
  sdiv (smul (b64_of_int 2)
             (sadd (sum_squares (W1 huge_net)) (sum_squares (W2 huge_net))))
       (of_int 2)
  = S754_infinity false /\
  smul (sdiv (b64_of_int 2) (of_int 2))
       (sadd (sum_squares (W1 huge_net)) (sum_squares (W2 huge_net)))
  = S754_finite false 4503599627370496 971.
Proof. split; reflexivity. Qed.

(** With exp(0) = 1 and log(1) = 0 the data loss of [huge_net] on the
    all-zero row is 0. *)
Lemma huge_net_data_loss (libm_exp libm_log : spec_float -> spec_float) :
  libm_exp (b64_of_int 0) = b64_of_int 1 ->
  libm_log (b64_of_int 1) = b64_of_int 0 ->
  data_loss (SF := binary64 libm_exp libm_log) huge_net tiny_X (true_class tiny_y)
  = S754_zero false.
Proof.
  intros He Hl. unfold data_loss, probability.
  change (mrows tiny_X) with 1. change (mcols (W2 huge_net)) with 1.
  cbn [sum_n]. change (true_class tiny_y 0) with 0.
  change (score (SF := binary64 libm_exp libm_log) huge_net tiny_X 0 0)
    with (b64_of_int 0).
  cbn [sexp slog sneg sadd sdiv szero of_int binary64].
  rewrite He.
  change (SFdiv 53 1024 (b64_of_int 1) (SFadd 53 1024 (b64_of_int 0) (b64_of_int 1)))
    with (b64_of_int 1).
  rewrite Hl. reflexivity.
Qed.


(* ================================================================= *)
(** * The epoch length under true division *)

Lemma net0_shape : net_shape net0 1 2 2.
Proof. repeat split. Qed.

Lemma y_rows_labels (n : nat) : labels_in (y_rows n) 2.
Proof.
  intros i _. change (at1 (y_rows n) i) with (Z.of_nat (i mod 2)).
  pose proof (Nat.mod_upper_bound i 2). lia.
Qed.

(** [train] on the rows of [X_rows n] in batches of 2. *)
Lemma train_rows (n : nat) (learning_rate_decay reg learning_rate0 : R) (num_iters : nat) :
  0 < n ->
  exists epoch s,
    iterations_per_epoch n 2 = Ok epoch /\
    train (X_rows n) (y_rows n) (X_rows n) (y_rows n) learning_rate_decay reg
          num_iters 2 false rng0 net0 learning_rate0 = Ok s /\
    learning_rate s
    = decayed learning_rate0 learning_rate_decay (decays epoch num_iters) /\
    length (train_acc_history s) = decays epoch num_iters /\
    length (val_acc_history s) = decays epoch num_iters.
Proof.
  intros Hn.
  destruct (train_outcome (X_rows n) (y_rows n) (X_rows n) (y_rows n)
              learning_rate_decay reg num_iters 2 false rng0
              n n 1 2 2) with (net := net0) (learning_rate0 := learning_rate0)
    as (epoch & s & Hep & Hs & _ & _ & Hr & Ht & Hv);
    try (repeat split; lia); try apply y_rows_labels; try apply net0_shape.
  exists epoch, s. auto.
Qed.

Lemma train_5_2 (learning_rate_decay reg learning_rate0 : R) (num_iters : nat) :
  exists s,
    train X5 y5 X5 y5 learning_rate_decay reg num_iters 2 false rng0 net0 learning_rate0
    = Ok s /\
    learning_rate s
    = decayed learning_rate0 learning_rate_decay
              (decays (PyFloat (S754_finite false 5629499534213120 (-51))) num_iters) /\
    length (train_acc_history s)
    = decays (PyFloat (S754_finite false 5629499534213120 (-51))) num_iters /\
    length (val_acc_history s)
    = decays (PyFloat (S754_finite false 5629499534213120 (-51))) num_iters.
Proof.
  destruct (train_rows 5 learning_rate_decay reg learning_rate0 num_iters)
    as (epoch & s & Hep & Hs & Hr & Ht & Hv); [lia|].
  vm_compute in Hep. injection Hep as <-.
  exists s. auto.
Qed.

(** With six rows the division is exact, 6 / 2 = 3.0: after 6 iterations,
    two epochs of length 3, the rate has been decayed twice. *)
Lemma learning_rate_after_two_epochs_6_2 :
  epoch_length 6 2 = 3 /\
  exists s,
    train (X_rows 6) (y_rows 6) (X_rows 6) (y_rows 6) (1 / 2)%R 0%R 6 2 false rng0
          net0 1%R = Ok s /\
    learning_rate s = decayed 1%R (1 / 2)%R 2.
Proof.
  split; [reflexivity|].
  destruct (train_rows 6 (1 / 2)%R 0%R 1%R 6)
    as (epoch & s & Hep & Hs & Hr & _); [lia|].
  vm_compute in Hep. injection Hep as <-.
  exists s. split; [exact Hs|].
  rewrite Hr. f_equal.
Qed.

(** When the division is exact the test agrees with the specification:
    six rows in batches of 2. *)
Lemma epoch_test_6_2 :
  map (boundary_code 6 2) (seq 0 12)
  = map (fun it => Ok (boundary_spec 6 2 it)) (seq 0 12).
Proof. vm_compute. reflexivity. Qed.

(** C3, on 5 training rows in batches of 2.  The specification's epoch
    length is max(1, floor(5/2)) = 2, with boundaries at iterations 0, 2, 4
    and 6.  The code computes 5 / 2 = 2.5 and tests [it % 2.5 == 0]: among
    the iterations 0..6 only 0 and 5 pass, and a run of 7 iterations
    measures accuracy twice. *)
Theorem epoch_test_5_2 :
  epoch_length 5 2 = 2 /\
  map (boundary_spec 5 2) (seq 0 7)
  = [true; false; true; false; true; false; true] /\
  iterations_per_epoch 5 2 = Ok (PyFloat (S754_finite false 5629499534213120 (-51))) /\
  map (boundary_code 5 2) (seq 0 7)
  = [Ok true; Ok false; Ok false; Ok false; Ok false; Ok true; Ok false] /\
  exists s,
    train X5 y5 X5 y5 (1 / 2)%R 0%R 7 2 false rng0 net0 1%R = Ok s /\
    length (train_acc_history s) = 2 /\
    length (val_acc_history s) = 2.
Proof.
  split; [reflexivity|]. split; [reflexivity|].
  split; [vm_compute; reflexivity|]. split; [vm_compute; reflexivity|].
  destruct (train_5_2 (1 / 2)%R 0%R 1%R 7) as (s & Hs & _ & Ht & Hv).
  exists s. split; [exact Hs|].
  assert (Hd : decays (PyFloat (S754_finite false 5629499534213120 (-51))) 7 = 2)
    by (vm_compute; reflexivity).
  rewrite Hd in Ht, Hv. auto.
Qed.

(** C4, on the same run.  After 4 iterations two epochs of length 2 are
    complete, yet the rate has been decayed once: it is 1 * 1/2, not
    1 * 1/2 * 1/2. *)
Theorem learning_rate_after_two_epochs_5_2 :
  epoch_length 5 2 = 2 /\
  exists s,
    train X5 y5 X5 y5 (1 / 2)%R 0%R 4 2 false rng0 net0 1%R = Ok s /\
    learning_rate s = (1 * (1 / 2))%R /\
    learning_rate s <> decayed 1%R (1 / 2)%R 2.
Proof.
  split; [reflexivity|].
  destruct (train_5_2 (1 / 2)%R 0%R 1%R 4) as (s & Hs & Hr & _).
  exists s. split; [exact Hs|].
  assert (Hd : decays (PyFloat (S754_finite false 5629499534213120 (-51))) 4 = 1)
    by (vm_compute; reflexivity).
  rewrite Hd in Hr. rewrite Hr. simpl. split; [reflexivity | lra].
Qed.

(* ================================================================= *)
(** * Negative labels *)

(** The labels -1 and -2 index the classes 1 and 0 of two. *)
Lemma y_negative_classes :
  map (fun i => wrap 2 (at1 y_negative i)) [0; 1] = [1; 0].
Proof. reflexivity. Qed.

(** C5, counterexample.  Both labels of [y_negative] are outside [0, C),
    and [loss] returns a loss and gradients. *)
Lemma negative_labels_accepted :
  (forall i, i < 2 -> ~ (0 <= at1 y_negative i < 2)%Z) /\
  exists l g, loss net0 X0 (Some y_negative) 0%R = Ok (LossGrads l g).
Proof.
  split.
  - intros i _. change (at1 y_negative i) with (- 1 - Z.of_nat i)%Z. lia.
  - destruct (loss_run net0 X0 y_negative 0%R 2 1 2 2) as (l & g & E & _);
      try (repeat split; lia).
    + intros i Hi. change (vlen y_negative) with 2 in Hi.
      change (at1 y_negative i) with (- 1 - Z.of_nat i)%Z. lia.
    + eauto.
Qed.

(* ================================================================= *)
(** * The statements on concrete inputs *)

Lemma y0_labels : labels_in y0 2.
Proof.
  intros i Hi. change (vlen y0) with 2 in Hi.
  change (at1 y0 i) with (Z.of_nat i). lia.
Defined.

Lemma net0_weights_nonzero : weights_nonzero net0.
Proof.
  left. exists 0, 0. split; [apply Nat.lt_0_1|]. split; [apply Nat.lt_0_2|].
  apply nonzero_entry_R. change (at2 (W1 net0) 0 0) with 1%R. lra.
Defined.

Section Float64Inputs.
#[local] Existing Instance binary64_overflowing.



End Float64Inputs.

Lemma loss_strictly_increasing_in_reg_exact_witness :
  net_shape net0 1 2 2 /\ batch_shape X0 y0 2 1 /\ 0 < 2 /\ labels_in y0 2 /\
  weights_nonzero net0 /\ (0 < 1)%R /\
  exists l1 g1 l2 g2,
    loss net0 X0 (Some y0) 0%R = Ok (LossGrads l1 g1) /\
    loss net0 X0 (Some y0) 1%R = Ok (LossGrads l2 g2) /\
    (l1 < l2)%R.
Proof.
  assert (Hn : net_shape net0 1 2 2) by (repeat split).
  assert (Hb : batch_shape X0 y0 2 1) by (repeat split).
  assert (HN : 0 < 2) by lia.
  assert (Hr : (0 < 1)%R) by lra.
  repeat (split; [assumption || exact y0_labels || exact net0_weights_nonzero|]).
  exact (loss_strictly_increasing_in_reg_exact net0 X0 y0 0%R 1%R 2 1 2 2
           Hn Hb HN y0_labels net0_weights_nonzero Hr).
Defined.

Lemma loss_shape_errors_witness :
  net_shape net0 1 2 2 /\
  (forall y', loss net0 X_wide y' 0%R = Raise ValueError) /\
  (loss net0 X0 (Some y_big) 0%R = Raise IndexError /\
   exists s, loss net0 X0 None 0%R = Ok (Scores s)) /\
  (exists l g,
     loss net0 X0 (Some y_negative) 0%R = Ok (LossGrads l g) /\
     l = sadd (data_loss net0 X0 (fun i => wrap 2 (at1 y_negative i)))
              (sdiv (smul 0%R (sadd (sum_squares (W1 net0)) (sum_squares (W2 net0))))
                    (of_int 2))).
Proof.
  assert (Hn : net_shape net0 1 2 2) by (repeat split).
  assert (HN : 0 < 2) by lia.
  split; [exact Hn|]. split; [|split].
  - apply (proj1 (loss_shape_errors net0 X_wide y0 0%R 2 1 2 2 Hn)).
    cbn. discriminate.
  - apply (proj1 (proj2 (loss_shape_errors net0 X0 y_big 0%R 2 1 2 2 Hn))).
    + repeat split.
    + exact HN.
    + exists 1. split; [lia|].
      change (at1 y_big 1) with 2%Z. lia.
  - apply (proj2 (proj2 (loss_shape_errors net0 X0 y_negative 0%R 2 1 2 2 Hn))).
    + repeat split.
    + exact HN.
    + intros i Hi. change (vlen y_negative) with 2 in Hi.
      change (at1 y_negative i) with (- 1 - Z.of_nat i)%Z. lia.
Defined.


Lemma predict_labels_in_range_witness :
  net_shape net0 1 2 2 /\ mrows X0 = 2 /\ mcols X0 = 1 /\ 0 < 2 /\
  exists y_pred,
    predict net0 X0 = Ok y_pred /\
    vlen y_pred = 2 /\
    (forall i, i < 2 -> at1 y_pred i < 2) /\
    (forall p' X', params_eq net0 p' -> mat_eq X0 X' ->
       exists y_pred', predict p' X' = Ok y_pred' /\ vec_eq y_pred y_pred').
Proof.
  assert (Hn : net_shape net0 1 2 2) by (repeat split).
  assert (HC : 0 < 2) by lia.
  split; [exact Hn|]. split; [reflexivity|]. split; [reflexivity|]. split; [exact HC|].
  exact (predict_labels_in_range net0 X0 2 1 2 2 Hn eq_refl eq_refl HC).
Defined.

Lemma train_keeps_shapes_witness :
  net_shape net0 1 2 2 /\ 0 < 2 /\ batch_shape X5 y5 5 1 /\ 0 < 5 /\
  labels_in y5 2 /\ (0 < 2)%Z /\
  exists epoch,
    iterations_per_epoch (mrows X5) 2 = Ok epoch /\
    (forall k, k <= 10 ->
       exists s,
         train_iters X5 y5 X5 y5 (1 / 2)%R 0%R 10 2 false rng0 epoch k
                     (mkstate net0 1%R [] [] [] []) = Ok s /\
         net_shape (params s) 1 2 2 /\ same_shape net0 (params s)) /\
    (exists s,
        train X5 y5 X5 y5 (1 / 2)%R 0%R 10 2 false rng0 net0 1%R = Ok s /\
        net_shape (params s) 1 2 2 /\ same_shape net0 (params s)).
Proof.
  assert (Hn : net_shape net0 1 2 2) by (repeat split).
  assert (HC : 0 < 2) by lia.
  assert (Hb : batch_shape X5 y5 5 1) by (repeat split).
  assert (HN : 0 < 5) by lia.
  assert (HB : (0 < 2)%Z) by lia.
  repeat (split; [assumption || exact (y_rows_labels 5)|]).
  exact (train_keeps_shapes X5 y5 X5 y5 1%R (1 / 2)%R 0%R 10 2 false rng0 net0
           5 5 1 2 2 Hn HC Hb HN (y_rows_labels 5) HB Hb).
Defined.

Lemma dscores_aliases_softmax_witness :
  mrows scores0 = 2 /\ mcols scores0 = 2 /\ 0 < 2 /\ vlen y0 = 2 /\ labels_in y0 2 /\
  exists fr,
    softmax_stage empty_heap scores0 y0 = Ok fr /\
    dscores fr = softmax fr /\
    (forall i, i < 2 ->
       at1 (losses fr) i
       = (- ln (at2 (normalize_rows (np_exp scores0)) i (true_class y0 i)))%R) /\
    (forall i, i < 2 ->
       at2 (load (mem fr) (softmax fr)) i (true_class y0 i)
       = (at2 (normalize_rows (np_exp scores0)) i (true_class y0 i) - 1)%R /\
       at2 (load (mem fr) (softmax fr)) i (true_class y0 i)
       <> at2 (normalize_rows (np_exp scores0)) i (true_class y0 i)) /\
    (forall i c, i < 2 -> c <> true_class y0 i ->
       at2 (load (mem fr) (softmax fr)) i c
       = at2 (normalize_rows (np_exp scores0)) i c).
Proof.
  assert (HN : 0 < 2) by lia.
  split; [reflexivity|]. split; [reflexivity|]. split; [exact HN|].
  split; [reflexivity|]. split; [exact y0_labels|].
  exact (dscores_aliases_softmax empty_heap scores0 y0 2 2 eq_refl eq_refl HN eq_refl y0_labels).
Defined.

(* ================================================================= *)
(** * A run in binary64 *)

(** [predict] on [net64] and the two rows (2, 0) and (0, 2): the hidden
    activations are (2, 0) and (0, 2), the scores (2, 0, 0) and (0, 2, 0),
    the labels 0 and 1.  [exp] and [log] play no part. *)
Lemma predict_net64 (libm_exp libm_log : spec_float -> spec_float) :
  exists y_pred,
    predict (SF := binary64 libm_exp libm_log) net64 X64 = Ok y_pred /\
    vlen y_pred = 2 /\ at1 y_pred 0 = 0 /\ at1 y_pred 1 = 1.
Proof.
  eexists. split; [reflexivity|]. vm_compute. repeat split; reflexivity.
Qed.

(** The scores of the same batch: [loss] without labels. *)
Lemma scores_net64 (libm_exp libm_log : spec_float -> spec_float) :
  exists scores,
    loss (SF := binary64 libm_exp libm_log) net64 X64 None (b64_of_int 0)
    = Ok (Scores scores) /\
    mrows scores = 2 /\ mcols scores = 3 /\
    map (fun c => at2 scores 0 c) [0; 1; 2]
    = [b64_of_int 2; b64_of_int 0; b64_of_int 0] /\
    map (fun c => at2 scores 1 c) [0; 1; 2]
    = [b64_of_int 0; b64_of_int 2; b64_of_int 0].
Proof.
  eexists. split; [reflexivity|]. vm_compute. repeat split; reflexivity.
Qed.

(* ================================================================= *)
(** * Further properties of the code

    Edge cases of [loss], [predict] and [train], and properties of what they
    compute, beyond the statements above. *)

(** ** [loss] and [predict] at the edges, in any arithmetic *)

Section LossAndPredictEdges.
Context {F : Type} {SF : Scalar F}.

(** X1.  On a well-shaped batch with at least one row and labels that numpy
    accepts, [loss] returns a gradient dictionary whose four arrays have,
    key by key, the shapes of the parameters (lines 143-158). *)
Theorem loss_grads_shaped_like_params
  (p : param_dict F) (X : mat F) (y : vec Z) (reg : F) (N D H C : nat) :
  net_shape p D H C -> batch_shape X y N D -> 0 < N -> labels_indexable y C ->
  exists l g, loss p X (Some y) reg = Ok (LossGrads l g) /\ same_shape p g.
Proof.
  intros Hnet HX HN Hy.
  destruct (loss_run p X y reg N D H C Hnet HX HN Hy) as (l & g & E & _ & Hg & _).
  exists l, g. split; [exact E|].
  destruct Hnet as (A1 & A2 & A3 & A4 & A5 & A6).
  destruct Hg as (B1 & B2 & B3 & B4 & B5 & B6).
  unfold same_shape. repeat split; congruence.
Qed.

(** X2.  A batch without rows: with labels, whatever they are, [loss]
    raises IndexError (the array built by the list comprehension of line 99
    is one-dimensional and line 100 indexes it with two arrays); without
    labels it returns a score matrix with no row and C columns. *)
Theorem loss_empty_batch
  (p : param_dict F) (X : mat F) (D H C : nat) :
  net_shape p D H C -> mrows X = 0 -> mcols X = D ->
  (forall y reg, loss p X (Some y) reg = Raise IndexError) /\
  (exists s, mrows s = 0 /\ mcols s = C /\
             forall reg, loss p X None reg = Ok (Scores s)).
Proof.
  intros Hnet HXr HXc.
  destruct (forward_run p X D H C Hnet HXc) as (a1 & s & Hfw & _ & _ & Hsr & Hsc & _).
  split.
  - intros y reg. unfold loss. rewrite Hfw. cbn [bind fst snd].
    unfold softmax_stage. cbn [alloc load cells fresh].
    rewrite Hsr, HXr. reflexivity.
  - exists s. repeat split; try congruence.
    intros reg. unfold loss. rewrite Hfw. reflexivity.
Qed.

(** X3.  The number of labels is checked only by the broadcasting of the
    index arrays at line 100.  For a batch of N > 1 rows, a label array whose
    length is neither N nor 1 raises IndexError; a label array of length 1 is
    broadcast, and the call behaves as if that one label were given for
    every row. *)
Theorem loss_label_count
  (p : param_dict F) (X : mat F) (y : vec Z) (reg : F) (N D H C : nat) :
  net_shape p D H C -> mrows X = N -> mcols X = D -> 1 < N ->
  (vlen y <> N -> vlen y <> 1 -> loss p X (Some y) reg = Raise IndexError) /\
  (vlen y = 1 ->
   loss p X (Some y) reg = loss p X (Some (mkvec N (fun _ => at1 y 0))) reg).
Proof.
  intros Hnet HXr HXc HN.
  destruct (forward_run p X D H C Hnet HXc) as (a1 & s & Hfw & _ & _ & Hsr & Hsc & _).
  assert (HsN : mrows s = N) by congruence.
  split.
  - intros H1 H2. unfold loss. rewrite Hfw. cbn [bind fst snd].
    unfold softmax_stage. cbn [alloc load cells fresh]. rewrite HsN.
    destruct (Nat.eqb_spec N 0); [lia|].
    unfold fancy_index, bcast_dim.
    destruct (Nat.eqb_spec N (vlen y)); [congruence|].
    destruct (Nat.eqb_spec N 1); [lia|].
    destruct (Nat.eqb_spec (vlen y) 1); [contradiction|]. reflexivity.
  - intros H1. unfold loss. rewrite Hfw. cbn [bind fst snd].
    unfold softmax_stage. cbn [alloc load cells fresh]. rewrite HsN.
    destruct (Nat.eqb_spec N 0); [lia|].
    unfold fancy_index. cbn [vlen at1]. rewrite H1.
    rewrite bcast_dim_same. unfold bcast_dim.
    destruct (Nat.eqb_spec N 1); [lia|]. cbn [Nat.eqb pick].
    reflexivity.
Qed.

(** X12.  [predict] at the edges: an input whose number of columns is not
    D raises ValueError at the first matrix product; with no output class
    (C = 0) [np.argmax] raises ValueError; an input without rows gives an
    empty array of labels. *)
Theorem predict_edges
  (p : param_dict F) (X : mat F) (D H C : nat) :
  net_shape p D H C ->
  (mcols X <> D -> predict p X = Raise ValueError) /\
  (mcols X = D -> C = 0 -> predict p X = Raise ValueError) /\
  (mcols X = D -> 0 < C -> mrows X = 0 ->
   exists y_pred, predict p X = Ok y_pred /\ vlen y_pred = 0).
Proof.
  intros Hnet. split; [|split].
  - intros HX. destruct Hnet as (HW1r & _).
    unfold predict. rewrite matmul_raise by congruence. reflexivity.
  - intros HXc HC.
    destruct (forward_run p X D H C Hnet HXc) as (a1 & s & Hfw & _ & _ & Hsr & Hsc & _).
    rewrite predict_forward, Hfw. cbn [bind snd]. unfold argmax_rows.
    rewrite Hsc, HC. reflexivity.
  - intros HXc HC HXr.
    destruct (predict_value p X D H C Hnet HXc HC) as (v & Hv & Hlen & _).
    exists v. split; [exact Hv | congruence].
Qed.
End LossAndPredictEdges.

Section RowsAndTurns.
Context {F : Type} {SF : Scalar F}.

(** X13.  Predictions are made row by row.  For an array [idx] of row
    numbers that are all below the number of rows of X, [X[idx]] exists and
    predicting on it gives the labels that [predict] gives for the whole of
    X, taken at the same (valid) positions.  A row number that is out of
    range makes [X[idx]] raise IndexError, so nothing is predicted.  (This
    is how [train] measures the accuracy on a minibatch, lines 205 and
    235.) *)
Theorem predict_is_row_wise (p : param_dict F) (X : mat F) (idx : vec nat) (D H C : nat) :
  net_shape p D H C -> mcols X = D -> 0 < C ->
  ((forall k, k < vlen idx -> at1 idx k < mrows X) ->
   exists y_all X_sel y_sel,
     predict p X = Ok y_all /\
     take_rows X idx = Ok X_sel /\
     predict p X_sel = Ok y_sel /\
     vlen y_sel = vlen idx /\
     forall k, k < vlen idx ->
       at1 idx k < vlen y_all /\ at1 y_sel k = at1 y_all (at1 idx k)) /\
  ((exists k, k < vlen idx /\ mrows X <= at1 idx k) ->
   (X_sel <- take_rows X idx ;; predict p X_sel) = Raise IndexError).
Proof.
  intros Hnet HXc HC. split.
  - intros Hin.
    destruct (predict_value p X D H C Hnet HXc HC) as (y_all & Hall & Hlen_all & Hval).
    destruct (predict_value p (selected_rows X idx) D H C Hnet HXc HC)
      as (y_sel & Hsel & Hlen & Hval').
    exists y_all, (selected_rows X idx), y_sel.
    split; [exact Hall|]. split; [exact (take_rows_ok X idx Hin)|].
    split; [exact Hsel|]. split; [exact Hlen|].
    intros k Hk. split.
    + rewrite Hlen_all. apply Hin. exact Hk.
    + rewrite Hval, Hval'. reflexivity.
  - intros (k & Hk & Hout). rewrite (take_rows_raise X idx k Hk Hout). reflexivity.
Qed.

Section Step.
Variables (X : mat F) (y : vec Z) (X_val : mat F) (y_val : vec Z).
Variables (learning_rate_decay reg : F).
Variables (num_iters : nat) (batch_size : Z) (verbose : bool).
Variable rng : nat -> nat -> nat.

(** Lines 204-223 of one turn: the minibatch, its loss and gradients, and
    the four in-place updates. *)
Lemma train_step_update (epoch : pynum) (it : nat) (s s' : train_state) :
  train_step X y X_val y_val learning_rate_decay reg num_iters batch_size verbose rng
             epoch it s = Ok s' ->
  exists idx y_batch l g,
    random_choice rng it (mrows X) batch_size = Ok idx /\
    take_rows X idx = Ok (selected_rows X idx) /\
    take y idx = Ok y_batch /\
    loss (params s) (selected_rows X idx) (Some y_batch) reg = Ok (LossGrads l g) /\
    inplace2 ssub (W1 (params s)) (scale (learning_rate s) (W1 g)) = Ok (W1 (params s')) /\
    inplace1 ssub (b1 (params s)) (scale1 (learning_rate s) (b1 g)) = Ok (b1 (params s')) /\
    inplace2 ssub (W2 (params s)) (scale (learning_rate s) (W2 g)) = Ok (W2 (params s')) /\
    inplace1 ssub (b2 (params s)) (scale1 (learning_rate s) (b2 g)) = Ok (b2 (params s')) /\
    loss_history s' = loss_history s ++ [l].
Proof.
  unfold train_step. intros E.
  bind_as E idx Eidx. bind_as E X_batch EX. bind_as E y_batch Ey. bind_as E r Er.
  destruct (take_rows_inv _ _ _ EX) as (-> & _).
  destruct r as [sc | l g]; [discriminate|].
  bind_as E w1 Ew1. bind_as E w2 Ew2. bind_as E c1 Ec1. bind_as E c2 Ec2.
  bind_as E boundary Eb.
  exists idx, y_batch, l, g.
  destruct boundary.
  - bind_as E pb Epb. bind_as E ta Eta. bind_as E pv Epv. bind_as E va Eva.
    injection E as <-. cbn. auto 10.
  - injection E as <-. cbn. auto 10.
Qed.

(** A property of the state that every turn keeps is kept by the loop. *)
Lemma train_iters_invariant (P : train_state -> Prop) (epoch : pynum) :
  (forall it s s',
      P s ->
      train_step X y X_val y_val learning_rate_decay reg num_iters batch_size verbose rng
                 epoch it s = Ok s' -> P s') ->
  forall n s0 s,
    P s0 ->
    train_iters X y X_val y_val learning_rate_decay reg num_iters batch_size verbose rng
                epoch n s0 = Ok s -> P s.
Proof.
  intros Hstep n. induction n as [|n IH]; intros s0 s H0 E.
  - cbn in E. injection E as <-. exact H0.
  - cbn [train_iters] in E. bind_as E s1 E1.
    eapply Hstep; [|exact E]. eapply IH; eauto.
Qed.

End Step.
End RowsAndTurns.

(** ** The loop of [train] on degenerate arguments, and [verbose] *)

Lemma decays_le (epoch : pynum) (n : nat) : decays epoch n <= n.
Proof.
  induction n as [|n IH]; cbn [decays]; [lia|].
  destruct (mod_is_zero n epoch) as [[|]|]; lia.
Qed.

Lemma filter_seq_S (f : nat -> bool) (n : nat) :
  filter f (seq 0 (S n)) = filter f (seq 0 n) ++ (if f n then [n] else []).
Proof.
  rewrite seq_S, filter_app. cbn. destruct (f n); reflexivity.
Qed.

Section LoopEdges.
Context {F : Type} {SF : Scalar F}.
Variables (X : mat F) (y : vec Z) (X_val : mat F) (y_val : vec Z).
Variables (learning_rate_decay reg : F).
Variables (num_iters : nat) (batch_size : Z).
Variable rng : nat -> nat -> nat.

(** One turn with and without [verbose]. *)
Lemma train_step_verbose (verbose : bool) (epoch : pynum) (it : nat) (s : train_state) :
  match train_step X y X_val y_val learning_rate_decay reg num_iters batch_size
                   verbose rng epoch it s with
  | Ok s' =>
      train_step X y X_val y_val learning_rate_decay reg num_iters batch_size
                 false rng epoch it (forget_printed s) = Ok (forget_printed s') /\
      printed s' = printed s ++
                   (if verbose && (it mod 100 =? 0)
                    then [(it, num_iters, last (loss_history s') (learning_rate s))]
                    else [])
  | Raise e =>
      train_step X y X_val y_val learning_rate_decay reg num_iters batch_size
                 false rng epoch it (forget_printed s) = Raise e
  end.
Proof.
  unfold train_step. cbn [forget_printed params learning_rate loss_history
                          train_acc_history val_acc_history printed andb].
  destruct (random_choice rng it (mrows X) batch_size) as [idx|e]; cbn [bind]; [|reflexivity].
  destruct (take_rows X idx) as [X_batch|e]; cbn [bind]; [|reflexivity].
  destruct (take y idx) as [y_batch|e]; cbn [bind]; [|reflexivity].
  destruct (loss (params s) X_batch (Some y_batch) reg) as [[sc|l g]|e];
    cbn [bind]; try reflexivity.
  destruct (inplace2 ssub (W1 (params s)) _) as [w1|e]; cbn [bind]; [|reflexivity].
  destruct (inplace2 ssub (W2 (params s)) _) as [w2|e]; cbn [bind]; [|reflexivity].
  destruct (inplace1 ssub (b1 (params s)) _) as [c1|e]; cbn [bind]; [|reflexivity].
  destruct (inplace1 ssub (b2 (params s)) _) as [c2|e]; cbn [bind]; [|reflexivity].
  destruct (mod_is_zero it epoch) as [[|]|e]; cbn [bind]; [| |reflexivity].
  - destruct (predict _ X_batch) as [pb|e]; cbn [bind]; [|reflexivity].
    destruct (accuracy pb y_batch) as [ta|e]; cbn [bind]; [|reflexivity].
    destruct (predict _ X_val) as [pv|e]; cbn [bind]; [|reflexivity].
    destruct (accuracy pv y_val) as [va|e]; cbn [bind]; [|reflexivity].
    cbn [forget_printed params learning_rate loss_history
         train_acc_history val_acc_history printed].
    split; [reflexivity|]. rewrite last_last.
    destruct (verbose && (it mod 100 =? 0)); [reflexivity | now rewrite app_nil_r].
  - cbn [forget_printed params learning_rate loss_history
         train_acc_history val_acc_history printed].
    split; [reflexivity|]. rewrite last_last.
    destruct (verbose && (it mod 100 =? 0)); [reflexivity | now rewrite app_nil_r].
Qed.

Lemma train_iters_verbose (verbose : bool) (epoch : pynum) (n : nat) (s0 : train_state) :
  match train_iters X y X_val y_val learning_rate_decay reg num_iters batch_size
                    verbose rng epoch n s0 with
  | Ok s =>
      train_iters X y X_val y_val learning_rate_decay reg num_iters batch_size
                  false rng epoch n (forget_printed s0) = Ok (forget_printed s) /\
      map (fun e => fst (fst e)) (printed s)
      = map (fun e => fst (fst e)) (printed s0)
        ++ (if verbose then filter (fun it => it mod 100 =? 0) (seq 0 n) else [])
  | Raise e =>
      train_iters X y X_val y_val learning_rate_decay reg num_iters batch_size
                  false rng epoch n (forget_printed s0) = Raise e
  end.
Proof.
  induction n as [|n IH].
  - cbn. split; [reflexivity|]. destruct verbose; now rewrite app_nil_r.
  - cbn [train_iters].
    destruct (train_iters X y X_val y_val learning_rate_decay reg num_iters batch_size
                verbose rng epoch n s0) as [s|e]; cbn [bind].
    + destruct IH as (IH1 & IH2). rewrite IH1. cbn [bind].
      pose proof (train_step_verbose verbose epoch n s) as Hs.
      destruct (train_step X y X_val y_val learning_rate_decay reg num_iters batch_size
                  verbose rng epoch n s) as [s'|e].
      * destruct Hs as (Hs1 & Hs2). split; [exact Hs1|].
        rewrite Hs2, map_app, IH2, <- app_assoc. f_equal.
        destruct verbose; cbn [andb].
        -- rewrite filter_seq_S. f_equal. destruct (n mod 100 =? 0); reflexivity.
        -- reflexivity.
      * exact Hs.
    + rewrite IH. reflexivity.
Qed.

(** X16.  [verbose] only prints.  If [train] returns with [verbose] set, it
    returns the same network, learning rate and histories without it, and
    the iterations that were printed are the multiples of 100 below
    [num_iters]; if it raises, it raises the same error without it. *)
Theorem train_verbose_only_prints (verbose : bool) (net : param_dict F) (learning_rate0 : F) :
  match train X y X_val y_val learning_rate_decay reg num_iters batch_size
              verbose rng net learning_rate0 with
  | Ok s =>
      train X y X_val y_val learning_rate_decay reg num_iters batch_size
            false rng net learning_rate0 = Ok (forget_printed s) /\
      map (fun e => fst (fst e)) (printed s)
      = (if verbose then filter (fun it => it mod 100 =? 0) (seq 0 num_iters) else [])
  | Raise e =>
      train X y X_val y_val learning_rate_decay reg num_iters batch_size
            false rng net learning_rate0 = Raise e
  end.
Proof.
  unfold train.
  destruct (iterations_per_epoch (mrows X) batch_size) as [epoch|e]; cbn [bind];
    [|reflexivity].
  apply (train_iters_verbose verbose epoch num_iters (mkstate net learning_rate0 [] [] [] [])).
Qed.

(** X15.  [train] on degenerate arguments.  [batch_size = 0] raises
    ZeroDivisionError at line 188, before anything else.  With
    [num_iters = 0] (and a batch size other than 0) nothing is computed: the
    network is untouched and the histories are empty.  With at least one
    iteration, a negative batch size, or a training set without rows, makes
    [np.random.choice] raise ValueError. *)
Theorem train_edges (verbose : bool) (net : param_dict F) (learning_rate0 : F) :
  (batch_size = 0%Z ->
   train X y X_val y_val learning_rate_decay reg num_iters batch_size
         verbose rng net learning_rate0 = Raise ZeroDivisionError) /\
  (batch_size <> 0%Z -> num_iters = 0 ->
   train X y X_val y_val learning_rate_decay reg num_iters batch_size
         verbose rng net learning_rate0 = Ok (mkstate net learning_rate0 [] [] [] [])) /\
  ((batch_size < 0)%Z \/ ((0 < batch_size)%Z /\ mrows X = 0) -> 0 < num_iters ->
   train X y X_val y_val learning_rate_decay reg num_iters batch_size
         verbose rng net learning_rate0 = Raise ValueError).
Proof.
  split; [|split].
  - intros ->. reflexivity.
  - intros Hb ->. unfold train.
    destruct (iterations_per_epoch_ok (mrows X) batch_size Hb) as (epoch & -> & _).
    reflexivity.
  - intros Hbad Hn. unfold train.
    destruct (iterations_per_epoch_ok (mrows X) batch_size) as (epoch & -> & _); [lia|].
    cbn [bind].
    assert (Hstep : forall it s,
               train_step X y X_val y_val learning_rate_decay reg num_iters batch_size
                          verbose rng epoch it s = Raise ValueError).
    { intros it s. unfold train_step, random_choice.
      destruct Hbad as [Hneg | (Hpos & HX0)].
      - destruct (Z.ltb_spec batch_size 0); [reflexivity | lia].
      - destruct (Z.ltb_spec batch_size 0); [lia|]. rewrite HX0.
        destruct (Z.eqb_spec batch_size 0); [lia|]. reflexivity. }
    assert (Hall : forall n s0, 0 < n ->
               train_iters X y X_val y_val learning_rate_decay reg num_iters batch_size
                           verbose rng epoch n s0 = Raise ValueError).
    { intros n s0 Hpos. destruct n as [|n]; [lia|]. clear Hpos.
      induction n as [|n IH].
      - cbn. apply Hstep.
      - change (train_iters X y X_val y_val learning_rate_decay reg num_iters batch_size
                            verbose rng epoch (S (S n)) s0)
          with (s <- train_iters X y X_val y_val learning_rate_decay reg num_iters
                       batch_size verbose rng epoch (S n) s0 ;;
                train_step X y X_val y_val learning_rate_decay reg num_iters batch_size
                           verbose rng epoch (S n) s).
        rewrite IH. reflexivity. }
    apply Hall. exact Hn.
Qed.
End LoopEdges.

(** ** binary64 quotients of machine-size counts *)

Lemma shr_1_nonneg (r : shr_record) : (0 <= shr_m r)%Z -> (0 <= shr_m (shr_1 r))%Z.
Proof.
  destruct r as [m r s]. cbn [shr_m]. intros Hm.
  destruct m as [|[q|q|]|q]; cbn; lia.
Qed.

Lemma iter_pos_shr_1_nonneg (n : positive) (r : shr_record) :
  (0 <= shr_m r)%Z -> (0 <= shr_m (iter_pos shr_1 n r))%Z.
Proof.
  revert r. induction n as [n IH|n IH|]; intros r Hr; cbn [iter_pos].
  - apply IH, IH, shr_1_nonneg, Hr.
  - apply IH, IH, Hr.
  - apply shr_1_nonneg, Hr.
Qed.

Lemma shr_fexp_nonneg (prec emax m e : Z) (l : location) :
  (0 <= m)%Z -> (0 <= shr_m (fst (shr_fexp prec emax m e l)))%Z.
Proof.
  intros Hm. unfold shr_fexp, shr.
  assert (H0 : (0 <= shr_m (shr_record_of_loc m l))%Z).
  { destruct l as [|[ | | ]]; exact Hm. }
  destruct (fexp prec emax (Zdigits2 m + e) - e)%Z as [|n|n]; cbn [fst];
    [exact H0 | apply iter_pos_shr_1_nonneg, H0 | exact H0].
Qed.

Lemma round_nearest_even_nonneg (m : Z) (l : location) :
  (0 <= m)%Z -> (0 <= round_nearest_even m l)%Z.
Proof.
  intros Hm. unfold round_nearest_even.
  destruct l as [|[ | | ]]; [lia | destruct (Z.even m); lia | lia | lia].
Qed.

(** Rounding a non-negative mantissa never gives a NaN. *)
Lemma binary_round_aux_not_nan (prec emax : Z) (sx : bool) (m e : Z) (l : location) :
  (0 <= m)%Z -> binary_round_aux prec emax sx m e l <> S754_nan.
Proof.
  intros Hm. unfold binary_round_aux.
  pose proof (shr_fexp_nonneg prec emax m e l Hm) as H1.
  destruct (shr_fexp prec emax m e l) as [mrs' e']. cbn [fst] in H1.
  pose proof (shr_fexp_nonneg prec emax
                (round_nearest_even (shr_m mrs') (loc_of_shr_record mrs')) e' loc_Exact
                (round_nearest_even_nonneg _ _ H1)) as H2.
  destruct (shr_fexp prec emax _ e' loc_Exact) as [mrs'' e'']. cbn [fst] in H2.
  destruct (shr_m mrs'') as [|q|q]; [discriminate | | lia].
  destruct (e'' <=? emax - prec)%Z; discriminate.
Qed.

Lemma digits2_pos_bounds (m : positive) :
  (2 ^ (Z.pos (digits2_pos m) - 1) <= Z.pos m < 2 ^ Z.pos (digits2_pos m))%Z.
Proof.
  induction m as [m IH|m IH|]; cbn [digits2_pos].
  - rewrite Pos2Z.inj_succ.
    replace (Z.succ (Z.pos (digits2_pos m)) - 1)%Z with (Z.succ (Z.pos (digits2_pos m) - 1))%Z
      by lia.
    rewrite !Z.pow_succ_r by lia. lia.
  - rewrite Pos2Z.inj_succ.
    replace (Z.succ (Z.pos (digits2_pos m)) - 1)%Z with (Z.succ (Z.pos (digits2_pos m) - 1))%Z
      by lia.
    rewrite !Z.pow_succ_r by lia. lia.
  - cbn. lia.
Qed.

Lemma digits2_pos_le (m : positive) (k : Z) :
  (0 <= k)%Z -> (Z.pos m < 2 ^ k)%Z -> (Z.pos (digits2_pos m) <= k)%Z.
Proof.
  intros Hk Hm. destruct (digits2_pos_bounds m) as (Hlo & _).
  destruct (Z.le_gt_cases (Z.pos (digits2_pos m)) k) as [|Hgt]; [assumption|].
  assert (2 ^ k <= 2 ^ (Z.pos (digits2_pos m) - 1))%Z
    by (apply Z.pow_le_mono_r; lia).
  lia.
Qed.

Lemma digits2_pos_iter_xO (d m : positive) :
  digits2_pos (Pos.iter xO m d) = (digits2_pos m + d)%positive.
Proof.
  induction d as [|d IH] using Pos.peano_ind.
  - cbn. lia.
  - rewrite Pos.iter_succ. cbn [digits2_pos]. rewrite IH. lia.
Qed.

(** A mantissa in canonical position is not touched by the rounding. *)
Lemma binary_round_aux_canonical (sx : bool) (m : positive) (e : Z) :
  fexp 53 1024 (Z.pos (digits2_pos m) + e) = e -> (e <= 1024 - 53)%Z ->
  binary_round_aux 53 1024 sx (Z.pos m) e loc_Exact = S754_finite sx m e.
Proof.
  intros Hf He. unfold binary_round_aux, shr_fexp.
  cbn [Zdigits2 shr_record_of_loc]. rewrite Hf, Z.sub_diag.
  cbn [shr shr_m loc_of_shr_record round_nearest_even Zdigits2 shr_record_of_loc].
  rewrite Hf, Z.sub_diag. cbn [shr shr_m].
  destruct (Z.leb_spec e (1024 - 53)); [reflexivity | lia].
Qed.

(** Counts below 2^53 convert to finite positive floats. *)
Lemma b64_of_int_finite (z : Z) :
  (0 < z < 2 ^ 53)%Z -> exists m e, b64_of_int z = S754_finite false m e.
Proof.
  intros (Hpos & Hlt). destruct z as [|m|m]; [lia| |lia].
  unfold b64_of_int, binary_normalize, binary_round.
  pose proof (digits2_pos_le m 53 ltac:(lia) Hlt) as Hd.
  assert (Hfx : fexp 53 1024 (Z.pos (digits2_pos m) + 0) = (Z.pos (digits2_pos m) - 53)%Z).
  { unfold fexp, emin. lia. }
  rewrite Hfx. unfold shl_align.
  destruct (Z.pos (digits2_pos m) - 53 - 0)%Z as [|d|d] eqn:Ed.
  - rewrite binary_round_aux_canonical; [eauto| |lia].
    unfold fexp, emin. lia.
  - lia.
  - rewrite binary_round_aux_canonical; [eauto| |lia].
    rewrite digits2_pos_iter_xO. unfold fexp, emin. lia.
Qed.

Lemma SFdiv_finite_not_nan (sx sy : bool) (mx my : positive) (ex ey : Z) :
  SFdiv 53 1024 (S754_finite sx mx ex) (S754_finite sy my ey) <> S754_nan.
Proof.
  unfold SFdiv, SFdiv_core_binary.
  set (s := (ex - ey - _)%Z).
  set (m' := match s with Z0 => Z.pos mx | Zpos _ => Z.shiftl (Z.pos mx) s | Zneg _ => 0%Z end).
  assert (Hm' : (0 <= m')%Z).
  { subst m'. destruct s; [lia | apply Z.shiftl_nonneg; lia | lia]. }
  pose proof (Z.div_pos m' (Z.pos my) Hm' ltac:(lia)) as Hq.
  unfold Z.div in Hq.
  destruct (Z.div_eucl m' (Z.pos my)) as [q r]. cbn [fst] in Hq.
  apply binary_round_aux_not_nan. exact Hq.
Qed.

(** The quotient at line 188 is a number. *)
Lemma true_div_not_nan (a b : Z) :
  (0 < a < 2 ^ 53)%Z -> (0 < b < 2 ^ 53)%Z ->
  exists q, true_div a b = Ok q /\ q <> S754_nan.
Proof.
  intros Ha Hb. unfold true_div.
  destruct (Z.eqb_spec b 0); [lia|].
  destruct (b64_of_int_finite a Ha) as (ma & ea & ->).
  destruct (b64_of_int_finite b Hb) as (mb & eb & ->).
  eexists. split; [reflexivity|]. apply SFdiv_finite_not_nan.
Qed.

(** Iteration 0 passes the epoch test whatever the epoch length. *)
Lemma mod_is_zero_first (q : spec_float) :
  q <> S754_nan -> mod_is_zero 0 (py_max_1 q) = Ok true.
Proof.
  intros Hq. unfold py_max_1.
  destruct (SFltb q (b64_of_int 1)) eqn:E; [reflexivity|].
  destruct q as [s|s| |s m e].
  - rewrite SFltb_zero_one in E. discriminate.
  - destruct s; [discriminate E | reflexivity].
  - contradiction.
  - unfold mod_is_zero, float_rem.
    destruct (0 <=? e)%Z; cbn [Z.of_nat]; rewrite ?Z.mul_0_l, Zmod_0_l; destruct s; reflexivity.
Qed.

Lemma decays_first (epoch : pynum) (n : nat) :
  mod_is_zero 0 epoch = Ok true -> 0 < n -> 1 <= decays epoch n.
Proof.
  intros H0 Hn. destruct n as [|n]; [lia|]. clear Hn.
  induction n as [|n IH].
  - cbn [decays]. rewrite H0. lia.
  - change (decays epoch (S (S n)))
      with (decays epoch (S n)
            + match mod_is_zero (S n) epoch with Ok true => 1 | _ => 0 end).
    lia.
Qed.

(** ** The softmax and the gradients in exact arithmetic *)

Section ExactSoftmax.
Local Open Scope R_scope.

Lemma Rsum_plus (n : nat) (f g : nat -> R) :
  Rsum n (fun k => f k + g k) = Rsum n f + Rsum n g.
Proof.
  induction n as [|n IH].
  - rewrite !Rsum_0. lra.
  - rewrite !Rsum_S, IH. lra.
Qed.

Lemma Rsum_scal (n : nat) (c : R) (f : nat -> R) :
  Rsum n (fun k => c * f k) = c * Rsum n f.
Proof.
  induction n as [|n IH].
  - rewrite !Rsum_0. lra.
  - rewrite !Rsum_S, IH. lra.
Qed.

Lemma Rsum_div (n : nat) (c : R) (f : nat -> R) :
  Rsum n (fun k => f k / c) = Rsum n f / c.
Proof.
  induction n as [|n IH].
  - rewrite !Rsum_0. unfold Rdiv. lra.
  - rewrite !Rsum_S, IH. unfold Rdiv. lra.
Qed.

Lemma Rsum_const (n : nat) (c : R) : Rsum n (fun _ => c) = INR n * c.
Proof.
  induction n as [|n IH].
  - rewrite Rsum_0. simpl. lra.
  - rewrite Rsum_S, IH, S_INR. lra.
Qed.

Lemma Rsum_zero (n : nat) (f : nat -> R) :
  (forall k, (k < n)%nat -> f k = 0) -> Rsum n f = 0.
Proof.
  intros Hf. rewrite (Rsum_ext n f (fun _ => 0) Hf), Rsum_const. lra.
Qed.

Lemma Rsum_swap (n m : nat) (f : nat -> nat -> R) :
  Rsum n (fun i => Rsum m (fun j => f i j)) = Rsum m (fun j => Rsum n (fun i => f i j)).
Proof.
  induction n as [|n IH].
  - rewrite Rsum_0. symmetry. apply Rsum_zero. intros; apply Rsum_0.
  - rewrite Rsum_S, IH, <- Rsum_plus. apply Rsum_ext. intros j _.
    rewrite Rsum_S. reflexivity.
Qed.

Lemma Rsum_indicator (n k : nat) :
  (k < n)%nat -> Rsum n (fun c => if c =? k then 1 else 0) = 1.
Proof.
  induction n as [|n IH]; intros Hk; [lia|].
  rewrite Rsum_S. destruct (Nat.eqb_spec n k) as [->|Hne].
  - rewrite Rsum_zero; [lra|]. intros c Hc.
    destruct (Nat.eqb_spec c k); [lia | reflexivity].
  - rewrite IH by lia. lra.
Qed.

Lemma Rsum_le_term (n : nat) (f : nat -> R) (k : nat) :
  (forall j, (j < n)%nat -> 0 <= f j) -> (k < n)%nat -> f k <= Rsum n f.
Proof.
  induction n as [|n IH]; intros Hf Hk; [lia|].
  rewrite Rsum_S.
  assert (Hn : 0 <= f n) by (apply Hf; lia).
  assert (H0 : 0 <= Rsum n f) by (apply Rsum_nonneg; intros; apply Hf; lia).
  destruct (Nat.eq_dec k n) as [->|Hne]; [lra|].
  assert (f k <= Rsum n f) by (apply IH; [intros; apply Hf; lia | lia]).
  lra.
Qed.

Lemma Rdiv_le_one (a b : R) : 0 < b -> a <= b -> a / b <= 1.
Proof.
  intros Hb Hab. apply Rmult_le_reg_r with b; [exact Hb|].
  unfold Rdiv. rewrite Rmult_assoc, Rinv_l, Rmult_1_r, Rmult_1_l by lra. exact Hab.
Qed.

(** Row sums of exponentials are positive. *)
Lemma exp_row_sum_pos (n : nat) (f : nat -> R) :
  (0 < n)%nat -> 0 < Rsum n (fun c => exp (f c)).
Proof.
  intros Hn. apply (Rsum_pos n _ 0%nat); [|exact Hn|apply exp_pos].
  intros j _. left. apply exp_pos.
Qed.

(** X5.  In exact arithmetic each row of the array built at lines 98-99 is
    a probability distribution: its entries lie in (0, 1] and sum to 1. *)
Theorem softmax_rows_are_distributions (scores : mat R) (i : nat) :
  (0 < mcols scores)%nat ->
  let P := normalize_rows (np_exp scores) in
  (forall c, (c < mcols scores)%nat -> 0 < at2 P i c <= 1) /\
  Rsum (mcols scores) (fun c => at2 P i c) = 1.
Proof.
  intros HC P. subst P. cbn [normalize_rows np_exp map2 mrows mcols at2].
  change (sum_n (mcols scores) (fun c => sexp (at2 scores i c)))
    with (Rsum (mcols scores) (fun c => exp (at2 scores i c))).
  pose proof (exp_row_sum_pos (mcols scores) (at2 scores i) HC) as Hpos.
  split.
  - intros c Hc. change (sdiv ?a ?b) with (a / b). change (sexp ?a) with (exp a).
    split.
    + apply Rdiv_lt_0_compat; [apply exp_pos | exact Hpos].
    + apply Rdiv_le_one; [exact Hpos|].
      apply (Rsum_le_term (mcols scores) (fun c => exp (at2 scores i c)) c);
        [intros j _; left; apply exp_pos | exact Hc].
  - change (Rsum (mcols scores)
              (fun c => exp (at2 scores i c)
                        / Rsum (mcols scores) (fun c' => exp (at2 scores i c'))) = 1).
    rewrite Rsum_div. field. lra.
Qed.

Lemma probability_bounds (p : param_dict R) (X : mat R) (i c : nat) :
  (c < mcols (W2 p))%nat -> 0 < probability p X i c <= 1.
Proof.
  intros Hc. unfold probability.
  change (sum_n (mcols (W2 p)) (fun c' => sexp (score p X i c')))
    with (Rsum (mcols (W2 p)) (fun c' => exp (score p X i c'))).
  assert (HC : (0 < mcols (W2 p))%nat) by lia.
  pose proof (exp_row_sum_pos (mcols (W2 p)) (score p X i) HC) as Hpos.
  change (sdiv ?a ?b) with (a / b). change (sexp ?a) with (exp a).
  split.
  - apply Rdiv_lt_0_compat; [apply exp_pos | exact Hpos].
  - apply Rdiv_le_one; [exact Hpos|].
    apply (Rsum_le_term (mcols (W2 p)) (fun c => exp (score p X i c)) c);
      [intros j _; left; apply exp_pos | exact Hc].
Qed.

Lemma probability_sum (p : param_dict R) (X : mat R) (i : nat) :
  (0 < mcols (W2 p))%nat -> Rsum (mcols (W2 p)) (fun c => probability p X i c) = 1.
Proof.
  intros HC. unfold probability.
  change (Rsum (mcols (W2 p))
            (fun c => exp (score p X i c)
                      / Rsum (mcols (W2 p)) (fun c' => exp (score p X i c'))) = 1).
  rewrite Rsum_div.
  pose proof (exp_row_sum_pos (mcols (W2 p)) (score p X i) HC). field. lra.
Qed.

Lemma wrap_lt_C (C : nat) (y : vec Z) (i : nat) :
  labels_indexable y C -> (i < vlen y)%nat -> (indexed_class C y i < C)%nat.
Proof.
  intros Hy Hi. unfold indexed_class, wrap. specialize (Hy i Hi).
  destruct (Z.ltb_spec (at1 y i) 0); lia.
Qed.

Lemma data_loss_nonneg (p : param_dict R) (X : mat R) (cls : nat -> nat) :
  (0 < mrows X)%nat ->
  (forall i, (i < mrows X)%nat -> (cls i < mcols (W2 p))%nat) ->
  0 <= data_loss p X cls.
Proof.
  intros HN Hcls. unfold data_loss.
  change (0 <= Rsum (mrows X) (fun i => - ln (probability p X i (cls i)))
               / IZR (Z.of_nat (mrows X))).
  rewrite <- INR_IZR_INZ.
  apply Rmult_le_pos.
  - apply Rsum_nonneg. intros i Hi.
    destruct (probability_bounds p X i (cls i) (Hcls i Hi)) as (Hp0 & Hp1).
    destruct (Rle_lt_or_eq_dec _ _ Hp1) as [Hlt|Heq].
    + pose proof (ln_increasing _ _ Hp0 Hlt) as Hln. rewrite ln_1 in Hln. lra.
    + rewrite Heq, ln_1. lra.
  - left. apply Rinv_0_lt_compat. apply lt_0_INR. exact HN.
Qed.

(** X4.  In exact arithmetic, with [reg >= 0] the loss is never negative:
    it is at least the regularization term reg (|W1|^2 + |W2|^2) / 2, which
    is itself at least 0. *)
Theorem loss_is_nonnegative
  (p : param_dict R) (X : mat R) (y : vec Z) (reg : R) (N D H C : nat) :
  net_shape p D H C -> batch_shape X y N D -> (0 < N)%nat -> labels_indexable y C ->
  0 <= reg ->
  exists l g,
    loss p X (Some y) reg = Ok (LossGrads l g) /\
    0 <= reg * (sum_squares (W1 p) + sum_squares (W2 p)) / 2 <= l.
Proof.
  intros Hnet HX HN Hy Hreg.
  destruct (loss_run p X y reg N D H C Hnet HX HN Hy)
    as (l & g & Hloss & Hl & _).
  exists l, g. split; [exact Hloss|].
  destruct Hnet as (_ & _ & _ & _ & HW2c & _). destruct HX as (HXr & _ & Hyl).
  assert (Hd : 0 <= data_loss p X (indexed_class C y)).
  { apply data_loss_nonneg; [lia|]. intros i Hi. rewrite HW2c.
    apply wrap_lt_C; [exact Hy | lia]. }
  pose proof (sum_squares_nonneg (W1 p)). pose proof (sum_squares_nonneg (W2 p)).
  rewrite Hl.
  change (0 <= reg * (sum_squares (W1 p) + sum_squares (W2 p)) / 2
          <= data_loss p X (indexed_class C y)
             + reg * (sum_squares (W1 p) + sum_squares (W2 p)) / 2).
  split; [|lra].
  apply Rmult_le_pos; [|lra]. apply Rmult_le_pos; lra.
Qed.

Lemma dScores_row_sum (p : param_dict R) (X : mat R) (cls : nat -> nat) (i : nat) :
  (cls i < mcols (W2 p))%nat ->
  Rsum (mcols (W2 p)) (fun c => dScores p X cls i c) = 0.
Proof.
  intros Hc.
  rewrite (Rsum_ext _ _ (fun c => probability p X i c + - (if c =? cls i then 1 else 0))).
  - rewrite Rsum_plus, probability_sum by lia.
    rewrite (Rsum_ext _ (fun c => - (if c =? cls i then 1 else 0))
                        (fun c => (-1) * (if c =? cls i then 1 else 0))).
    + rewrite Rsum_scal, Rsum_indicator by exact Hc. lra.
    + intros; lra.
  - intros c _. rewrite dScores_minus. lra.
Qed.

(** X7.  In exact arithmetic the entries of the gradient of the output
    biases, [grads['b2']], sum to zero: the softmax probabilities of a row
    sum to 1 and line 141 subtracts 1 in exactly one column. *)
Theorem loss_b2_gradient_sums_to_zero
  (p : param_dict R) (X : mat R) (y : vec Z) (reg : R) (N D H C : nat) :
  net_shape p D H C -> batch_shape X y N D -> (0 < N)%nat -> labels_indexable y C ->
  exists l g,
    loss p X (Some y) reg = Ok (LossGrads l g) /\
    vlen (b2 g) = C /\
    Rsum C (fun c => at1 (b2 g) c) = 0.
Proof.
  intros Hnet HX HN Hy.
  destruct (loss_run p X y reg N D H C Hnet HX HN Hy)
    as (l & g & Hloss & _ & Hg & _ & _ & _ & Hb2).
  exists l, g. split; [exact Hloss|].
  destruct Hg as (_ & _ & _ & _ & _ & Gb2). split; [exact Gb2|].
  destruct Hnet as (_ & _ & _ & _ & HW2c & _). destruct HX as (HXr & _ & Hyl).
  rewrite (Rsum_ext C _
             (fun c => Rsum N (fun i => dScores p X (indexed_class C y) i c)
                       / IZR (Z.of_nat N))).
  - rewrite Rsum_div, <- Rsum_swap.
    rewrite Rsum_zero; [unfold Rdiv; lra|].
    intros i Hi. rewrite <- HW2c. apply dScores_row_sum.
    rewrite HW2c. apply wrap_lt_C; [exact Hy | lia].
  - intros c Hc. rewrite (Hb2 c Hc).
    change (Rsum N (fun i => 1 * dScores p X (indexed_class C y) i c) / IZR (Z.of_nat N)
            = Rsum N (fun i => dScores p X (indexed_class C y) i c) / IZR (Z.of_nat N)).
    f_equal. apply Rsum_ext. intros; lra.
Qed.

(** X8.  A hidden unit that is inactive on every row of the batch (its
    pre-activation is at most 0, so that line 148 zeroes its column of da1)
    receives no data gradient: its bias gradient is 0 and the gradients of
    its incoming and outgoing weights are the regularization terms
    reg W1[d, h] and reg W2[h, c] alone. *)
Theorem loss_dead_unit_gradients
  (p : param_dict R) (X : mat R) (y : vec Z) (reg : R) (N D H C : nat) (h : nat) :
  net_shape p D H C -> batch_shape X y N D -> (0 < N)%nat -> labels_indexable y C ->
  (h < H)%nat ->
  (forall i, (i < N)%nat ->
     Rsum D (fun d => at2 X i d * at2 (W1 p) d h) + at1 (b1 p) h <= 0) ->
  exists l g,
    loss p X (Some y) reg = Ok (LossGrads l g) /\
    at1 (b1 g) h = 0 /\
    (forall d, (d < D)%nat -> at2 (W1 g) d h = reg * at2 (W1 p) d h) /\
    (forall c, (c < C)%nat -> at2 (W2 g) h c = reg * at2 (W2 p) h c).
Proof.
  intros Hnet HX HN Hy Hh Hdead.
  destruct (loss_run p X y reg N D H C Hnet HX HN Hy)
    as (l & g & Hloss & _ & _ & HW1 & Hb1 & HW2 & _).
  exists l, g. split; [exact Hloss|].
  destruct HX as (HXr & HXc & Hyl).
  assert (Hhid : forall i, (i < N)%nat -> hidden p X i h = 0).
  { intros i Hi. rewrite hidden_Rmax, HXc. apply Rmax_left. apply Hdead. exact Hi. }
  assert (HdA : forall i, (i < N)%nat -> dA1 p X (indexed_class C y) i h = 0).
  { intros i Hi. apply (dA1_gate p X (indexed_class C y) i h).
    rewrite Hhid by exact Hi. lra. }
  split; [|split].
  - rewrite (Hb1 h Hh).
    change (Rsum N (fun i => 1 * dA1 p X (indexed_class C y) i h) / IZR (Z.of_nat N) = 0).
    rewrite Rsum_zero; [unfold Rdiv; lra|]. intros i Hi. rewrite HdA by exact Hi. lra.
  - intros d Hd. rewrite (HW1 d h Hd Hh).
    change (Rsum N (fun i => at2 X i d * dA1 p X (indexed_class C y) i h) / IZR (Z.of_nat N)
            + reg * at2 (W1 p) d h = reg * at2 (W1 p) d h).
    rewrite Rsum_zero; [unfold Rdiv; lra|]. intros i Hi. rewrite HdA by exact Hi. lra.
  - intros c Hc. rewrite (HW2 h c Hh Hc).
    change (Rsum N (fun i => hidden p X i h * dScores p X (indexed_class C y) i c)
            / IZR (Z.of_nat N)
            + reg * at2 (W2 p) h c = reg * at2 (W2 p) h c).
    rewrite Rsum_zero; [unfold Rdiv; lra|]. intros i Hi. rewrite Hhid by exact Hi. lra.
Qed.

End ExactSoftmax.

Section ExactZeroWeights.
Local Open Scope R_scope.

Lemma better_R (x best : R) : better x best = Rltb best x.
Proof. unfold better. cbn. now rewrite orb_false_r. Qed.

Lemma argmax_from_max (row : nat -> R) (n best j : nat) :
  (best < j)%nat ->
  (forall c, (c < j)%nat -> row c <= row best) ->
  (forall c, (c < best)%nat -> row c < row best) ->
  (forall c, (c < j + n)%nat -> row c <= row (argmax_from row best j n)) /\
  (forall c, (c < argmax_from row best j n)%nat -> row c < row (argmax_from row best j n)).
Proof.
  revert best j. induction n as [|n IH]; intros best j Hb Hmax Hfirst.
  - cbn [argmax_from]. rewrite Nat.add_0_r. split; assumption.
  - cbn [argmax_from]. replace (j + S n)%nat with (S j + n)%nat by lia.
    rewrite better_R. unfold Rltb.
    destruct (Rlt_dec (row best) (row j)) as [Hlt|Hge].
    + apply IH; [lia| |].
      * intros c Hc. destruct (Nat.eq_dec c j) as [->|Hne]; [lra|].
        specialize (Hmax c ltac:(lia)). lra.
      * intros c Hc. specialize (Hmax c Hc). lra.
    + apply IH; [lia| |exact Hfirst].
      intros c Hc. destruct (Nat.eq_dec c j) as [->|Hne]; [lra|].
      apply Hmax. lia.
Qed.

(** X14.  In exact arithmetic the label that [predict] gives to a row is a
    position of the largest entry of that row of the scores returned by
    [loss] without labels, and the first such position: every score before
    it is strictly smaller. *)
Theorem predict_first_largest_score
  (p : param_dict R) (X : mat R) (reg : R) (N D H C : nat) :
  net_shape p D H C -> mrows X = N -> mcols X = D -> (0 < C)%nat ->
  exists scores y_pred,
    loss p X None reg = Ok (Scores scores) /\
    predict p X = Ok y_pred /\
    forall i c, (i < N)%nat -> (c < C)%nat ->
      at2 scores i c <= at2 scores i (at1 y_pred i) /\
      ((c < at1 y_pred i)%nat -> at2 scores i c < at2 scores i (at1 y_pred i)).
Proof.
  intros Hnet HXr HXc HC.
  destruct (forward_run p X D H C Hnet HXc)
    as (a1 & s & Hfw & _ & _ & Hsr & Hsc & _ & Hs).
  destruct (predict_value p X D H C Hnet HXc HC) as (y_pred & Hpred & Hlen & Hval).
  exists s, y_pred. split; [unfold loss; rewrite Hfw; reflexivity|].
  split; [exact Hpred|]. intros i c Hi Hc.
  destruct (argmax_from_max (score p X i) (C - 1) 0 1) as (Hmax & Hfirst);
    [lia | intros c' Hc'; replace c' with 0%nat by lia; lra | intros c' Hc'; lia |].
  assert (Hlt : (at1 y_pred i < C)%nat).
  { rewrite Hval. pose proof (argmax_from_lt (score p X i) (C - 1) 0 1). lia. }
  rewrite !Hs by assumption. rewrite Hval. split.
  - apply Hmax. lia.
  - intros Hc'. apply Hfirst. exact Hc'.
Qed.

(** ** Networks whose weights are zero *)

Lemma init_zero_std (D H C : nat) (randn1 randn2 : nat -> nat -> R) :
  weights_zero (init D H C 0 randn1 randn2).
Proof.
  unfold weights_zero, init. cbn. repeat split; intros; lra.
Qed.

Lemma hidden_weights_zero (p : param_dict R) (X : mat R) (D H C : nat) (i h : nat) :
  net_shape p D H C -> mcols X = D -> weights_zero p -> (h < H)%nat ->
  hidden p X i h = 0.
Proof.
  intros (HW1r & HW1c & Hb1 & _) HXc (Z1 & Zb & _) Hh.
  rewrite hidden_Rmax, HXc.
  rewrite Rsum_zero.
  - rewrite Zb by lia. rewrite Rplus_0_l. apply Rmax_left. lra.
  - intros d Hd. rewrite Z1 by lia. lra.
Qed.

Lemma score_weights_zero (p : param_dict R) (X : mat R) (D H C : nat) (i c : nat) :
  net_shape p D H C -> mcols X = D -> weights_zero p -> (c < C)%nat ->
  score p X i c = at1 (b2 p) c.
Proof.
  intros Hnet HXc Hz Hc. unfold score.
  change (Rsum (mrows (W2 p)) (fun h => hidden p X i h * at2 (W2 p) h c) + at1 (b2 p) c
          = at1 (b2 p) c).
  destruct Hnet as (HW1r & HW1c & Hb1 & HW2r & HW2c & Hb2).
  destruct Hz as (Z1 & Zb & Z2).
  rewrite Rsum_zero; [lra|]. intros h Hh. rewrite Z2 by lia. lra.
Qed.

(** With all weights and hidden biases zero the hidden layer is inactive,
    and the gradients of W1, b1 and W2 are zero. *)
Lemma loss_weights_zero_run
  (p : param_dict R) (X : mat R) (y : vec Z) (reg : R) (N D H C : nat) :
  net_shape p D H C -> batch_shape X y N D -> (0 < N)%nat -> labels_indexable y C ->
  weights_zero p ->
  exists l g,
    loss p X (Some y) reg = Ok (LossGrads l g) /\ net_shape g D H C /\ weights_zero g.
Proof.
  intros Hnet HX HN Hy Hz.
  destruct (loss_run p X y reg N D H C Hnet HX HN Hy)
    as (l & g & Hloss & _ & Hg & HW1 & Hb1 & HW2 & _).
  exists l, g. split; [exact Hloss|]. split; [exact Hg|].
  destruct HX as (HXr & HXc & Hyl).
  assert (Hhid : forall i h, (h < H)%nat -> hidden p X i h = 0).
  { intros i h Hh. apply (hidden_weights_zero p X D H C); assumption. }
  assert (HdA : forall i h, (h < H)%nat -> dA1 p X (indexed_class C y) i h = 0).
  { intros i h Hh. apply (dA1_gate p X (indexed_class C y) i h).
    rewrite Hhid by exact Hh. lra. }
  destruct Hg as (G1r & G1c & Gb1 & G2r & G2c & Gb2).
  destruct Hnet as (HW1r & HW1c & Hb1l & HW2r & HW2c & Hb2l).
  destruct Hz as (Z1 & Zb & Z2).
  unfold weights_zero. rewrite G1r, G1c, Gb1, G2r, G2c.
  split; [|split].
  - intros d h Hd Hh. rewrite (HW1 d h Hd Hh).
    change (Rsum N (fun i => at2 X i d * dA1 p X (indexed_class C y) i h) / IZR (Z.of_nat N)
            + reg * at2 (W1 p) d h = 0).
    rewrite Z1 by lia.
    rewrite Rsum_zero; [unfold Rdiv; lra|]. intros i Hi. rewrite HdA by exact Hh. lra.
  - intros h Hh. rewrite (Hb1 h Hh).
    change (Rsum N (fun i => 1 * dA1 p X (indexed_class C y) i h) / IZR (Z.of_nat N) = 0).
    rewrite Rsum_zero; [unfold Rdiv; lra|]. intros i Hi. rewrite HdA by exact Hh. lra.
  - intros h c Hh Hc. rewrite (HW2 h c Hh Hc).
    change (Rsum N (fun i => hidden p X i h * dScores p X (indexed_class C y) i c)
            / IZR (Z.of_nat N)
            + reg * at2 (W2 p) h c = 0).
    rewrite Z2 by lia.
    rewrite Rsum_zero; [unfold Rdiv; lra|]. intros i Hi. rewrite Hhid by exact Hh. lra.
Qed.

Lemma sum_squares_zero (A : mat R) :
  (forall i j, (i < mrows A)%nat -> (j < mcols A)%nat -> at2 A i j = 0) ->
  sum_squares A = 0.
Proof.
  intros Hz. unfold sum_squares.
  apply (Rsum_zero (mrows A)). intros i Hi.
  apply (Rsum_zero (mcols A)). intros j Hj. rewrite Hz by assumption.
  change (0 * 0 = 0). lra.
Qed.

(** X10.  The network that the constructor builds with [std = 0] (lines
    37-41) gives every class the same probability: in exact arithmetic its
    loss on any well-shaped batch is ln C, for every [reg]. *)
Theorem loss_of_zero_init
  (X : mat R) (y : vec Z) (reg : R) (N D H C : nat) (randn1 randn2 : nat -> nat -> R) :
  batch_shape X y N D -> (0 < N)%nat -> labels_indexable y C ->
  exists l g,
    loss (init D H C 0 randn1 randn2) X (Some y) reg = Ok (LossGrads l g) /\
    l = ln (INR C).
Proof.
  intros HX HN Hy.
  set (p := init D H C 0 randn1 randn2).
  assert (Hnet : net_shape p D H C) by apply init_shape.
  assert (Hz : weights_zero p) by apply init_zero_std.
  destruct (loss_run p X y reg N D H C Hnet HX HN Hy)
    as (l & g & Hloss & Hl & _).
  exists l, g. split; [exact Hloss|]. rewrite Hl.
  destruct HX as (HXr & HXc & Hyl).
  assert (HC : (0 < C)%nat).
  { pose proof (Hy 0%nat ltac:(lia)). lia. }
  assert (Hprob : forall i c, (c < C)%nat -> probability p X i c = / INR C).
  { intros i c Hc. unfold probability.
    change (exp (score p X i c)
            / Rsum (mcols (W2 p)) (fun c' => exp (score p X i c')) = / INR C).
    change (mcols (W2 p)) with C.
    rewrite (Rsum_ext C _ (fun _ => 1)).
    - rewrite Rsum_const, (score_weights_zero p X D H C) by assumption.
      change (at1 (b2 p) c) with 0. rewrite exp_0. unfold Rdiv. rewrite Rmult_1_r. lra.
    - intros c' Hc'. rewrite (score_weights_zero p X D H C) by assumption.
      change (at1 (b2 p) c') with 0. apply exp_0. }
  assert (Hd : data_loss p X (indexed_class C y) = ln (INR C)).
  { unfold data_loss.
    change (Rsum (mrows X) (fun i => - ln (probability p X i (indexed_class C y i)))
            / IZR (Z.of_nat (mrows X)) = ln (INR C)).
    rewrite HXr, <- INR_IZR_INZ.
    rewrite (Rsum_ext N _ (fun _ => ln (INR C))).
    - rewrite Rsum_const. field. apply not_0_INR. lia.
    - intros i Hi. rewrite Hprob by (apply wrap_lt_C; [exact Hy | lia]).
      rewrite ln_Rinv by (apply lt_0_INR; exact HC). lra. }
  rewrite Hd.
  destruct Hz as (Z1 & Zb & Z2).
  rewrite (sum_squares_zero (W1 p) Z1), (sum_squares_zero (W2 p) Z2).
  change (ln (INR C) + reg * (0 + 0) / 2 = ln (INR C)). lra.
Qed.

End ExactZeroWeights.

(** ** What [train] returns *)

Section Histories.
Context {F : Type} {SF : Scalar F}.

(** X17.  What [train] returns on well-formed data (sizes below 2^53):
    one loss per iteration; the two accuracy histories have the same length,
    at most [num_iters] and at least 1 as soon as there is an iteration,
    because iteration 0 always passes the epoch test of line 232; and the
    learning rate has been multiplied by the decay once per recorded
    accuracy. *)
Theorem train_histories
  (X : mat F) (y : vec Z) (X_val : mat F) (y_val : vec Z)
  (learning_rate0 learning_rate_decay reg : F)
  (num_iters : nat) (batch_size : Z) (verbose : bool)
  (rng : nat -> nat -> nat) (net : param_dict F) (Nt Nv D H C : nat) :
  net_shape net D H C -> 0 < C ->
  batch_shape X y Nt D -> 0 < Nt -> labels_in y C ->
  batch_shape X_val y_val Nv D ->
  (Z.of_nat Nt < 2 ^ 53)%Z -> (0 < batch_size < 2 ^ 53)%Z ->
  exists s,
    train X y X_val y_val learning_rate_decay reg num_iters batch_size
          verbose rng net learning_rate0 = Ok s /\
    length (loss_history s) = num_iters /\
    length (val_acc_history s) = length (train_acc_history s) /\
    length (train_acc_history s) <= num_iters /\
    (0 < num_iters -> 1 <= length (train_acc_history s)) /\
    learning_rate s
    = decayed learning_rate0 learning_rate_decay (length (train_acc_history s)).
Proof.
  intros Hnet HC HX HNt Hy Hval HNb Hb.
  destruct (train_outcome X y X_val y_val learning_rate_decay reg num_iters batch_size
              verbose rng Nt Nv D H C HC HX HNt Hy ltac:(lia) Hval net learning_rate0 Hnet)
    as (epoch & s & Hep & Hs & _ & Hl & Hr & Ht & Hv).
  exists s. split; [exact Hs|]. split; [exact Hl|]. split; [congruence|].
  rewrite Ht. split; [apply decays_le|]. split; [|exact Hr].
  intros Hn. apply decays_first; [|exact Hn].
  destruct HX as (HXr & _ & _).
  unfold iterations_per_epoch in Hep. rewrite HXr in Hep.
  destruct (true_div_not_nan (Z.of_nat Nt) batch_size ltac:(lia) Hb) as (q & Hq & Hnan).
  rewrite Hq in Hep. cbn [bind] in Hep. injection Hep as <-.
  apply mod_is_zero_first. exact Hnan.
Qed.
End Histories.

Section ExactTraining.
Local Open Scope R_scope.

Lemma params_eq_trans {T : Type} (p q r : param_dict T) :
  params_eq p q -> params_eq q r -> params_eq p r.
Proof.
  unfold params_eq, mat_eq, vec_eq.
  intros ((A1 & A2 & A3) & (B1 & B2) & (C1 & C2 & C3) & (D1 & D2))
         ((A1' & A2' & A3') & (B1' & B2') & (C1' & C2' & C3') & (D1' & D2')).
  repeat split; try congruence.
  - intros i j Hi Hj. rewrite A3 by assumption. apply A3'; congruence.
  - intros i Hi. rewrite B2 by assumption. apply B2'; congruence.
  - intros i j Hi Hj. rewrite C3 by assumption. apply C3'; congruence.
  - intros i Hi. rewrite D2 by assumption. apply D2'; congruence.
Qed.

Lemma params_eq_refl {T : Type} (p : param_dict T) : params_eq p p.
Proof. unfold params_eq, mat_eq, vec_eq. repeat split; reflexivity. Qed.

Lemma inplace2_rate_zero (A B M : mat R) :
  inplace2 ssub A (scale 0 B) = Ok M -> mat_eq A M.
Proof.
  unfold inplace2. destruct (_ && _); [|discriminate].
  intros E. injection E as <-. unfold mat_eq. cbn.
  repeat split; try reflexivity. intros i j _ _. lra.
Qed.

Lemma inplace1_rate_zero (u v w : vec R) :
  inplace1 ssub u (scale1 0 v) = Ok w -> vec_eq u w.
Proof.
  unfold inplace1. destruct (fits _ _); [|discriminate].
  intros E. injection E as <-. unfold vec_eq. cbn.
  split; [reflexivity|]. intros i _. lra.
Qed.

(** X21.  In exact arithmetic [train] with learning rate 0 never changes
    the parameters: it computes its [num_iters] losses, and W1, b1, W2 and
    b2 end with the entries they started with. *)
Theorem train_rate_zero_keeps_parameters
  (X : mat R) (y : vec Z) (X_val : mat R) (y_val : vec Z)
  (learning_rate_decay reg : R)
  (num_iters : nat) (batch_size : Z) (verbose : bool)
  (rng : nat -> nat -> nat) (net : param_dict R) (Nt Nv D H C : nat) :
  net_shape net D H C -> (0 < C)%nat ->
  batch_shape X y Nt D -> (0 < Nt)%nat -> labels_in y C -> (0 < batch_size)%Z ->
  batch_shape X_val y_val Nv D ->
  exists s,
    train X y X_val y_val learning_rate_decay reg num_iters batch_size
          verbose rng net 0 = Ok s /\
    params_eq net (params s) /\ learning_rate s = 0 /\
    length (loss_history s) = num_iters.
Proof.
  intros Hnet HC HX HNt Hy Hb Hval.
  destruct (train_outcome X y X_val y_val learning_rate_decay reg num_iters batch_size
              verbose rng Nt Nv D H C HC HX HNt Hy Hb Hval net 0 Hnet)
    as (epoch & s & Hep & Hs & _ & Hl & _).
  exists s. split; [exact Hs|].
  unfold train in Hs. rewrite Hep in Hs. cbn [bind] in Hs.
  assert (Hinv : params_eq net (params s) /\ learning_rate s = 0).
  { apply (train_iters_invariant X y X_val y_val learning_rate_decay reg num_iters
             batch_size verbose rng
             (fun s => params_eq net (params s) /\ learning_rate s = 0) epoch)
      with (n := num_iters) (s0 := mkstate net 0 [] [] [] []);
      [|split; [apply params_eq_refl | reflexivity] | exact Hs].
    intros it s1 s2 (Hp & Hr) E.
    destruct (train_step_update _ _ _ _ _ _ _ _ _ _ _ _ _ _ E)
      as (idx & yb & l & g & _ & _ & _ & _ & E1 & E2 & E3 & E4 & _).
    rewrite Hr in E1, E2, E3, E4.
    apply train_step_effect in E. destruct E as (_ & _ & b & _ & Hr' & _).
    split.
    - apply (params_eq_trans net (params s1) (params s2) Hp).
      unfold params_eq.
      split; [exact (inplace2_rate_zero _ _ _ E1)|].
      split; [exact (inplace1_rate_zero _ _ _ E2)|].
      split; [exact (inplace2_rate_zero _ _ _ E3)|].
      exact (inplace1_rate_zero _ _ _ E4).
    - rewrite Hr', Hr. destruct b; [apply Rmult_0_l | reflexivity]. }
  tauto.
Qed.

Lemma take_labels (y : vec Z) (idx : vec nat) (yb : vec Z) (C : nat) :
  labels_in y C -> take y idx = Ok yb ->
  vlen yb = vlen idx /\ labels_indexable yb C.
Proof.
  intros Hy. unfold take.
  destruct (forallb _ _) eqn:E; [|discriminate].
  intros E'. injection E' as <-. cbn. split; [reflexivity|].
  intros k Hk. cbn in *.
  rewrite forallb_forall in E. specialize (E k). rewrite in_seq in E.
  specialize (E ltac:(lia)). apply Nat.ltb_lt in E.
  specialize (Hy (at1 idx k) E). lia.
Qed.

Lemma random_choice_len (rng : nat -> nat -> nat) (it n : nat) (b : Z) (idx : vec nat) :
  random_choice rng it n b = Ok idx -> vlen idx = Z.to_nat b.
Proof.
  unfold random_choice. destruct (b <? 0)%Z; [discriminate|].
  destruct (_ && _); [discriminate|]. intros E. injection E as <-. reflexivity.
Qed.

(** X22.  In exact arithmetic a network whose weights and hidden biases are
    all zero (as built with [std = 0]) never learns them: after [train],
    whatever the data and the rates, W1, b1 and W2 are still zero; only b2
    has moved, and [predict] gives every row of every input the same
    label. *)
Theorem train_zero_weights_never_learn
  (X : mat R) (y : vec Z) (X_val : mat R) (y_val : vec Z)
  (learning_rate0 learning_rate_decay reg : R)
  (num_iters : nat) (batch_size : Z) (verbose : bool)
  (rng : nat -> nat -> nat) (net : param_dict R) (Nt Nv D H C : nat) :
  net_shape net D H C -> (0 < C)%nat ->
  batch_shape X y Nt D -> (0 < Nt)%nat -> labels_in y C -> (0 < batch_size)%Z ->
  batch_shape X_val y_val Nv D ->
  weights_zero net ->
  exists s,
    train X y X_val y_val learning_rate_decay reg num_iters batch_size
          verbose rng net learning_rate0 = Ok s /\
    weights_zero (params s) /\
    forall X', mcols X' = D ->
      exists y_pred, predict (params s) X' = Ok y_pred /\
                     forall i j, at1 y_pred i = at1 y_pred j.
Proof.
  intros Hnet HC HX HNt Hy Hb Hval Hz.
  destruct (train_outcome X y X_val y_val learning_rate_decay reg num_iters batch_size
              verbose rng Nt Nv D H C HC HX HNt Hy Hb Hval net learning_rate0 Hnet)
    as (epoch & s & Hep & Hs & Hsh & _).
  exists s. split; [exact Hs|].
  unfold train in Hs. rewrite Hep in Hs. cbn [bind] in Hs.
  assert (Hinv : net_shape (params s) D H C /\ weights_zero (params s)).
  { apply (train_iters_invariant X y X_val y_val learning_rate_decay reg num_iters
             batch_size verbose rng
             (fun s => net_shape (params s) D H C /\ weights_zero (params s)) epoch)
      with (n := num_iters) (s0 := mkstate net learning_rate0 [] [] [] []);
      [|split; assumption | exact Hs].
    intros it s1 s2 (Hn1 & Hz1) E.
    pose proof E as E0.
    destruct (train_step_update _ _ _ _ _ _ _ _ _ _ _ _ _ _ E)
      as (idx & yb & l & g & Eidx & _ & Eyb & El & E1 & E2 & E3 & _ & _).
    apply train_step_effect in E0. destruct E0 as (Hsame & _).
    pose proof (same_shape_net _ _ D H C Hsame Hn1) as Hn2.
    split; [exact Hn2|].
    destruct (take_labels y idx yb C Hy Eyb) as (Hlen & Hyb).
    pose proof (random_choice_len _ _ _ _ _ Eidx) as Hil.
    destruct HX as (HXr & HXc & Hyl).
    assert (HB : batch_shape (selected_rows X idx) yb (vlen idx) D).
    { unfold batch_shape. cbn. auto. }
    destruct (loss_weights_zero_run (params s1) (selected_rows X idx) yb reg
                (vlen idx) D H C Hn1 HB ltac:(lia) Hyb Hz1)
      as (l' & g' & El' & Hg & Hgz).
    rewrite El in El'. injection El' as <- <-.
    destruct Hn1 as (N1 & N2 & N3 & N4 & N5 & N6).
    destruct Hn2 as (M1 & M2 & M3 & M4 & M5 & M6).
    destruct Hg as (G1 & G2 & G3 & G4 & G5 & G6).
    destruct Hz1 as (Z1 & Zb & Z2). destruct Hgz as (Y1 & Yb & Y2).
    rewrite inplace2_ok in E1, E3 by (cbn; congruence).
    rewrite inplace1_ok in E2 by (cbn; congruence).
    injection E1 as E1. injection E2 as E2. injection E3 as E3.
    unfold weights_zero. rewrite <- E1, <- E2, <- E3. cbn.
    split; [|split].
    + intros d h Hd Hh. rewrite G1, G2, !pick_lt by lia.
      rewrite Z1, Y1 by lia. lra.
    + intros h Hh. rewrite G3, pick_lt by lia. rewrite Zb, Yb by lia. lra.
    + intros h c Hh Hc. rewrite G4, G5, !pick_lt by lia.
      rewrite Z2, Y2 by lia. lra. }
  destruct Hinv as (Hn & Hzs). split; [exact Hzs|].
  intros X' HX'.
  destruct (predict_value (params s) X' D H C Hn HX' HC) as (y_pred & Hp & _ & Hv).
  exists y_pred. split; [exact Hp|]. intros i j. rewrite !Hv.
  apply argmax_from_ext with (C := C); [|lia|lia].
  intros c Hc. rewrite !(score_weights_zero (params s) X' D H C) by assumption.
  reflexivity.
Qed.

End ExactTraining.

Section TurnAccuracies.
Context {F : Type} {SF : Scalar F}.
Variables (X : mat F) (y : vec Z) (X_val : mat F) (y_val : vec Z).
Variables (learning_rate_decay reg : F).
Variables (num_iters : nat) (batch_size : Z) (verbose : bool).
Variable rng : nat -> nat -> nat.

(** Lines 232-243 of one turn: what is appended to the accuracy histories. *)
Lemma train_step_accuracies (epoch : pynum) (it : nat) (s s' : train_state) :
  train_step X y X_val y_val learning_rate_decay reg num_iters batch_size verbose rng
             epoch it s = Ok s' ->
  (train_acc_history s' = train_acc_history s /\ val_acc_history s' = val_acc_history s) \/
  (exists idx y_batch p_batch train_acc p_val val_acc,
      random_choice rng it (mrows X) batch_size = Ok idx /\
      take y idx = Ok y_batch /\
      predict (params s') (selected_rows X idx) = Ok p_batch /\
      accuracy p_batch y_batch = Ok train_acc /\
      predict (params s') X_val = Ok p_val /\
      accuracy p_val y_val = Ok val_acc /\
      train_acc_history s' = train_acc_history s ++ [train_acc] /\
      val_acc_history s' = val_acc_history s ++ [val_acc]).
Proof.
  unfold train_step. intros E.
  bind_as E idx Eidx. bind_as E X_batch EX. bind_as E y_batch Ey. bind_as E r Er.
  destruct (take_rows_inv _ _ _ EX) as (-> & _).
  destruct r as [sc | l g]; [discriminate|].
  bind_as E w1 Ew1. bind_as E w2 Ew2. bind_as E c1 Ec1. bind_as E c2 Ec2.
  bind_as E boundary Eb.
  destruct boundary.
  - bind_as E pb Epb. bind_as E ta Eta. bind_as E pv Epv. bind_as E va Eva.
    injection E as <-. right. exists idx, y_batch, pb, ta, pv, va. cbn. auto 10.
  - injection E as <-. left. cbn. auto.
Qed.

End TurnAccuracies.

Section ExactAccuracies.
Local Open Scope R_scope.

Lemma count_eq_le (p : vec nat) (y : vec Z) (L : nat) : (count_eq p y L <= L)%nat.
Proof.
  unfold count_eq.
  pose proof (filter_length_le
                (fun k => (Z.of_nat (at1 p (pick (vlen p) k)) =? at1 y (pick (vlen y) k))%Z)
                (seq 0 L)) as Hle.
  rewrite length_seq in Hle. exact Hle.
Qed.

Lemma accuracy_unit_interval (p : vec nat) (y : vec Z) (a : R) :
  vlen p = vlen y -> (0 < vlen y)%nat -> accuracy p y = Ok a -> 0 <= a <= 1.
Proof.
  intros E Hpos. unfold accuracy. rewrite E, bcast_dim_same. intros Ea.
  injection Ea as <-.
  change (0 <= IZR (Z.of_nat (count_eq p y (vlen y))) / IZR (Z.of_nat (vlen y)) <= 1).
  rewrite <- !INR_IZR_INZ.
  pose proof (count_eq_le p y (vlen y)) as Hle.
  apply le_INR in Hle. pose proof (pos_INR (count_eq p y (vlen y))) as H0.
  assert (HL : 0 < INR (vlen y)) by (apply lt_0_INR; exact Hpos).
  split.
  - apply Rmult_le_pos; [exact H0|]. left. apply Rinv_0_lt_compat. exact HL.
  - apply Rdiv_le_one; assumption.
Qed.

(** X20.  In exact arithmetic, with a validation set that is not empty,
    every training and validation accuracy that [train] records lies
    between 0 and 1. *)
Theorem train_accuracies_in_unit_interval
  (X : mat R) (y : vec Z) (X_val : mat R) (y_val : vec Z)
  (learning_rate0 learning_rate_decay reg : R)
  (num_iters : nat) (batch_size : Z) (verbose : bool)
  (rng : nat -> nat -> nat) (net : param_dict R) (Nt Nv D H C : nat) :
  net_shape net D H C -> (0 < C)%nat ->
  batch_shape X y Nt D -> (0 < Nt)%nat -> labels_in y C -> (0 < batch_size)%Z ->
  batch_shape X_val y_val Nv D -> (0 < Nv)%nat ->
  exists s,
    train X y X_val y_val learning_rate_decay reg num_iters batch_size
          verbose rng net learning_rate0 = Ok s /\
    Forall (fun a => 0 <= a <= 1) (train_acc_history s) /\
    Forall (fun a => 0 <= a <= 1) (val_acc_history s).
Proof.
  intros Hnet HC HX HNt Hy Hb Hval HNv.
  destruct (train_outcome X y X_val y_val learning_rate_decay reg num_iters batch_size
              verbose rng Nt Nv D H C HC HX HNt Hy Hb Hval net learning_rate0 Hnet)
    as (epoch & s & Hep & Hs & _).
  exists s. split; [exact Hs|].
  unfold train in Hs. rewrite Hep in Hs. cbn [bind] in Hs.
  assert (Hinv : net_shape (params s) D H C /\
                 Forall (fun a => 0 <= a <= 1) (train_acc_history s) /\
                 Forall (fun a => 0 <= a <= 1) (val_acc_history s)).
  { apply (train_iters_invariant X y X_val y_val learning_rate_decay reg num_iters
             batch_size verbose rng
             (fun s => net_shape (params s) D H C /\
                       Forall (fun a => 0 <= a <= 1) (train_acc_history s) /\
                       Forall (fun a => 0 <= a <= 1) (val_acc_history s)) epoch)
      with (n := num_iters) (s0 := mkstate net learning_rate0 [] [] [] []);
      [|cbn; auto | exact Hs].
    intros it s1 s2 (Hn1 & Ht & Hv) E.
    pose proof E as E0.
    apply train_step_effect in E0. destruct E0 as (Hsame & _).
    pose proof (same_shape_net _ _ D H C Hsame Hn1) as Hn2.
    split; [exact Hn2|].
    destruct (train_step_accuracies _ _ _ _ _ _ _ _ _ _ _ _ _ _ E)
      as [(-> & ->) | (idx & yb & pb & ta & pv & va & Eidx & Eyb & Epb & Eta & Epv & Eva
                       & -> & ->)];
      [auto|].
    destruct (take_labels y idx yb C Hy Eyb) as (Hlen & _).
    pose proof (random_choice_len _ _ _ _ _ Eidx) as Hil.
    destruct HX as (HXr & HXc & Hyl). destruct Hval as (HVr & HVc & HVl).
    destruct (predict_value (params s2) (selected_rows X idx) D H C Hn2 HXc HC)
      as (pb' & Epb' & Hpbl & _).
    rewrite Epb in Epb'. injection Epb' as <-.
    destruct (predict_value (params s2) X_val D H C Hn2 HVc HC)
      as (pv' & Epv' & Hpvl & _).
    rewrite Epv in Epv'. injection Epv' as <-.
    cbn in Hpbl.
    split; apply Forall_app; (split; [assumption|]);
      (apply Forall_cons; [|apply Forall_nil]).
    - apply (accuracy_unit_interval pb yb ta); [congruence | lia | exact Eta].
    - apply (accuracy_unit_interval pv y_val va); [congruence | lia | exact Eva]. }
  tauto.
Qed.

End ExactAccuracies.

Section Binary64.
Variables libm_exp libm_log : spec_float -> spec_float.

Lemma SFadd_absorbs_l (x y : spec_float) :
  inf_or_nan x = true -> inf_or_nan (SFadd 53 1024 x y) = true.
Proof.
  destruct x as [s|s| |s m e]; try discriminate; intros _.
  - destruct s, y as [[]|[]| |[] m' e']; reflexivity.
  - destruct y; reflexivity.
Qed.

Lemma SFadd_absorbs_r (x y : spec_float) :
  inf_or_nan y = true -> inf_or_nan (SFadd 53 1024 x y) = true.
Proof.
  destruct y as [s|s| |s m e]; try discriminate; intros _.
  - destruct s, x as [[]|[]| |[] m' e']; reflexivity.
  - destruct x; reflexivity.
Qed.

Lemma sum_n_overflow (n k : nat) (f : nat -> spec_float) :
  k < n -> inf_or_nan (f k) = true -> inf_or_nan (sum_n (SF := binary64 libm_exp libm_log) n f) = true.
Proof.
  intros Hk Hf. induction n as [|n IH]; [lia|].
  change (inf_or_nan (SFadd 53 1024 (sum_n (SF := binary64 libm_exp libm_log) n f) (f n)) = true).
  destruct (Nat.eq_dec k n) as [->|Hne].
  - apply SFadd_absorbs_r, Hf.
  - apply SFadd_absorbs_l, IH. lia.
Qed.

(** X6.  Lines 98-99 exponentiate the raw scores.  In binary64, whatever
    the library's [exp] and [log] are otherwise: if [exp] of a score
    overflows to +infinity, the softmax entry computed for that score is
    NaN (the row sum is then an infinity or a NaN, and the quotient of an
    infinity by either is NaN). *)
Theorem softmax_overflow_is_nan (scores : mat spec_float) (i c : nat) :
  c < mcols scores ->
  libm_exp (at2 scores i c) = S754_infinity false ->
  at2 (normalize_rows (SF := binary64 libm_exp libm_log) (np_exp (SF := binary64 libm_exp libm_log) scores)) i c = S754_nan.
Proof.
  intros Hc Hinf. cbn [normalize_rows np_exp map2 mrows mcols at2].
  pose proof (sum_n_overflow (mcols scores) c (fun c' => libm_exp (at2 scores i c')) Hc)
    as Hsum.
  cbv beta in Hsum. rewrite Hinf in Hsum. specialize (Hsum eq_refl).
  change (SFdiv 53 1024 (libm_exp (at2 scores i c))
            (sum_n (SF := binary64 libm_exp libm_log) (mcols scores) (fun c' => libm_exp (at2 scores i c')))
          = S754_nan).
  rewrite Hinf.
  destruct (sum_n (SF := binary64 libm_exp libm_log) (mcols scores) (fun c' => libm_exp (at2 scores i c')))
    as [s|s| |s m e]; try discriminate; reflexivity.
Qed.

Lemma np_maximum_zero_not_negative (z : spec_float) :
  SFltb (np_maximum (SF := binary64 libm_exp libm_log) (szero (SF := binary64 libm_exp libm_log)) z) (S754_zero false) = false.
Proof.
  destruct z as [[]|[]| |[] m e]; reflexivity.
Qed.

(** X11.  In binary64 no hidden activation computed at line 80 is below
    zero, whatever the inputs and the weights (infinities included): an
    entry of a1 is positive, a zero or a NaN. *)
Theorem hidden_layer_never_negative
  (p : param_dict spec_float) (X : mat spec_float) (D H C : nat) :
  net_shape p D H C -> mcols X = D ->
  exists a1 scores,
    forward (SF := binary64 libm_exp libm_log) p X = Ok (a1, scores) /\
    forall i h, h < H -> SFltb (at2 a1 i h) (S754_zero false) = false.
Proof.
  intros Hnet HXc.
  destruct (forward_run (SF := binary64 libm_exp libm_log) p X D H C Hnet HXc)
    as (a1 & s & Hfw & _ & _ & _ & _ & Ha1 & _).
  exists a1, s. split; [exact Hfw|]. intros i h Hh.
  rewrite (Ha1 i h Hh). unfold hidden. apply np_maximum_zero_not_negative.
Qed.

Lemma accuracy_empty (p : vec nat) (y : vec Z) :
  vlen p = 0 -> vlen y = 0 -> accuracy (SF := binary64 libm_exp libm_log) p y = Ok S754_nan.
Proof.
  intros Hp Hy. unfold accuracy. rewrite Hp, Hy. reflexivity.
Qed.

(** X19.  In binary64, [train] with a validation set without rows does not
    fail: every validation accuracy it records is NaN (the mean of an empty
    array, 0/0). *)
Theorem train_empty_validation_set_gives_nan
  (X : mat spec_float) (y : vec Z) (X_val : mat spec_float) (y_val : vec Z)
  (learning_rate0 learning_rate_decay reg : spec_float)
  (num_iters : nat) (batch_size : Z) (verbose : bool)
  (rng : nat -> nat -> nat) (net : param_dict spec_float) (Nt D H C : nat) :
  net_shape net D H C -> 0 < C ->
  batch_shape X y Nt D -> 0 < Nt -> labels_in y C -> (0 < batch_size)%Z ->
  batch_shape X_val y_val 0 D ->
  exists s,
    train (SF := binary64 libm_exp libm_log) X y X_val y_val learning_rate_decay reg num_iters batch_size
          verbose rng net learning_rate0 = Ok s /\
    Forall (fun a => a = S754_nan) (val_acc_history s).
Proof.
  intros Hnet HC HX HNt Hy Hb Hval.
  destruct (train_outcome (SF := binary64 libm_exp libm_log) X y X_val y_val learning_rate_decay reg num_iters
              batch_size verbose rng Nt 0 D H C HC HX HNt Hy Hb Hval net learning_rate0 Hnet)
    as (epoch & s & Hep & Hs & _).
  exists s. split; [exact Hs|].
  unfold train in Hs. rewrite Hep in Hs. cbn [bind] in Hs.
  assert (Hinv : net_shape (params s) D H C /\
                 Forall (fun a => a = S754_nan) (val_acc_history s)).
  { apply (train_iters_invariant (SF := binary64 libm_exp libm_log) X y X_val y_val learning_rate_decay reg
             num_iters batch_size verbose rng
             (fun s => net_shape (params s) D H C /\
                       Forall (fun a => a = S754_nan) (val_acc_history s)) epoch)
      with (n := num_iters) (s0 := mkstate net learning_rate0 [] [] [] []);
      [|cbn; auto | exact Hs].
    intros it s1 s2 (Hn1 & Hv) E.
    pose proof E as E0.
    apply train_step_effect in E0. destruct E0 as (Hsame & _).
    pose proof (same_shape_net _ _ D H C Hsame Hn1) as Hn2.
    split; [exact Hn2|].
    destruct (train_step_accuracies (SF := binary64 libm_exp libm_log) _ _ _ _ _ _ _ _ _ _ _ _ _ _ E)
      as [(_ & ->) | (idx & yb & pb & ta & pv & va & _ & _ & _ & _ & Epv & Eva & _ & ->)];
      [exact Hv|].
    destruct Hval as (HVr & HVc & HVl).
    destruct (predict_value (SF := binary64 libm_exp libm_log) (params s2) X_val D H C Hn2 HVc HC)
      as (pv' & Epv' & Hpvl & _).
    rewrite Epv in Epv'. injection Epv' as <-.
    rewrite accuracy_empty in Eva by congruence. injection Eva as <-.
    apply Forall_app. split; [exact Hv|]. apply Forall_cons; [reflexivity | apply Forall_nil]. }
  tauto.
Qed.

End Binary64.

Section LateChecks.
Context {F : Type} {SF : Scalar F}.

(** X18.  The validation set is not looked at before the first epoch test.
    With well-formed training data (sizes below 2^53) and a validation set
    whose number of columns is not D, [train] with [num_iters = 0] returns
    normally, and with at least one iteration it raises ValueError: at
    iteration 0, in [predict(X_val)], after the first update. *)
Theorem train_checks_validation_set_late
  (X : mat F) (y : vec Z) (X_val : mat F) (y_val : vec Z)
  (learning_rate0 learning_rate_decay reg : F)
  (num_iters : nat) (batch_size : Z) (verbose : bool)
  (rng : nat -> nat -> nat) (net : param_dict F) (Nt D H C : nat) :
  net_shape net D H C -> 0 < C ->
  batch_shape X y Nt D -> 0 < Nt -> labels_in y C ->
  (Z.of_nat Nt < 2 ^ 53)%Z -> (0 < batch_size < 2 ^ 53)%Z ->
  mcols X_val <> D ->
  (num_iters = 0 ->
   train X y X_val y_val learning_rate_decay reg num_iters batch_size
         verbose rng net learning_rate0 = Ok (mkstate net learning_rate0 [] [] [] [])) /\
  (0 < num_iters ->
   train X y X_val y_val learning_rate_decay reg num_iters batch_size
         verbose rng net learning_rate0 = Raise ValueError).
Proof.
  intros Hnet HC HX HNt Hy HNb Hb Hbad.
  destruct HX as (HXr & HXc & Hyl).
  destruct (true_div_not_nan (Z.of_nat Nt) batch_size ltac:(lia) Hb) as (q & Hq & Hnan).
  assert (Hep : iterations_per_epoch (mrows X) batch_size = Ok (py_max_1 q)).
  { unfold iterations_per_epoch. rewrite HXr, Hq. reflexivity. }
  unfold train. rewrite Hep. cbn [bind]. split.
  - intros ->. reflexivity.
  - intros Hn.
    set (s0 := mkstate net learning_rate0 [] [] [] []).
    assert (Hfirst :
              train_step X y X_val y_val learning_rate_decay reg num_iters batch_size
                         verbose rng (py_max_1 q) 0 s0 = Raise ValueError).
    { unfold train_step. rewrite HXr.
      destruct (random_choice_ok rng 0 Nt batch_size HNt ltac:(lia))
        as (idx & -> & Hlen & Hidx).
      cbn [bind].
      rewrite take_rows_ok by (intros k _; rewrite HXr; apply Hidx). cbn [bind].
      rewrite take_ok by (intros k; rewrite Hyl; apply Hidx). cbn [bind].
      set (y_batch := mkvec (vlen idx) (fun k => at1 y (at1 idx k))).
      assert (HB : 0 < vlen idx) by lia.
      assert (Hbs : batch_shape (selected_rows X idx) y_batch (vlen idx) D).
      { unfold batch_shape. cbn. auto. }
      assert (Hyb : labels_indexable y_batch C).
      { apply labels_in_indexable. intros k Hk. cbn. apply Hy. rewrite Hyl. apply Hidx. }
      destruct (loss_run (params s0) (selected_rows X idx) y_batch reg (vlen idx) D H C
                  Hnet Hbs HB Hyb)
        as (l & g & -> & _ & Hg & _).
      cbn [bind].
      pose proof Hnet as (N1 & N2 & N3 & N4 & N5 & N6).
      destruct Hg as (G1 & G2 & G3 & G4 & G5 & G6).
      rewrite !inplace2_ok by (cbn; congruence). cbn [bind].
      rewrite !inplace1_ok by (cbn; congruence). cbn [bind].
      rewrite (mod_is_zero_first q Hnan). cbn [bind].
      match goal with |- context [predict ?q' _] => set (p' := q') end.
      assert (Hnet' : net_shape p' D H C).
      { unfold net_shape. subst p'. cbn. auto 10. }
      destruct (predict_value p' (selected_rows X idx) D H C Hnet') as (pb & -> & Hpb & _);
        [cbn; exact HXc | exact HC |]. cbn [bind].
      destruct (accuracy_ok pb y_batch) as (ta & ->); [cbn; exact Hpb|]. cbn [bind].
      unfold predict. rewrite matmul_raise; [reflexivity|].
      destruct Hnet' as (M1 & _). congruence. }
    destruct num_iters as [|n]; [lia|]. clear Hn.
    revert Hfirst. generalize (S n) at 1 2. intros total Hfirst.
    induction n as [|n IH].
    + exact Hfirst.
    + change (s <- train_iters X y X_val y_val learning_rate_decay reg total batch_size
                     verbose rng (py_max_1 q) (S n) s0 ;;
              train_step X y X_val y_val learning_rate_decay reg total batch_size
                         verbose rng (py_max_1 q) (S n) s = Raise ValueError).
      rewrite IH. reflexivity.
Qed.

End LateChecks.

Section ExactOneClass.
Local Open Scope R_scope.

(** X9.  With a single output class (C = 1) the softmax probability is 1
    on every row: in exact arithmetic the loss is the regularization term
    alone, the bias gradients are 0 and the weight gradients are reg W1 and
    reg W2. *)
Theorem loss_single_class
  (p : param_dict R) (X : mat R) (y : vec Z) (reg : R) (N D H : nat) :
  net_shape p D H 1 -> batch_shape X y N D -> (0 < N)%nat -> labels_indexable y 1 ->
  exists l g,
    loss p X (Some y) reg = Ok (LossGrads l g) /\
    l = reg * (sum_squares (W1 p) + sum_squares (W2 p)) / 2 /\
    (forall d h, (d < D)%nat -> (h < H)%nat -> at2 (W1 g) d h = reg * at2 (W1 p) d h) /\
    (forall h, (h < H)%nat -> at1 (b1 g) h = 0 /\ at2 (W2 g) h 0 = reg * at2 (W2 p) h 0) /\
    at1 (b2 g) 0 = 0.
Proof.
  intros Hnet HX HN Hy.
  destruct (loss_run p X y reg N D H 1 Hnet HX HN Hy)
    as (l & g & Hloss & Hl & _ & HW1 & Hb1 & HW2 & Hb2).
  exists l, g. split; [exact Hloss|].
  destruct Hnet as (HW1r & HW1c & Hb1l & HW2r & HW2c & Hb2l).
  destruct HX as (HXr & HXc & Hyl).
  assert (Hcls : forall i, (i < N)%nat -> indexed_class 1 y i = 0%nat).
  { intros i Hi. pose proof (wrap_lt_C 1 y i Hy ltac:(lia)). lia. }
  assert (Hprob : forall i, probability p X i 0 = 1).
  { intros i. unfold probability. rewrite HW2c.
    change (exp (score p X i 0) / (0 + exp (score p X i 0)) = 1).
    pose proof (exp_pos (score p X i 0)). field. lra. }
  assert (HdS : forall i, (i < N)%nat -> dScores p X (indexed_class 1 y) i 0 = 0).
  { intros i Hi. rewrite dScores_minus, Hcls, Hprob by exact Hi. cbn. lra. }
  assert (HdA : forall i h, (i < N)%nat -> dA1 p X (indexed_class 1 y) i h = 0).
  { intros i h Hi. unfold dA1. destruct (sleb _ _); [reflexivity|].
    rewrite HW2c.
    change (0 + dScores p X (indexed_class 1 y) i 0 * at2 (W2 p) h 0 = 0).
    rewrite HdS by exact Hi. lra. }
  split; [|split; [|split]].
  - rewrite Hl.
    change (data_loss p X (indexed_class 1 y)
            + reg * (sum_squares (W1 p) + sum_squares (W2 p)) / 2
            = reg * (sum_squares (W1 p) + sum_squares (W2 p)) / 2).
    unfold data_loss.
    change (Rsum (mrows X) (fun i => - ln (probability p X i (indexed_class 1 y i)))
            / IZR (Z.of_nat (mrows X))
            + reg * (sum_squares (W1 p) + sum_squares (W2 p)) / 2
            = reg * (sum_squares (W1 p) + sum_squares (W2 p)) / 2).
    rewrite HXr, Rsum_zero; [unfold Rdiv; lra|].
    intros i Hi. rewrite Hcls, Hprob, ln_1 by exact Hi. lra.
  - intros d h Hd Hh. rewrite (HW1 d h Hd Hh).
    change (Rsum N (fun i => at2 X i d * dA1 p X (indexed_class 1 y) i h) / IZR (Z.of_nat N)
            + reg * at2 (W1 p) d h = reg * at2 (W1 p) d h).
    rewrite Rsum_zero; [unfold Rdiv; lra|]. intros i Hi. rewrite HdA by exact Hi. lra.
  - intros h Hh. split.
    + rewrite (Hb1 h Hh).
      change (Rsum N (fun i => 1 * dA1 p X (indexed_class 1 y) i h) / IZR (Z.of_nat N) = 0).
      rewrite Rsum_zero; [unfold Rdiv; lra|]. intros i Hi. rewrite HdA by exact Hi. lra.
    + rewrite (HW2 h 0%nat Hh ltac:(lia)).
      change (Rsum N (fun i => hidden p X i h * dScores p X (indexed_class 1 y) i 0)
              / IZR (Z.of_nat N)
              + reg * at2 (W2 p) h 0 = reg * at2 (W2 p) h 0).
      rewrite Rsum_zero; [unfold Rdiv; lra|]. intros i Hi. rewrite HdS by exact Hi. lra.
  - rewrite (Hb2 0%nat ltac:(lia)).
    change (Rsum N (fun i => 1 * dScores p X (indexed_class 1 y) i 0) / IZR (Z.of_nat N) = 0).
    rewrite Rsum_zero; [unfold Rdiv; lra|]. intros i Hi. rewrite HdS by exact Hi. lra.
Qed.

End ExactOneClass.

(* ================================================================= *)
(** * The further properties on concrete inputs *)

Lemma y0_indexable : labels_indexable y0 2.
Proof. apply labels_in_indexable, y0_labels. Qed.

Lemma y5_indexable : labels_indexable y5 2.
Proof. apply labels_in_indexable, (y_rows_labels 5). Qed.

Lemma y_zeros_indexable (n : nat) : labels_indexable (y_zeros n) 1.
Proof. intros i _. cbn. lia. Qed.

Lemma y64_labels : labels_in y64 3.
Proof. intros i Hi. cbn in *. lia. Qed.

Lemma net0_unit_1_dead (i : nat) :
  i < 5 ->
  (Rsum 1 (fun d => at2 X5 i d * at2 (W1 net0) d 1) + at1 (b1 net0) 1 <= 0)%R.
Proof.
  intros _. rewrite Rsum_S, Rsum_0. cbn [at2 at1 X5 X_rows net0 W1 b1 Nat.eqb].
  pose proof (pos_INR i). lra.
Qed.

Lemma loss_grads_shaped_like_params_witness :
  net_shape net0 1 2 2 /\ batch_shape X0 y0 2 1 /\ 0 < 2 /\ labels_indexable y0 2 /\
  exists l g, loss net0 X0 (Some y0) 0%R = Ok (LossGrads l g) /\ same_shape net0 g.
Proof.
  assert (Hn : net_shape net0 1 2 2) by (repeat split).
  assert (Hb : batch_shape X0 y0 2 1) by (repeat split).
  assert (HN : 0 < 2) by lia.
  repeat (split; [assumption || exact y0_indexable|]).
  exact (loss_grads_shaped_like_params net0 X0 y0 0%R 2 1 2 2 Hn Hb HN y0_indexable).
Defined.

Lemma loss_empty_batch_witness :
  net_shape net0 1 2 2 /\ mrows X_none = 0 /\ mcols X_none = 1 /\
  (forall y reg, loss net0 X_none (Some y) reg = Raise IndexError) /\
  (exists s, mrows s = 0 /\ mcols s = 2 /\ forall reg, loss net0 X_none None reg = Ok (Scores s)).
Proof.
  assert (Hn : net_shape net0 1 2 2) by (repeat split).
  split; [exact Hn|]. split; [reflexivity|]. split; [reflexivity|].
  exact (loss_empty_batch net0 X_none 1 2 2 Hn eq_refl eq_refl).
Defined.

Lemma loss_label_count_witness :
  net_shape net0 1 2 2 /\ mrows X0 = 2 /\ mcols X0 = 1 /\ 1 < 2 /\
  (vlen y_three <> 2 /\ vlen y_three <> 1 /\
   loss net0 X0 (Some y_three) 0%R = Raise IndexError) /\
  (vlen y_one = 1 /\
   loss net0 X0 (Some y_one) 0%R
   = loss net0 X0 (Some (mkvec 2 (fun _ => at1 y_one 0))) 0%R).
Proof.
  assert (Hn : net_shape net0 1 2 2) by (repeat split).
  assert (HN : 1 < 2) by lia.
  assert (H3 : vlen y_three <> 2) by (cbn; lia).
  assert (H3' : vlen y_three <> 1) by (cbn; lia).
  split; [exact Hn|]. split; [reflexivity|]. split; [reflexivity|]. split; [exact HN|].
  split.
  - split; [exact H3|]. split; [exact H3'|].
    exact (proj1 (loss_label_count net0 X0 y_three 0%R 2 1 2 2 Hn eq_refl eq_refl HN) H3 H3').
  - split; [reflexivity|].
    exact (proj2 (loss_label_count net0 X0 y_one 0%R 2 1 2 2 Hn eq_refl eq_refl HN) eq_refl).
Defined.

Lemma predict_edges_witness :
  net_shape net0 1 2 2 /\ net_shape net_no_class 1 2 0 /\
  (mcols X_wide <> 1 /\ predict net0 X_wide = Raise ValueError) /\
  (mcols X0 = 1 /\ predict net_no_class X0 = Raise ValueError) /\
  (mcols X_none = 1 /\ 0 < 2 /\ mrows X_none = 0 /\
   exists y_pred, predict net0 X_none = Ok y_pred /\ vlen y_pred = 0).
Proof.
  assert (Hn : net_shape net0 1 2 2) by (repeat split).
  assert (Hn0 : net_shape net_no_class 1 2 0) by (repeat split).
  assert (Hw : mcols X_wide <> 1) by (cbn; lia).
  assert (HC : 0 < 2) by lia.
  split; [exact Hn|]. split; [exact Hn0|]. split; [|split].
  - split; [exact Hw|].
    exact (proj1 (predict_edges net0 X_wide 1 2 2 Hn) Hw).
  - split; [reflexivity|].
    exact (proj1 (proj2 (predict_edges net_no_class X0 1 2 0 Hn0)) eq_refl eq_refl).
  - split; [reflexivity|]. split; [exact HC|]. split; [reflexivity|].
    exact (proj2 (proj2 (predict_edges net0 X_none 1 2 2 Hn)) eq_refl HC eq_refl).
Defined.

Lemma idx0_in_range (k : nat) : k < vlen idx0 -> at1 idx0 k < mrows X0.
Proof. intros _. change (k mod 2 < 2). apply Nat.mod_upper_bound. lia. Qed.

Lemma idx_out_out_of_range : exists k, k < vlen idx_out /\ mrows X0 <= at1 idx_out k.
Proof. exists 0. cbn. lia. Qed.

Lemma predict_is_row_wise_witness :
  net_shape net0 1 2 2 /\ mcols X0 = 1 /\ 0 < 2 /\
  ((forall k, k < vlen idx0 -> at1 idx0 k < mrows X0) /\
   exists y_all X_sel y_sel,
     predict net0 X0 = Ok y_all /\
     take_rows X0 idx0 = Ok X_sel /\
     predict net0 X_sel = Ok y_sel /\
     vlen y_sel = vlen idx0 /\
     forall k, k < vlen idx0 ->
       at1 idx0 k < vlen y_all /\ at1 y_sel k = at1 y_all (at1 idx0 k)) /\
  ((exists k, k < vlen idx_out /\ mrows X0 <= at1 idx_out k) /\
   (X_sel <- take_rows X0 idx_out ;; predict net0 X_sel) = Raise IndexError).
Proof.
  assert (Hn : net_shape net0 1 2 2) by (repeat split).
  assert (HC : 0 < 2) by lia.
  split; [exact Hn|]. split; [reflexivity|]. split; [exact HC|]. split.
  - split; [exact idx0_in_range|].
    exact (proj1 (predict_is_row_wise net0 X0 idx0 1 2 2 Hn eq_refl HC) idx0_in_range).
  - split; [exact idx_out_out_of_range|].
    exact (proj2 (predict_is_row_wise net0 X0 idx_out 1 2 2 Hn eq_refl HC)
             idx_out_out_of_range).
Defined.

Lemma predict_first_largest_score_witness :
  net_shape net0 1 2 2 /\ mrows X0 = 2 /\ mcols X0 = 1 /\ 0 < 2 /\
  exists scores y_pred,
    loss net0 X0 None 0%R = Ok (Scores scores) /\
    predict net0 X0 = Ok y_pred /\
    forall i c, i < 2 -> c < 2 ->
      (at2 scores i c <= at2 scores i (at1 y_pred i))%R /\
      (c < at1 y_pred i -> (at2 scores i c < at2 scores i (at1 y_pred i))%R).
Proof.
  assert (Hn : net_shape net0 1 2 2) by (repeat split).
  assert (HC : 0 < 2) by lia.
  split; [exact Hn|]. split; [reflexivity|]. split; [reflexivity|]. split; [exact HC|].
  exact (predict_first_largest_score net0 X0 0%R 2 1 2 2 Hn eq_refl eq_refl HC).
Defined.

Lemma softmax_rows_are_distributions_witness :
  0 < mcols scores0 /\
  (forall c, c < mcols scores0 ->
     (0 < at2 (normalize_rows (np_exp scores0)) 0 c <= 1)%R) /\
  Rsum (mcols scores0) (fun c => at2 (normalize_rows (np_exp scores0)) 0 c) = 1%R.
Proof.
  assert (HC : 0 < mcols scores0) by (cbn; lia).
  split; [exact HC|].
  exact (softmax_rows_are_distributions scores0 0 HC).
Defined.

Lemma loss_is_nonnegative_witness :
  net_shape net0 1 2 2 /\ batch_shape X0 y0 2 1 /\ 0 < 2 /\ labels_indexable y0 2 /\
  (0 <= 1)%R /\
  exists l g,
    loss net0 X0 (Some y0) 1%R = Ok (LossGrads l g) /\
    (0 <= 1 * (sum_squares (W1 net0) + sum_squares (W2 net0)) / 2 <= l)%R.
Proof.
  assert (Hn : net_shape net0 1 2 2) by (repeat split).
  assert (Hb : batch_shape X0 y0 2 1) by (repeat split).
  assert (HN : 0 < 2) by lia.
  assert (Hr : (0 <= 1)%R) by lra.
  repeat (split; [assumption || exact y0_indexable|]).
  exact (loss_is_nonnegative net0 X0 y0 1%R 2 1 2 2 Hn Hb HN y0_indexable Hr).
Defined.

Lemma loss_b2_gradient_sums_to_zero_witness :
  net_shape net0 1 2 2 /\ batch_shape X0 y0 2 1 /\ 0 < 2 /\ labels_indexable y0 2 /\
  exists l g,
    loss net0 X0 (Some y0) 1%R = Ok (LossGrads l g) /\
    vlen (b2 g) = 2 /\ Rsum 2 (fun c => at1 (b2 g) c) = 0%R.
Proof.
  assert (Hn : net_shape net0 1 2 2) by (repeat split).
  assert (Hb : batch_shape X0 y0 2 1) by (repeat split).
  assert (HN : 0 < 2) by lia.
  repeat (split; [assumption || exact y0_indexable|]).
  exact (loss_b2_gradient_sums_to_zero net0 X0 y0 1%R 2 1 2 2 Hn Hb HN y0_indexable).
Defined.

Lemma loss_dead_unit_gradients_witness :
  net_shape net0 1 2 2 /\ batch_shape X5 y5 5 1 /\ 0 < 5 /\ labels_indexable y5 2 /\
  1 < 2 /\
  (forall i, i < 5 ->
     (Rsum 1 (fun d => at2 X5 i d * at2 (W1 net0) d 1) + at1 (b1 net0) 1 <= 0)%R) /\
  exists l g,
    loss net0 X5 (Some y5) 1%R = Ok (LossGrads l g) /\
    at1 (b1 g) 1 = 0%R /\
    (forall d, d < 1 -> at2 (W1 g) d 1 = (1 * at2 (W1 net0) d 1)%R) /\
    (forall c, c < 2 -> at2 (W2 g) 1 c = (1 * at2 (W2 net0) 1 c)%R).
Proof.
  assert (Hn : net_shape net0 1 2 2) by (repeat split).
  assert (Hb : batch_shape X5 y5 5 1) by (repeat split).
  assert (HN : 0 < 5) by lia.
  assert (Hh : 1 < 2) by lia.
  repeat (split; [assumption || exact y5_indexable || exact net0_unit_1_dead|]).
  exact (loss_dead_unit_gradients net0 X5 y5 1%R 5 1 2 2 1 Hn Hb HN y5_indexable Hh
           net0_unit_1_dead).
Defined.

Lemma loss_of_zero_init_witness :
  batch_shape X0 y0 2 1 /\ 0 < 2 /\ labels_indexable y0 2 /\
  exists l g,
    loss (init 1 2 2 0%R (fun _ _ => 1%R) (fun _ _ => 1%R)) X0 (Some y0) 1%R
    = Ok (LossGrads l g) /\
    l = ln (INR 2).
Proof.
  assert (Hb : batch_shape X0 y0 2 1) by (repeat split).
  assert (HN : 0 < 2) by lia.
  repeat (split; [assumption || exact y0_indexable|]).
  exact (loss_of_zero_init X0 y0 1%R 2 1 2 2 (fun _ _ => 1%R) (fun _ _ => 1%R)
           Hb HN y0_indexable).
Defined.

Lemma loss_single_class_witness :
  net_shape net_one_class 1 2 1 /\ batch_shape X0 (y_zeros 2) 2 1 /\ 0 < 2 /\
  labels_indexable (y_zeros 2) 1 /\
  exists l g,
    loss net_one_class X0 (Some (y_zeros 2)) 1%R = Ok (LossGrads l g) /\
    l = (1 * (sum_squares (W1 net_one_class) + sum_squares (W2 net_one_class)) / 2)%R /\
    (forall d h, d < 1 -> h < 2 -> at2 (W1 g) d h = (1 * at2 (W1 net_one_class) d h)%R) /\
    (forall h, h < 2 ->
       at1 (b1 g) h = 0%R /\ at2 (W2 g) h 0 = (1 * at2 (W2 net_one_class) h 0)%R) /\
    at1 (b2 g) 0 = 0%R.
Proof.
  assert (Hn : net_shape net_one_class 1 2 1) by (repeat split).
  assert (Hb : batch_shape X0 (y_zeros 2) 2 1) by (repeat split).
  assert (HN : 0 < 2) by lia.
  repeat (split; [assumption || exact (y_zeros_indexable 2)|]).
  exact (loss_single_class net_one_class X0 (y_zeros 2) 1%R 2 1 2 Hn Hb HN
           (y_zeros_indexable 2)).
Defined.

Lemma softmax_overflow_is_nan_witness :
  1 < mcols scores_huge /\
  exp_overflow (at2 scores_huge 0 1) = S754_infinity false /\
  at2 (normalize_rows (SF := binary64 exp_overflow (fun x => x))
         (np_exp (SF := binary64 exp_overflow (fun x => x)) scores_huge)) 0 1
  = S754_nan.
Proof.
  assert (Hc : 1 < mcols scores_huge) by (cbn; lia).
  assert (He : exp_overflow (at2 scores_huge 0 1) = S754_infinity false)
    by (vm_compute; reflexivity).
  split; [exact Hc|]. split; [exact He|].
  exact (softmax_overflow_is_nan exp_overflow (fun x => x) scores_huge 0 1 Hc He).
Defined.

Lemma hidden_layer_never_negative_witness :
  net_shape net64 2 2 3 /\ mcols X64 = 2 /\
  exists a1 scores,
    forward (SF := binary64 exp_overflow (fun x => x)) net64 X64 = Ok (a1, scores) /\
    forall i h, h < 2 -> SFltb (at2 a1 i h) (S754_zero false) = false.
Proof.
  assert (Hn : net_shape net64 2 2 3) by (repeat split).
  split; [exact Hn|]. split; [reflexivity|].
  exact (hidden_layer_never_negative exp_overflow (fun x => x) net64 X64 2 2 3 Hn eq_refl).
Defined.

Lemma train_edges_witness :
  ((0 = 0)%Z /\
   train X5 y5 X5 y5 (1 / 2)%R 0%R 10 0 false rng0 net0 1%R = Raise ZeroDivisionError) /\
  ((2 <> 0)%Z /\ 0 = 0 /\
   train X5 y5 X5 y5 (1 / 2)%R 0%R 0 2 false rng0 net0 1%R
   = Ok (mkstate net0 1%R [] [] [] [])) /\
  (((-1 < 0)%Z \/ ((0 < -1)%Z /\ mrows X5 = 0)) /\ 0 < 10 /\
   train X5 y5 X5 y5 (1 / 2)%R 0%R 10 (-1) false rng0 net0 1%R = Raise ValueError) /\
  (((2 < 0)%Z \/ ((0 < 2)%Z /\ mrows X_none = 0)) /\ 0 < 10 /\
   train X_none y_none X5 y5 (1 / 2)%R 0%R 10 2 false rng0 net0 1%R = Raise ValueError).
Proof.
  assert (H2 : (2 <> 0)%Z) by lia.
  assert (Hn : 0 < 10) by lia.
  assert (Hneg : (-1 < 0)%Z \/ ((0 < -1)%Z /\ mrows X5 = 0)) by (left; lia).
  assert (Hnone : (2 < 0)%Z \/ ((0 < 2)%Z /\ mrows X_none = 0))
    by (right; split; [lia | reflexivity]).
  split; [|split; [|split]].
  - split; [reflexivity|].
    exact (proj1 (train_edges X5 y5 X5 y5 (1 / 2)%R 0%R 10 0 rng0 false net0 1%R) eq_refl).
  - split; [exact H2|]. split; [reflexivity|].
    exact (proj1 (proj2 (train_edges X5 y5 X5 y5 (1 / 2)%R 0%R 0 2 rng0 false net0 1%R))
             H2 eq_refl).
  - split; [exact Hneg|]. split; [exact Hn|].
    exact (proj2 (proj2 (train_edges X5 y5 X5 y5 (1 / 2)%R 0%R 10 (-1) rng0 false net0 1%R))
             Hneg Hn).
  - split; [exact Hnone|]. split; [exact Hn|].
    exact (proj2 (proj2 (train_edges X_none y_none X5 y5 (1 / 2)%R 0%R 10 2 rng0 false
                           net0 1%R)) Hnone Hn).
Defined.

Lemma train_histories_witness :
  net_shape net0 1 2 2 /\ 0 < 2 /\ batch_shape X5 y5 5 1 /\ 0 < 5 /\
  labels_in y5 2 /\ (Z.of_nat 5 < 2 ^ 53)%Z /\ (0 < 2 < 2 ^ 53)%Z /\
  exists s,
    train X5 y5 X5 y5 (1 / 2)%R 0%R 10 2 false rng0 net0 1%R = Ok s /\
    length (loss_history s) = 10 /\
    length (val_acc_history s) = length (train_acc_history s) /\
    length (train_acc_history s) <= 10 /\
    (0 < 10 -> 1 <= length (train_acc_history s)) /\
    learning_rate s = decayed 1%R (1 / 2)%R (length (train_acc_history s)).
Proof.
  assert (Hn : net_shape net0 1 2 2) by (repeat split).
  assert (HC : 0 < 2) by lia.
  assert (Hb : batch_shape X5 y5 5 1) by (repeat split).
  assert (HN : 0 < 5) by lia.
  assert (H5 : (Z.of_nat 5 < 2 ^ 53)%Z) by (cbn; lia).
  assert (HB : (0 < 2 < 2 ^ 53)%Z) by lia.
  repeat (split; [assumption || exact (y_rows_labels 5)|]).
  exact (train_histories X5 y5 X5 y5 1%R (1 / 2)%R 0%R 10 2 false rng0 net0
           5 5 1 2 2 Hn HC Hb HN (y_rows_labels 5) Hb H5 HB).
Defined.

Lemma train_rate_zero_keeps_parameters_witness :
  net_shape net0 1 2 2 /\ 0 < 2 /\ batch_shape X5 y5 5 1 /\ 0 < 5 /\
  labels_in y5 2 /\ (0 < 2)%Z /\
  exists s,
    train X5 y5 X5 y5 (1 / 2)%R 0%R 10 2 false rng0 net0 0%R = Ok s /\
    params_eq net0 (params s) /\ learning_rate s = 0%R /\
    length (loss_history s) = 10.
Proof.
  assert (Hn : net_shape net0 1 2 2) by (repeat split).
  assert (HC : 0 < 2) by lia.
  assert (Hb : batch_shape X5 y5 5 1) by (repeat split).
  assert (HN : 0 < 5) by lia.
  assert (HB : (0 < 2)%Z) by lia.
  repeat (split; [assumption || exact (y_rows_labels 5)|]).
  exact (train_rate_zero_keeps_parameters X5 y5 X5 y5 (1 / 2)%R 0%R 10 2 false rng0 net0
           5 5 1 2 2 Hn HC Hb HN (y_rows_labels 5) HB Hb).
Defined.

Lemma train_zero_weights_never_learn_witness :
  net_shape net_std0 1 2 2 /\ 0 < 2 /\ batch_shape X5 y5 5 1 /\ 0 < 5 /\
  labels_in y5 2 /\ (0 < 2)%Z /\ weights_zero net_std0 /\
  exists s,
    train X5 y5 X5 y5 (1 / 2)%R 0%R 10 2 false rng0 net_std0 1%R = Ok s /\
    weights_zero (params s) /\
    forall X', mcols X' = 1 ->
      exists y_pred, predict (params s) X' = Ok y_pred /\
                     forall i j, at1 y_pred i = at1 y_pred j.
Proof.
  assert (Hn : net_shape net_std0 1 2 2) by (repeat split).
  assert (HC : 0 < 2) by lia.
  assert (Hb : batch_shape X5 y5 5 1) by (repeat split).
  assert (HN : 0 < 5) by lia.
  assert (HB : (0 < 2)%Z) by lia.
  assert (Hz : weights_zero net_std0) by apply init_zero_std.
  repeat (split; [assumption || exact (y_rows_labels 5)|]).
  exact (train_zero_weights_never_learn X5 y5 X5 y5 1%R (1 / 2)%R 0%R 10 2 false rng0
           net_std0 5 5 1 2 2 Hn HC Hb HN (y_rows_labels 5) HB Hb Hz).
Defined.

Lemma train_accuracies_in_unit_interval_witness :
  net_shape net0 1 2 2 /\ 0 < 2 /\ batch_shape X5 y5 5 1 /\ 0 < 5 /\
  labels_in y5 2 /\ (0 < 2)%Z /\
  exists s,
    train X5 y5 X5 y5 (1 / 2)%R 0%R 10 2 false rng0 net0 1%R = Ok s /\
    Forall (fun a => (0 <= a <= 1)%R) (train_acc_history s) /\
    Forall (fun a => (0 <= a <= 1)%R) (val_acc_history s).
Proof.
  assert (Hn : net_shape net0 1 2 2) by (repeat split).
  assert (HC : 0 < 2) by lia.
  assert (Hb : batch_shape X5 y5 5 1) by (repeat split).
  assert (HN : 0 < 5) by lia.
  assert (HB : (0 < 2)%Z) by lia.
  repeat (split; [assumption || exact (y_rows_labels 5)|]).
  exact (train_accuracies_in_unit_interval X5 y5 X5 y5 1%R (1 / 2)%R 0%R 10 2 false rng0
           net0 5 5 1 2 2 Hn HC Hb HN (y_rows_labels 5) HB Hb HN).
Defined.

Lemma train_empty_validation_set_gives_nan_witness :
  net_shape net64 2 2 3 /\ 0 < 3 /\ batch_shape X64 y64 2 2 /\ 0 < 2 /\
  labels_in y64 3 /\ (0 < 1)%Z /\ batch_shape X64_none y_none 0 2 /\
  exists s,
    train (SF := binary64 exp_overflow (fun x => x)) X64 y64 X64_none y_none
          (b64_of_int 1) (b64_of_int 0) 10 1 false rng0 net64 (b64_of_int 1) = Ok s /\
    Forall (fun a => a = S754_nan) (val_acc_history s).
Proof.
  assert (Hn : net_shape net64 2 2 3) by (repeat split).
  assert (HC : 0 < 3) by lia.
  assert (Hb : batch_shape X64 y64 2 2) by (repeat split).
  assert (HN : 0 < 2) by lia.
  assert (HB : (0 < 1)%Z) by lia.
  assert (Hv : batch_shape X64_none y_none 0 2) by (repeat split).
  repeat (split; [assumption || exact y64_labels|]).
  exact (train_empty_validation_set_gives_nan exp_overflow (fun x => x)
           X64 y64 X64_none y_none (b64_of_int 1) (b64_of_int 1) (b64_of_int 0)
           10 1 false rng0 net64 2 2 2 3 Hn HC Hb HN y64_labels HB Hv).
Defined.

Lemma train_checks_validation_set_late_witness :
  net_shape net0 1 2 2 /\ 0 < 2 /\ batch_shape X5 y5 5 1 /\ 0 < 5 /\
  labels_in y5 2 /\ (Z.of_nat 5 < 2 ^ 53)%Z /\ (0 < 2 < 2 ^ 53)%Z /\
  mcols X_wide <> 1 /\
  (0 = 0 /\
   train X5 y5 X_wide y0 (1 / 2)%R 0%R 0 2 false rng0 net0 1%R
   = Ok (mkstate net0 1%R [] [] [] [])) /\
  (0 < 10 /\
   train X5 y5 X_wide y0 (1 / 2)%R 0%R 10 2 false rng0 net0 1%R = Raise ValueError).
Proof.
  assert (Hn : net_shape net0 1 2 2) by (repeat split).
  assert (HC : 0 < 2) by lia.
  assert (Hb : batch_shape X5 y5 5 1) by (repeat split).
  assert (HN : 0 < 5) by lia.
  assert (H5 : (Z.of_nat 5 < 2 ^ 53)%Z) by (cbn; lia).
  assert (HB : (0 < 2 < 2 ^ 53)%Z) by lia.
  assert (Hw : mcols X_wide <> 1) by (cbn; lia).
  assert (H10 : 0 < 10) by lia.
  repeat (split; [assumption || exact (y_rows_labels 5)|]).
  split.
  - split; [reflexivity|].
    exact (proj1 (train_checks_validation_set_late X5 y5 X_wide y0 1%R (1 / 2)%R 0%R 0 2
                    false rng0 net0 5 1 2 2 Hn HC Hb HN (y_rows_labels 5) H5 HB Hw) eq_refl).
  - split; [exact H10|].
    exact (proj2 (train_checks_validation_set_late X5 y5 X_wide y0 1%R (1 / 2)%R 0%R 10 2
                    false rng0 net0 5 1 2 2 Hn HC Hb HN (y_rows_labels 5) H5 HB Hw) H10).
Defined.
